(** * FAWV vault build pipeline: a shallow embedding and its properties

    The development follows the sources of the repository:
    - [web/src/App.tsx]: the archive digest ([hashFilesSHA256]), the
      upload executor ([uploadToS3]) and the build flow of the demo
      ([proceedAfterPricing], [resetFlow], the step buttons);
    - the upload route ([router.post("/upload/start")]): path
      sanitisation, object keys and the session plan;
    - the upload module ([sha256Hex] with 8 MiB slices).

    JavaScript strings are modelled by [string]: the UTF-8 bytes of a
    well-formed string.  The two regular expressions of the route only
    mention the ASCII characters [.] and [/], so working on the bytes of
    the UTF-8 form is the same as working on code units. *)

From Stdlib Require Import ZArith List String Ascii Bool Lia.
From Stdlib.Strings Require Import Byte.
From Stdlib Require Import Permutation Sorted PrimFloat.
From Stdlib Require Import FloatOps SpecFloat DecimalString.
Import ListNotations.

Set Warnings "-inexact-float".

Local Open Scope string_scope.
Local Open Scope Z_scope.
Local Open Scope list_scope.

(** ** SHA-256 (FIPS 180-4), the primitive behind [crypto.subtle.digest]
       and hash-wasm's [createSHA256] *)

Module Sha256.

Definition mask32 : Z := 0xFFFFFFFF.

Definition add32 (a b : Z) : Z := Z.land (a + b) mask32.

Definition rotr (n x : Z) : Z :=
  Z.lor (Z.shiftr x n) (Z.land (Z.shiftl x (32 - n)) mask32).

Definition not32 (x : Z) : Z := Z.lxor x mask32.

Definition Ch (x y z : Z) : Z := Z.lxor (Z.land x y) (Z.land (not32 x) z).

Definition Maj (x y z : Z) : Z :=
  Z.lxor (Z.lxor (Z.land x y) (Z.land x z)) (Z.land y z).

Definition Sigma0 (x : Z) : Z := Z.lxor (Z.lxor (rotr 2 x) (rotr 13 x)) (rotr 22 x).
Definition Sigma1 (x : Z) : Z := Z.lxor (Z.lxor (rotr 6 x) (rotr 11 x)) (rotr 25 x).
Definition sigma0 (x : Z) : Z := Z.lxor (Z.lxor (rotr 7 x) (rotr 18 x)) (Z.shiftr x 3).
Definition sigma1 (x : Z) : Z := Z.lxor (Z.lxor (rotr 17 x) (rotr 19 x)) (Z.shiftr x 10).

(** The constants of FIPS 180-4 by their definition: the first 32 bits of
    the fractional parts of the cube roots (for [K]) and of the square roots
    (for [H0]) of the first primes. *)
Definition isPrime (n : Z) : bool :=
  (1 <? n)
  && forallb (fun d => negb (n mod d =? 0))
             (map Z.of_nat (seq 2 (Z.to_nat n - 2))).

Definition primes (count : nat) : list Z :=
  firstn count (filter isPrime (map Z.of_nat (seq 2 310))).

(** The largest [r + j], [j < 2 ^ bits], whose [k]-th power is at most [n]. *)
Fixpoint rootBits (k n : Z) (bits : nat) (r : Z) : Z :=
  match bits with
  | O => r
  | S b =>
      let r' := r + 2 ^ Z.of_nat b in
      rootBits k n b (if r' ^ k <=? n then r' else r)
  end.

Definition fracRoot (k p : Z) : Z :=
  rootBits k (p * 2 ^ (32 * k)) 40 0 mod 2 ^ 32.

Definition K : list Z := Eval vm_compute in map (fracRoot 3) (primes 64).

Definition H0 : list Z := Eval vm_compute in map (fracRoot 2) (primes 8).

(** The working variables a..h. *)
Record regs : Type := mkRegs
  { ra : Z; rb : Z; rc : Z; rd : Z; re : Z; rf : Z; rg : Z; rh : Z }.

Definition regs_of_list (l : list Z) : regs :=
  mkRegs (nth 0 l 0) (nth 1 l 0) (nth 2 l 0) (nth 3 l 0)
         (nth 4 l 0) (nth 5 l 0) (nth 6 l 0) (nth 7 l 0).

Definition list_of_regs (r : regs) : list Z :=
  [ ra r; rb r; rc r; rd r; re r; rf r; rg r; rh r ].

Definition round (k w : Z) (r : regs) : regs :=
  let t1 := add32 (add32 (add32 (rh r) (Sigma1 (re r)))
                         (add32 (Ch (re r) (rf r) (rg r)) k)) w in
  let t2 := add32 (Sigma0 (ra r)) (Maj (ra r) (rb r) (rc r)) in
  mkRegs (add32 t1 t2) (ra r) (rb r) (rc r) (add32 (rd r) t1) (re r) (rf r) (rg r).

(** The 64 rounds, with the message schedule kept as a window of the
    sixteen words W[t] .. W[t+15]. *)
Fixpoint rounds (ks : list Z) (win : list Z) (r : regs) : regs :=
  match ks, win with
  | k :: ks', w0 :: win' =>
      let wnew := add32 (add32 (sigma1 (nth 13 win' 0)) (nth 8 win' 0))
                        (add32 (sigma0 (nth 0 win' 0)) w0) in
      rounds ks' (win' ++ [wnew]) (round k w0 r)
  | _, _ => r
  end.

Definition compress (h : list Z) (block : list Z) : list Z :=
  map (fun p => add32 (fst p) (snd p))
      (combine h (list_of_regs (rounds K block (regs_of_list h)))).

(** Big-endian words out of bytes (bytes are numbers below 256). *)
Fixpoint words_of_bytes (bs : list Z) : list Z :=
  match bs with
  | b0 :: b1 :: b2 :: b3 :: rest =>
      (Z.shiftl b0 24 + Z.shiftl b1 16 + Z.shiftl b2 8 + b3) :: words_of_bytes rest
  | _ => []
  end.

Definition bytes_of_word (w : Z) : list Z :=
  [ Z.land (Z.shiftr w 24) 255; Z.land (Z.shiftr w 16) 255;
    Z.land (Z.shiftr w 8) 255; Z.land w 255 ].

(** Padding: a 1 bit, zeros up to 56 mod 64, the bit length on 64 bits. *)
Definition pad (msg : list Z) : list Z :=
  let len := Z.of_nat (List.length msg) in
  let zeros := Z.to_nat ((55 - len) mod 64) in
  let bits := 8 * len in
  msg ++ [128] ++ repeat 0 zeros
      ++ bytes_of_word (Z.land (Z.shiftr bits 32) mask32)
      ++ bytes_of_word (Z.land bits mask32).

(** Folding the compression function over 16-word blocks; the fuel is the
    number of words, which always covers the number of blocks. *)
Fixpoint blocks (fuel : nat) (h : list Z) (ws : list Z) : list Z :=
  match fuel, ws with
  | S fuel', _ :: _ => blocks fuel' (compress h (firstn 16 ws)) (skipn 16 ws)
  | _, _ => h
  end.

Definition digest_words (msg : list Z) : list Z :=
  let ws := words_of_bytes (pad msg) in blocks (List.length ws) H0 ws.

Definition byte_of_Z (z : Z) : byte :=
  match Byte.of_N (Z.to_N z) with Some b => b | None => x00 end.

Definition Z_of_byte (b : byte) : Z := Z.of_N (Byte.to_N b).

Definition digest (msg : list byte) : list byte :=
  map byte_of_Z (flat_map bytes_of_word (digest_words (map Z_of_byte msg))).

End Sha256.

(** Lower-case hexadecimal, two digits per byte:
    [b.toString(16).padStart(2, "0")] joined. *)
Definition hexDigit (n : Z) : ascii :=
  if n <? 10 then ascii_of_nat (Z.to_nat (48 + n))
  else ascii_of_nat (Z.to_nat (87 + n)).

Fixpoint hexOfBytes (bs : list byte) : string :=
  match bs with
  | [] => EmptyString
  | b :: rest =>
      let z := Sha256.Z_of_byte b in
      String (hexDigit (z / 16)) (String (hexDigit (z mod 16)) (hexOfBytes rest))
  end.


(** ** JavaScript strings *)

Definition LF : string := String "010"%char EmptyString.

(** A [Blob] encodes its string parts in UTF-8; strings are kept in that
    form, so the encoding is the list of their bytes. *)
Definition utf8 (s : string) : list byte := list_byte_of_string s.

Fixpoint startsWith (p s : string) : option string :=
  match p, s with
  | EmptyString, _ => Some s
  | String a p', String b s' => if (a =? b)%char then startsWith p' s' else None
  | String _ _, EmptyString => None
  end.

Fixpoint stringRev (acc s : string) : string :=
  match s with
  | EmptyString => acc
  | String c s' => stringRev (String c acc) s'
  end.

Definition bytesString (l : list Z) : string :=
  fold_right (fun n acc => String (ascii_of_nat (Z.to_nat n)) acc) EmptyString l.

(** The code points [String.prototype.trim] removes (WhiteSpace and
    LineTerminator of ECMAScript), each in UTF-8. *)
Definition whiteSpace : list string :=
  map bytesString
    [ [9]; [10]; [11]; [12]; [13]; [32]; [194; 160]; [225; 154; 128];
      [226; 128; 128]; [226; 128; 129]; [226; 128; 130]; [226; 128; 131];
      [226; 128; 132]; [226; 128; 133]; [226; 128; 134]; [226; 128; 135];
      [226; 128; 136]; [226; 128; 137]; [226; 128; 138]; [226; 128; 168];
      [226; 128; 169]; [226; 128; 175]; [226; 129; 159]; [227; 128; 128];
      [239; 187; 191] ].

Fixpoint stripOne (ws : list string) (s : string) : option string :=
  match ws with
  | [] => None
  | w :: ws' =>
      match startsWith w s with
      | Some rest => Some rest
      | None => stripOne ws' s
      end
  end.

Fixpoint trimStartFuel (ws : list string) (fuel : nat) (s : string) : string :=
  match fuel with
  | O => s
  | S fuel' =>
      match stripOne ws s with
      | Some rest => trimStartFuel ws fuel' rest
      | None => s
      end
  end.

Definition trimStart (s : string) : string :=
  trimStartFuel whiteSpace (String.length s) s.

Definition trimEnd (s : string) : string :=
  let r := stringRev EmptyString s in
  stringRev EmptyString
    (trimStartFuel (map (stringRev EmptyString) whiteSpace) (String.length r) r).

Definition trim (s : string) : string := trimEnd (trimStart s).

Definition isBlank (s : string) : bool := (trim s =? "")%string.

(** ** Data model of the client *)

(** A browser [File]: its name, MIME type and bytes ([arrayBuffer()]). *)
Record File : Type := mkFile
  { name : string; type : string; bytes : list byte }.

Definition size (f : File) : Z := Z.of_nat (List.length (bytes f)).

Record DemoFile : Type := mkDemoFile
  { file : File; fullPath : string }.

Inductive BlobPart : Type :=
| PartString (s : string)
| PartBuffer (b : list byte).

Definition partBytes (p : BlobPart) : list byte :=
  match p with
  | PartString s => utf8 s
  | PartBuffer b => b
  end.

(** [await new Blob(blobs).arrayBuffer()] *)
Definition blobArrayBuffer (blobs : list BlobPart) : list byte :=
  flat_map partBytes blobs.

(** ** [Array.prototype.sort]

    For a consistent comparator ECMAScript fixes the result: the stable
    arrangement in comparator order.  Insertion from the right, placing an
    element before the first one it does not exceed, computes it. *)
Section Sort.
Context {A : Type}.
Variable compareFn : A -> A -> Z.

Fixpoint insertSorted (x : A) (l : list A) : list A :=
  match l with
  | [] => [x]
  | y :: t => if compareFn x y <=? 0 then x :: y :: t else y :: insertSorted x t
  end.

Definition sort (l : list A) : list A := fold_right insertSorted [] l.
End Sort.

(** ** The archive digest, [web/src/App.tsx] *)

(** [sha256Hex(buf)]: one call of [crypto.subtle.digest] on the whole buffer. *)
Definition sha256Hex (buf : list byte) : string := hexOfBytes (Sha256.digest buf).

Section ArchiveDigest.
(** [String.prototype.localeCompare] in the host's default locale. *)
Variable localeCompare : string -> string -> Z.

Definition byPath (a b : DemoFile) : Z := localeCompare (fullPath a) (fullPath b).

Definition blobsOf (sorted : list DemoFile) : list BlobPart :=
  flat_map (fun item =>
              [ PartString (fullPath item); PartString LF;
                PartBuffer (bytes (file item)) ]) sorted.

(** The buffer [ab] handed to the hash: every path, a line feed and the
    file's bytes, in sorted path order. *)
Definition archiveBuffer (list : Datatypes.list DemoFile) : Datatypes.list byte :=
  blobArrayBuffer (blobsOf (sort byPath list)).

Definition hashFilesSHA256 (list : Datatypes.list DemoFile) : string :=
  sha256Hex (archiveBuffer list).
End ArchiveDigest.

(** A comparator by code units, one instance of a collation. *)
Definition codeUnitCompare (a b : string) : Z :=
  match String.compare a b with
  | Lt => -1
  | Eq => 0
  | Gt => 1
  end.

(** ** JavaScript numbers: IEEE 754 binary64, the kernel's [float] *)

(** The double nearest to the positive rational [n / d], ties to even,
    with overflow to infinity and gradual underflow. *)
Definition roundToDouble (neg : bool) (n d : Z) : float :=
  if n <=? 0 then (if neg then neg_zero else zero)
  else
    let e1 := Z.log2 n - Z.log2 d - 52 in
    let scaled (e : Z) : Z * Z :=
      if 0 <=? e then (n, d * 2 ^ e) else (n * 2 ^ (- e), d) in
    let e2 := let (a, b) := scaled e1 in if 2 ^ 52 * b <=? a then e1 else e1 - 1 in
    let e := Z.max e2 (-1074) in
    let (a, b) := scaled e in
    let q := a / b in
    let r := a mod b in
    let m := if (b <? 2 * r) || ((b =? 2 * r) && Z.odd q) then q + 1 else q in
    if m =? 0 then (if neg then neg_zero else zero)
    else if (971 <? e) || ((e =? 971) && (2 ^ 53 <=? m))
         then (if neg then neg_infinity else infinity)
         else SF2Prim (S754_finite neg (Z.to_pos m) e).

(** The double nearest to [m * 10 ^ e]. *)
Definition decimalToDouble (neg : bool) (m e : Z) : float :=
  if 0 <=? e then roundToDouble neg (m * 10 ^ e) 1
  else roundToDouble neg m (10 ^ (- e)).

Definition isDigit (c : ascii) : bool :=
  let n := Z.of_nat (nat_of_ascii c) in (48 <=? n) && (n <=? 57).

Fixpoint takeDigits (s : string) : list Z * string :=
  match s with
  | String c rest =>
      if isDigit c
      then let (ds, r) := takeDigits rest in (Z.of_nat (nat_of_ascii c) - 48 :: ds, r)
      else ([], s)
  | EmptyString => ([], s)
  end.

Definition digitsValue (ds : list Z) : Z :=
  fold_left (fun acc d => 10 * acc + d) ds 0.

Definition takeSign (s : string) : bool * string :=
  match s with
  | String "+" r => (false, r)
  | String "-" r => (true, r)
  | _ => (false, s)
  end.

(** ExponentPart: [e] or [E], an optional sign, at least one digit. *)
Definition parseExponent (s : string) : option Z :=
  match s with
  | String c rest =>
      if (c =? "e")%char || (c =? "E")%char
      then let (neg, r) := takeSign rest in
           match takeDigits r with
           | ([], _) => None
           | (ds, _) => Some (if neg then - digitsValue ds else digitsValue ds)
           end
      else None
  | EmptyString => None
  end.

(** [parseFloat]: the longest prefix of the input, leading white space
    dropped, that is a StrDecimalLiteral; [NaN] when there is none. *)
Definition parseFloat (input : string) : float :=
  let (neg, s1) := takeSign (trimStart input) in
  match startsWith "Infinity" s1 with
  | Some _ => if neg then neg_infinity else infinity
  | None =>
      let (ip, s2) := takeDigits s1 in
      let (fp, s3) := match s2 with
                      | String "." r => takeDigits r
                      | _ => ([], s2)
                      end in
      match ip ++ fp with
      | [] => nan
      | ds =>
          let e := match parseExponent s3 with Some e => e | None => 0 end in
          decimalToDouble neg (digitsValue ds) (e - Z.of_nat (List.length fp))
      end
  end.

(** [Math.round] of a number known to be finite: the integer nearest,
    halves going up. *)
Definition mathRound (x : float) : Z :=
  match Prim2SF x with
  | S754_finite s m e =>
      let v := if s then Z.neg m else Z.pos m in
      if 0 <=? e then v * 2 ^ e
      else (2 * v + 2 ^ (- e)) / (2 * 2 ^ (- e))
  | _ => 0
  end.

Definition floatOfZ (z : Z) : float := of_uint63 (Uint63Axioms.of_Z z).

(** JavaScript's [x || 0] on a number: [NaN] and both zeros are falsy. *)
Definition orZero (x : float) : float :=
  if is_nan x || is_zero x then zero else x.

(** ** The single-file hasher of the upload module *)
Module UploadModule.

(** hash-wasm's incremental hasher, by what it promises: the digest of
    everything passed to [update], in order. *)
Record Hasher : Type := mkHasher { absorbed : list byte }.

Definition createSHA256 : Hasher := mkHasher [].
Definition update (h : Hasher) (chunk : list byte) : Hasher :=
  mkHasher (absorbed h ++ chunk).
Definition digestHex (h : Hasher) : string :=
  hexOfBytes (Sha256.digest (absorbed h)).

(** [file.slice(start, end)] for [0 <= start]. *)
Definition slice (f : File) (start stop : Z) : list byte :=
  firstn (Z.to_nat (stop - start)) (skipn (Z.to_nat start) (bytes f)).

Definition chunkSize : Z := 8 * 1024 * 1024.

(** What a run of the hasher leaves: the digest, every buffer it read
    (one per slice) and the calls of [onProgress]. *)
Record HashRun : Type := mkHashRun
  { hex : string; buffers : list (list byte); progress : list (Z * Z) }.

Section Loop.
Variable cs : Z.
Variable f : File.

(** The [while (offset < total)] loop; [None] is fuel running out. *)
Fixpoint hashLoop (fuel : nat) (offset : Z) (hasher : Hasher)
         (bufs : list (list byte)) (prog : list (Z * Z)) : option HashRun :=
  let total := size f in
  if offset <? total then
    match fuel with
    | O => None
    | S fuel' =>
        let buf := slice f offset (Z.min (offset + cs) total) in
        let offset' := offset + Z.of_nat (List.length buf) in
        hashLoop fuel' offset' (update hasher buf)
                 (bufs ++ [buf]) (prog ++ [(offset', total)])
    end
  else Some (mkHashRun (digestHex hasher) bufs prog).

Definition sha256HexWith : option HashRun :=
  hashLoop (List.length (bytes f)) 0 createSHA256 [] [].
End Loop.

Definition sha256Hex (f : File) : option HashRun := sha256HexWith chunkSize f.

End UploadModule.

(** ** The upload-session route, [POST /api/upload/start] *)

Module FileReq.
Record t : Type := mk
  { relPath : string; size : Z; contentType : option string }.
End FileReq.

Module PresignItem.
Record t : Type := mk
  { relPath : string; objectKey : string; s3Uri : string;
    uploadUrl : string; contentType : string }.
End PresignItem.

Module PresignResponse.
Record t : Type := mk { sessionId : string; items : list PresignItem.t }.
End PresignResponse.

Module StartBody.
Record t : Type := mk
  { sessionId : option string; files : option (list FileReq.t) }.
End StartBody.

Record PutObjectCommand : Type := mkPutObjectCommand
  { Bucket : string; Key : string }.

Inductive ReplyBody : Type :=
| ErrorBody (error : string)
| PlanBody (plan : PresignResponse.t).

Record Reply : Type := mkReply { status : Z; body : ReplyBody }.

(** [resp.ok] *)
Definition ok (status : Z) : bool := (200 <=? status) && (status <=? 299).

Module Route.

(** [.replace(/^([./])+/, "")] *)
Fixpoint stripLeading (s : string) : string :=
  match s with
  | String c rest =>
      if (c =? ".")%char || (c =? "/")%char then stripLeading rest else s
  | EmptyString => EmptyString
  end.

(** [.replace(/\.\.\//g, "")]: one pass from the left, every match removed,
    the scan resuming after the match. *)
Fixpoint removeDotDotSlash (s : string) : string :=
  match s with
  | String "." (String "." (String "/" rest)) => removeDotDotSlash rest
  | String c rest => String c (removeDotDotSlash rest)
  | EmptyString => EmptyString
  end.

Definition safePathOf (relPath : string) : string :=
  removeDotDotSlash (stripLeading relPath).

Definition isSidChar (c : ascii) : bool :=
  let n := Z.of_nat (nat_of_ascii c) in
  ((97 <=? n) && (n <=? 122)) || ((65 <=? n) && (n <=? 90))
  || ((48 <=? n) && (n <=? 57)) || (n =? 95) || (n =? 45).

Fixpoint allChars (p : ascii -> bool) (s : string) : bool :=
  match s with
  | EmptyString => true
  | String c rest => p c && allChars p rest
  end.

(** [/^[a-zA-Z0-9_-]{6,}$/.test(sessionId)] *)
Definition validSid (s : string) : bool :=
  allChars isSidChar s && (6 <=? Z.of_nat (String.length s)).

Definition keyOf (sid safePath : string) : string :=
  ("demo/" ++ sid ++ "/" ++ safePath)%string.

(** What a request leaves: the reply and the grant requests made to the
    credential issuer, in order. *)
Record Outcome : Type := mkOutcome
  { reply : Reply; requested : list PutObjectCommand }.

Fixpoint allSome {A : Type} (l : list (option A)) : option (list A) :=
  match l with
  | [] => Some []
  | None :: _ => None
  | Some a :: t =>
      match allSome t with
      | Some r => Some (a :: r)
      | None => None
      end
  end.

Section Handler.
(** [process.env.AWS_S3_BUCKET] *)
Variable BUCKET : string.
(** The credential issuer: [getSignedUrl(s3, cmd, { expiresIn })], [None]
    when it rejects. *)
Variable getSignedUrl : PutObjectCommand -> Z -> option string.
(** The draw of [crypto.randomBytes(8).toString("hex")]. *)
Variable randomHex : string.

Definition sidOf (sessionId : option string) : string :=
  match sessionId with
  | Some s => if negb (s =? "")%string && validSid s then s else randomHex
  | None => randomHex
  end.

Definition commandOf (sid : string) (f : FileReq.t) : PutObjectCommand :=
  mkPutObjectCommand BUCKET (keyOf sid (safePathOf (FileReq.relPath f))).

(** The body of [files.map(async (f) => ...)] for one file. *)
Definition presign (sid : string) (f : FileReq.t) : option PresignItem.t :=
  let safePath := safePathOf (FileReq.relPath f) in
  let key := keyOf sid safePath in
  let contentType :=
    match FileReq.contentType f with
    | Some c => if (c =? "")%string then "application/octet-stream" else c
    | None => "application/octet-stream"
    end in
  match getSignedUrl (mkPutObjectCommand BUCKET key) 3600 with
  | Some uploadUrl =>
      Some (PresignItem.mk safePath key ("s3://" ++ BUCKET ++ "/" ++ key)%string
                           uploadUrl contentType)
  | None => None
  end.

(** Every callback of the [map] runs up to its [await], so every grant
    is requested before [Promise.all] settles. *)
Definition uploadStart (body : StartBody.t) : Outcome :=
  match StartBody.files body with
  | None | Some [] => mkOutcome (mkReply 400 (ErrorBody "no_files")) []
  | Some files =>
      let sid := sidOf (StartBody.sessionId body) in
      mkOutcome
        match allSome (map (presign sid) files) with
        | Some items => mkReply 200 (PlanBody (PresignResponse.mk sid items))
        | None => mkReply 500 (ErrorBody "presign_failed")
        end
        (map (commandOf sid) files)
  end.
End Handler.

End Route.

(** ** The build flow of the demo, [web/src/App.tsx] *)

Inductive Product : Type := Permanence | PermanencePlus | Heirloom.
Inductive EscrowYears : Type := Years3 | Years5 | Years10.
Inductive VaultVisibility : Type := PUBLIC | PRIVATE.
Inductive Mode : Type := landing | demo.

Module Step.
Inductive t : Type := selectProduct | upload | pricing | manifest | minting | vault.

(** The position of a step in
    selectProduct, upload, pricing, manifest, minting, vault. *)
Definition rank (s : t) : Z :=
  match s with
  | selectProduct => 0
  | upload => 1
  | pricing => 2
  | manifest => 3
  | minting => 4
  | vault => 5
  end.

Definition eqb (a b : t) : bool := rank a =? rank b.
End Step.

Record EndowmentLock : Type := mkLock
  { usd : float; eth : float; usdPerEth : float }.

Module TokenData.
Record t : Type := mk
  { contract : string; tokenId : string; owner : string; name : string;
    imageDataUrl : string; tokenUriJson : string }.
End TokenData.

(** What an async handler has left in flight: the rest of the handler,
    to run when what it awaits settles, with what its closure holds.
    [proceedAfterPricing] waits at [await hashFilesSHA256(files)] with the
    files it was called with, [onDrop] at [await fromDataTransfer(...)] for
    the files being collected, [startMint] at [await sleep(1200)] with the
    vault name it was called with and then at [await sleep(800)]. *)
Inductive Task : Type :=
| HashTask (fs : list DemoFile)
| CollectTask (picked : list DemoFile)
| TokenTask (vault : string)
| RevealTask.

(** The component's state: one field per [useState], then what is in
    flight: the handlers waiting at an [await], and the calls of
    [uploadToS3] that have started, each with the selection it was given and
    the number of its awaits that have settled. *)
Record State : Type := mkState
  { mode : Mode;
    started : bool;
    product : option Product;
    escrowYears : EscrowYears;
    files : list DemoFile;
    sessionId : string;
    uploading : bool;
    uploadPct : Z;
    uploadedItems : option (list PresignItem.t);
    dragActive : bool;
    vaultName : string;
    acceptedPrice : bool;
    manifest : string;
    visibility : option VaultVisibility;
    endowmentUsd : string;
    endowmentError : option string;
    demoEthPrice : float;
    lockedEndowment : option EndowmentLock;
    archiveHash : string;
    step : Step.t;
    showTokenModal : bool;
    tokenData : option TokenData.t;
    pending : list Task;
    uploads : list (list DemoFile * nat) }.

(** [setX(v)] for each piece of state. *)
Definition setMode (v : Mode) (s : State) : State :=
  mkState v (started s) (product s) (escrowYears s) (files s) (sessionId s)
          (uploading s) (uploadPct s) (uploadedItems s) (dragActive s)
          (vaultName s) (acceptedPrice s) (manifest s) (visibility s)
          (endowmentUsd s) (endowmentError s) (demoEthPrice s)
          (lockedEndowment s) (archiveHash s) (step s) (showTokenModal s)
          (tokenData s) (pending s) (uploads s).
Definition setStarted (v : bool) (s : State) : State :=
  mkState (mode s) v (product s) (escrowYears s) (files s) (sessionId s)
          (uploading s) (uploadPct s) (uploadedItems s) (dragActive s)
          (vaultName s) (acceptedPrice s) (manifest s) (visibility s)
          (endowmentUsd s) (endowmentError s) (demoEthPrice s)
          (lockedEndowment s) (archiveHash s) (step s) (showTokenModal s)
          (tokenData s) (pending s) (uploads s).
Definition setProduct (v : option Product) (s : State) : State :=
  mkState (mode s) (started s) v (escrowYears s) (files s) (sessionId s)
          (uploading s) (uploadPct s) (uploadedItems s) (dragActive s)
          (vaultName s) (acceptedPrice s) (manifest s) (visibility s)
          (endowmentUsd s) (endowmentError s) (demoEthPrice s)
          (lockedEndowment s) (archiveHash s) (step s) (showTokenModal s)
          (tokenData s) (pending s) (uploads s).
Definition setEscrowYears (v : EscrowYears) (s : State) : State :=
  mkState (mode s) (started s) (product s) v (files s) (sessionId s)
          (uploading s) (uploadPct s) (uploadedItems s) (dragActive s)
          (vaultName s) (acceptedPrice s) (manifest s) (visibility s)
          (endowmentUsd s) (endowmentError s) (demoEthPrice s)
          (lockedEndowment s) (archiveHash s) (step s) (showTokenModal s)
          (tokenData s) (pending s) (uploads s).
Definition setFiles (v : list DemoFile) (s : State) : State :=
  mkState (mode s) (started s) (product s) (escrowYears s) v (sessionId s)
          (uploading s) (uploadPct s) (uploadedItems s) (dragActive s)
          (vaultName s) (acceptedPrice s) (manifest s) (visibility s)
          (endowmentUsd s) (endowmentError s) (demoEthPrice s)
          (lockedEndowment s) (archiveHash s) (step s) (showTokenModal s)
          (tokenData s) (pending s) (uploads s).
Definition setSessionId (v : string) (s : State) : State :=
  mkState (mode s) (started s) (product s) (escrowYears s) (files s) v
          (uploading s) (uploadPct s) (uploadedItems s) (dragActive s)
          (vaultName s) (acceptedPrice s) (manifest s) (visibility s)
          (endowmentUsd s) (endowmentError s) (demoEthPrice s)
          (lockedEndowment s) (archiveHash s) (step s) (showTokenModal s)
          (tokenData s) (pending s) (uploads s).
Definition setUploading (v : bool) (s : State) : State :=
  mkState (mode s) (started s) (product s) (escrowYears s) (files s)
          (sessionId s) v (uploadPct s) (uploadedItems s) (dragActive s)
          (vaultName s) (acceptedPrice s) (manifest s) (visibility s)
          (endowmentUsd s) (endowmentError s) (demoEthPrice s)
          (lockedEndowment s) (archiveHash s) (step s) (showTokenModal s)
          (tokenData s) (pending s) (uploads s).
Definition setUploadPct (v : Z) (s : State) : State :=
  mkState (mode s) (started s) (product s) (escrowYears s) (files s)
          (sessionId s) (uploading s) v (uploadedItems s) (dragActive s)
          (vaultName s) (acceptedPrice s) (manifest s) (visibility s)
          (endowmentUsd s) (endowmentError s) (demoEthPrice s)
          (lockedEndowment s) (archiveHash s) (step s) (showTokenModal s)
          (tokenData s) (pending s) (uploads s).
Definition setUploadedItems (v : option (list PresignItem.t)) (s : State) : State :=
  mkState (mode s) (started s) (product s) (escrowYears s) (files s)
          (sessionId s) (uploading s) (uploadPct s) v (dragActive s)
          (vaultName s) (acceptedPrice s) (manifest s) (visibility s)
          (endowmentUsd s) (endowmentError s) (demoEthPrice s)
          (lockedEndowment s) (archiveHash s) (step s) (showTokenModal s)
          (tokenData s) (pending s) (uploads s).
Definition setDragActive (v : bool) (s : State) : State :=
  mkState (mode s) (started s) (product s) (escrowYears s) (files s)
          (sessionId s) (uploading s) (uploadPct s) (uploadedItems s) v
          (vaultName s) (acceptedPrice s) (manifest s) (visibility s)
          (endowmentUsd s) (endowmentError s) (demoEthPrice s)
          (lockedEndowment s) (archiveHash s) (step s) (showTokenModal s)
          (tokenData s) (pending s) (uploads s).
Definition setVaultName (v : string) (s : State) : State :=
  mkState (mode s) (started s) (product s) (escrowYears s) (files s)
          (sessionId s) (uploading s) (uploadPct s) (uploadedItems s)
          (dragActive s) v (acceptedPrice s) (manifest s) (visibility s)
          (endowmentUsd s) (endowmentError s) (demoEthPrice s)
          (lockedEndowment s) (archiveHash s) (step s) (showTokenModal s)
          (tokenData s) (pending s) (uploads s).
Definition setAcceptedPrice (v : bool) (s : State) : State :=
  mkState (mode s) (started s) (product s) (escrowYears s) (files s)
          (sessionId s) (uploading s) (uploadPct s) (uploadedItems s)
          (dragActive s) (vaultName s) v (manifest s) (visibility s)
          (endowmentUsd s) (endowmentError s) (demoEthPrice s)
          (lockedEndowment s) (archiveHash s) (step s) (showTokenModal s)
          (tokenData s) (pending s) (uploads s).
Definition setManifest (v : string) (s : State) : State :=
  mkState (mode s) (started s) (product s) (escrowYears s) (files s)
          (sessionId s) (uploading s) (uploadPct s) (uploadedItems s)
          (dragActive s) (vaultName s) (acceptedPrice s) v (visibility s)
          (endowmentUsd s) (endowmentError s) (demoEthPrice s)
          (lockedEndowment s) (archiveHash s) (step s) (showTokenModal s)
          (tokenData s) (pending s) (uploads s).
Definition setVisibility (v : option VaultVisibility) (s : State) : State :=
  mkState (mode s) (started s) (product s) (escrowYears s) (files s)
          (sessionId s) (uploading s) (uploadPct s) (uploadedItems s)
          (dragActive s) (vaultName s) (acceptedPrice s) (manifest s) v
          (endowmentUsd s) (endowmentError s) (demoEthPrice s)
          (lockedEndowment s) (archiveHash s) (step s) (showTokenModal s)
          (tokenData s) (pending s) (uploads s).
Definition setEndowmentUsd (v : string) (s : State) : State :=
  mkState (mode s) (started s) (product s) (escrowYears s) (files s)
          (sessionId s) (uploading s) (uploadPct s) (uploadedItems s)
          (dragActive s) (vaultName s) (acceptedPrice s) (manifest s)
          (visibility s) v (endowmentError s) (demoEthPrice s)
          (lockedEndowment s) (archiveHash s) (step s) (showTokenModal s)
          (tokenData s) (pending s) (uploads s).
Definition setEndowmentError (v : option string) (s : State) : State :=
  mkState (mode s) (started s) (product s) (escrowYears s) (files s)
          (sessionId s) (uploading s) (uploadPct s) (uploadedItems s)
          (dragActive s) (vaultName s) (acceptedPrice s) (manifest s)
          (visibility s) (endowmentUsd s) v (demoEthPrice s)
          (lockedEndowment s) (archiveHash s) (step s) (showTokenModal s)
          (tokenData s) (pending s) (uploads s).
Definition setDemoEthPrice (v : float) (s : State) : State :=
  mkState (mode s) (started s) (product s) (escrowYears s) (files s)
          (sessionId s) (uploading s) (uploadPct s) (uploadedItems s)
          (dragActive s) (vaultName s) (acceptedPrice s) (manifest s)
          (visibility s) (endowmentUsd s) (endowmentError s) v
          (lockedEndowment s) (archiveHash s) (step s) (showTokenModal s)
          (tokenData s) (pending s) (uploads s).
Definition setLockedEndowment (v : option EndowmentLock) (s : State) : State :=
  mkState (mode s) (started s) (product s) (escrowYears s) (files s)
          (sessionId s) (uploading s) (uploadPct s) (uploadedItems s)
          (dragActive s) (vaultName s) (acceptedPrice s) (manifest s)
          (visibility s) (endowmentUsd s) (endowmentError s) (demoEthPrice s)
          v (archiveHash s) (step s) (showTokenModal s) (tokenData s)
          (pending s) (uploads s).
Definition setArchiveHash (v : string) (s : State) : State :=
  mkState (mode s) (started s) (product s) (escrowYears s) (files s)
          (sessionId s) (uploading s) (uploadPct s) (uploadedItems s)
          (dragActive s) (vaultName s) (acceptedPrice s) (manifest s)
          (visibility s) (endowmentUsd s) (endowmentError s) (demoEthPrice s)
          (lockedEndowment s) v (step s) (showTokenModal s) (tokenData s)
          (pending s) (uploads s).
Definition setStep (v : Step.t) (s : State) : State :=
  mkState (mode s) (started s) (product s) (escrowYears s) (files s)
          (sessionId s) (uploading s) (uploadPct s) (uploadedItems s)
          (dragActive s) (vaultName s) (acceptedPrice s) (manifest s)
          (visibility s) (endowmentUsd s) (endowmentError s) (demoEthPrice s)
          (lockedEndowment s) (archiveHash s) v (showTokenModal s)
          (tokenData s) (pending s) (uploads s).
Definition setShowTokenModal (v : bool) (s : State) : State :=
  mkState (mode s) (started s) (product s) (escrowYears s) (files s)
          (sessionId s) (uploading s) (uploadPct s) (uploadedItems s)
          (dragActive s) (vaultName s) (acceptedPrice s) (manifest s)
          (visibility s) (endowmentUsd s) (endowmentError s) (demoEthPrice s)
          (lockedEndowment s) (archiveHash s) (step s) v (tokenData s)
          (pending s) (uploads s).
Definition setTokenData (v : option TokenData.t) (s : State) : State :=
  mkState (mode s) (started s) (product s) (escrowYears s) (files s)
          (sessionId s) (uploading s) (uploadPct s) (uploadedItems s)
          (dragActive s) (vaultName s) (acceptedPrice s) (manifest s)
          (visibility s) (endowmentUsd s) (endowmentError s) (demoEthPrice s)
          (lockedEndowment s) (archiveHash s) (step s) (showTokenModal s) v
          (pending s) (uploads s).
Definition setPending (v : list Task) (s : State) : State :=
  mkState (mode s) (started s) (product s) (escrowYears s) (files s)
          (sessionId s) (uploading s) (uploadPct s) (uploadedItems s)
          (dragActive s) (vaultName s) (acceptedPrice s) (manifest s)
          (visibility s) (endowmentUsd s) (endowmentError s) (demoEthPrice s)
          (lockedEndowment s) (archiveHash s) (step s) (showTokenModal s)
          (tokenData s) v (uploads s).
Definition setUploads (v : list (list DemoFile * nat)) (s : State) : State :=
  mkState (mode s) (started s) (product s) (escrowYears s) (files s)
          (sessionId s) (uploading s) (uploadPct s) (uploadedItems s)
          (dragActive s) (vaultName s) (acceptedPrice s) (manifest s)
          (visibility s) (endowmentUsd s) (endowmentError s) (demoEthPrice s)
          (lockedEndowment s) (archiveHash s) (step s) (showTokenModal s)
          (tokenData s) (pending s) v.

Definition initialState (sessionId : string) : State :=
  mkState landing false None Years3 [] sessionId false 0 None false
          "" false "" None "" None 3200%float None "" Step.selectProduct
          false None [] [].

(** [resetFlow] *)
Definition resetFlow (s : State) : State :=
  setStarted true
    (setLockedEndowment None
      (setEndowmentError None
        (setEndowmentUsd ""
          (setTokenData None
            (setShowTokenModal false
              (setEscrowYears Years3
                (setStep Step.selectProduct
                  (setVisibility None
                    (setManifest ""
                      (setAcceptedPrice false
                        (setVaultName ""
                          (setFiles []
                            (setProduct None s))))))))))))).

(** Decimal text of an integer, as a template literal prints it. *)
Definition decimal (z : Z) : string :=
  DecimalString.NilZero.string_of_int (Z.to_int z).

(** What a [fetch] of a presigned URL settles to. *)
Inductive FetchResult : Type :=
| NetworkError
| Response (status : Z) (statusText : string) (text : option string).

Inductive ConsoleEntry : Type :=
| LogPutFailed (path : string) (status : Z) (statusText : string) (body : string)
| LogUploaded (sessionId : string) (count : Z) (first : option string)
| LogUploadError (message : string).

(** What a run of the uploader leaves outside the component's state:
    the PUT requests sent, in order, the console and the alerts. *)
Record Effects : Type := mkEffects
  { puts : list (string * File);
    console : list ConsoleEntry;
    alerts : list string }.

Definition noEffects : Effects := mkEffects [] [] [].

Definition emDash : string := bytesString [226; 128; 148].

(** What happens to the component: the user's actions, one per control,
    and the settling of what a handler in flight awaits.  A handler in flight
    is named by its place in [pending], an upload by its place in
    [uploads].  [MintSlept] carries what [startMint] draws and renders for
    the token once its first sleep is over.  [Abandoned] is a handler that is
    never resumed: the digest it awaits rejects (a file that cannot be
    read), the directory reader never calls back, or [startMint] throws
    before it writes ([btoa] on a name outside Latin-1). *)
Inductive Event : Type :=
| GoHome
| BuildAVault
| StartVaultBuild
| PickProduct (p : Product)
| PickEscrowYears (y : EscrowYears)
| DragOver
| DragLeave
| Drop (picked : list DemoFile)
| FilePick (picked : list DemoFile)
| TypeVaultName (v : string)
| ContinueToPricing
| Reset
| TickAccept (checked : bool)
| TypeEndowmentUsd (v : string)
| TypeDemoEthPrice (v : string)
| ContinueToManifest
| PricingBack
| TypeManifest (v : string)
| PickVisibility (v : VaultVisibility)
| SubmitAndMint
| ManifestBack
| ViewToken
| CloseTokenModal
| HashSettled (i : nat)
| DropCollected (i : nat)
| UploadSettled (i : nat)
| MintSlept (i : nat) (contract tokenId owner imageDataUrl tokenUriJson : string)
| MintSettled (i : nat)
| Abandoned (i : nat).

(** Where a call of [uploadToS3] stands while it waits: for the plan, or
    for the answer to the PUT of [item] with the local file [m] ([rest] are
    the items after it, [done] the PUTs taken and [sent] the PUTs this call
    has sent so far); or the call is over. *)
Inductive Upload : Type :=
| AwaitingPlan
| AwaitingPut (items : list PresignItem.t) (item : PresignItem.t) (m : DemoFile)
              (rest : list PresignItem.t) (done : Z) (sent : list (string * File))
| Over.

(** A list without its [i]-th element, and with [x] in its place. *)
Definition dropNth {A : Type} (i : nat) (l : list A) : list A :=
  firstn i l ++ skipn (S i) l.

Definition setNth {A : Type} (i : nat) (x : A) (l : list A) : list A :=
  firstn i l ++ x :: skipn (S i) l.

Section Client.
(** [String.prototype.localeCompare], the API seen through [fetch]
    ([None]: the request itself fails) and the storage backend, whose answer
    to a PUT may depend on the PUTs it has already received. *)
Variable localeCompare : string -> string -> Z.
Variable api : StartBody.t -> option Reply.
Variable backend : list (string * File) -> string -> File -> FetchResult.

(** [getPresignedPlan]: the plan, or the message of the error thrown. *)
Definition getPresignedPlan (sessionId : string) (fileList : list DemoFile)
  : string + PresignResponse.t :=
  let payload :=
    StartBody.mk (Some sessionId)
      (Some (map (fun f =>
                    FileReq.mk (fullPath f) (size (file f))
                      (Some (if (type (file f) =? "")%string
                             then "application/octet-stream"
                             else type (file f))))
                 fileList)) in
  match api payload with
  | None => inl "Failed to fetch"
  | Some res =>
      if ok (status res)
      then match body res with
           | PlanBody plan => inr plan
           | ErrorBody _ => inl "plan.items is not iterable"
           end
      else inl ("presign failed: " ++ decimal (status res))%string
  end.

(** The [for (const item of plan.items)] loop of [uploadToS3]: the state
    and effects it leaves, and the message of the error it throws, if any. *)
Fixpoint uploadItems (source : list DemoFile) (total : Z)
         (items : list PresignItem.t) (done : Z) (s : State) (fx : Effects)
  : State * Effects * option string :=
  match items with
  | [] => (s, fx, None)
  | item :: rest =>
      match find (fun x => (fullPath x =? PresignItem.relPath item)%string) source with
      | None => uploadItems source total rest done s fx
      | Some m =>
          let sent := puts fx ++ [(PresignItem.uploadUrl item, file m)] in
          match backend (puts fx) (PresignItem.uploadUrl item) (file m) with
          | NetworkError =>
              (s, mkEffects sent (console fx) (alerts fx), Some "Failed to fetch")
          | Response st stText text =>
              if ok st
              then
                let done' := done + 1 in
                let pct := mathRound (mul (div (floatOfZ done') (floatOfZ total)) 100) in
                uploadItems source total rest done' (setUploadPct pct s)
                            (mkEffects sent (console fx) (alerts fx))
              else
                let shown := match text with Some t => t | None => "" end in
                (s,
                 mkEffects sent
                   (console fx ++ [LogPutFailed (PresignItem.relPath item) st stText shown])
                   (alerts fx),
                 Some ("upload failed: " ++ PresignItem.relPath item)%string)
          end
      end
  end.

(** The [catch] and [finally] blocks of [uploadToS3]. *)
Definition uploadFailed (message : string) (s : State) (fx : Effects)
  : State * Effects :=
  (setUploading false (setUploadedItems None s),
   mkEffects (puts fx) (console fx ++ [LogUploadError message])
             (alerts fx ++ ["Upload failed. Check console."])).

Definition uploadToS3 (source : list DemoFile) (s : State) : State * Effects :=
  match source with
  | [] => (s, noEffects)
  | _ :: _ =>
      let s1 := setUploadPct 0 (setUploading true s) in
      match getPresignedPlan (sessionId s) source with
      | inl message => uploadFailed message s1 noEffects
      | inr plan =>
          let items := PresignResponse.items plan in
          match uploadItems source (Z.of_nat (List.length items)) items 0 s1 noEffects with
          | (s2, fx, Some message) => uploadFailed message s2 fx
          | (s2, fx, None) =>
              (setUploading false (setUploadedItems (Some items) s2),
               mkEffects (puts fx)
                 (console fx ++
                    [LogUploaded (sessionId s) (Z.of_nat (List.length items))
                                 (option_map PresignItem.objectKey (hd_error items))])
                 (alerts fx))
          end
      end
  end.

(** [proceedAfterPricing] *)
Definition proceedAfterPricing (s : State) : State :=
  if negb (acceptedPrice s) || isBlank (vaultName s) then s
  else
    let trimmed := trim (endowmentUsd s) in
    let locked : option State :=
      if negb (trimmed =? "")%string then
        let num := parseFloat trimmed in
        if is_nan num || ltb num 0 then None
        else
          let usdPerEth := if ltb 0 (demoEthPrice s) then demoEthPrice s else 1%float in
          let usd := num in
          let eth := div usd usdPerEth in
          Some (setLockedEndowment (Some (mkLock usd eth usdPerEth)) s)
      else Some (setLockedEndowment None s) in
    match locked with
    | None =>
        setEndowmentError
          (Some "Please enter a valid non-negative USD amount for Endowment, or leave blank.")
          s
    | Some s1 =>
        let hash := match files s1 with
                    | [] => ""
                    | _ :: _ => hashFilesSHA256 localeCompare (files s1)
                    end in
        setStep Step.manifest (setArchiveHash hash (setEndowmentError None s1))
    end.

(** [proceedAfterPricing] up to [await hashFilesSHA256(files)]: the
    state it leaves and, when it stops at the await, the files whose digest
    it waits for.  With no file there is no await and the handler runs to its
    end. *)
Definition proceedStart (s : State) : State * option (list DemoFile) :=
  if negb (acceptedPrice s) || isBlank (vaultName s) then (s, None)
  else
    let trimmed := trim (endowmentUsd s) in
    let locked : option State :=
      if negb (trimmed =? "")%string then
        let num := parseFloat trimmed in
        if is_nan num || ltb num 0 then None
        else
          let usdPerEth := if ltb 0 (demoEthPrice s) then demoEthPrice s else 1%float in
          let usd := num in
          let eth := div usd usdPerEth in
          Some (setLockedEndowment (Some (mkLock usd eth usdPerEth)) s)
      else Some (setLockedEndowment None s) in
    match locked with
    | None =>
        (setEndowmentError
           (Some "Please enter a valid non-negative USD amount for Endowment, or leave blank.")
           s,
         None)
    | Some s1 =>
        let s2 := setEndowmentError None s1 in
        match files s with
        | [] => (setStep Step.manifest (setArchiveHash "" s2), None)
        | _ :: _ => (s2, Some (files s))
        end
    end.

(** The rest of [proceedAfterPricing], run when the digest of [fs] is
    there, in whatever state the component is by then. *)
Definition proceedSettle (fs : list DemoFile) (s : State) : State :=
  setStep Step.manifest (setArchiveHash (hashFilesSHA256 localeCompare fs) s).

(** [uploadToS3] up to [await getPresignedPlan(...)]. *)
Definition uploadBegin (source : list DemoFile) (s : State) : State :=
  match source with
  | [] => s
  | _ :: _ =>
      setUploads (uploads s ++ [(source, 0%nat)])
                 (setUploadPct 0 (setUploading true s))
  end.

(** The [catch] and [finally] blocks, as they write the state. *)
Definition uploadGiveUp (s : State) : State :=
  setUploading false (setUploadedItems None s).

(** The loop of [uploadToS3] from [rest] on, up to its next
    [await fetch]: where the call waits then, and what it has written on the
    way.  Items without a local file are passed over; when no item is left
    the call ends and stores the plan. *)
Fixpoint uploadNext (source : list DemoFile) (items rest : list PresignItem.t)
         (done : Z) (sent : list (string * File)) : Upload * (State -> State) :=
  match rest with
  | [] => (Over, fun s => setUploading false (setUploadedItems (Some items) s))
  | item :: rest' =>
      match find (fun x => (fullPath x =? PresignItem.relPath item)%string) source with
      | None => uploadNext source items rest' done sent
      | Some m => (AwaitingPut items item m rest' done sent, fun s => s)
      end
  end.

(** What the call awaits settles: what it writes before it waits again,
    and where it waits then.  Awaits between which the call writes nothing
    are taken as one: [fetch] and [res.json()] of the plan, [fetch] and
    [resp.text()] of a refused PUT. *)
Definition uploadResume (sid : string) (source : list DemoFile) (u : Upload)
  : Upload * (State -> State) :=
  match u with
  | AwaitingPlan =>
      match getPresignedPlan sid source with
      | inl _ => (Over, uploadGiveUp)
      | inr plan =>
          uploadNext source (PresignResponse.items plan) (PresignResponse.items plan)
                     0 []
      end
  | AwaitingPut items item m rest done sent =>
      match backend sent (PresignItem.uploadUrl item) (file m) with
      | NetworkError => (Over, uploadGiveUp)
      | Response st _ _ =>
          if ok st
          then
            let done' := done + 1 in
            let pct :=
              mathRound (mul (div (floatOfZ done')
                                  (floatOfZ (Z.of_nat (List.length items)))) 100) in
            let next :=
              uploadNext source items rest done'
                         (sent ++ [(PresignItem.uploadUrl item, file m)]) in
            (fst next, fun s => snd next (setUploadPct pct s))
          else (Over, uploadGiveUp)
      end
  | Over => (Over, fun s => s)
  end.

(** Where the call stands once [k] of its awaits have settled. *)
Definition uploadAt (sid : string) (source : list DemoFile) (k : nat) : Upload :=
  Nat.iter k (fun u => fst (uploadResume sid source u)) AwaitingPlan.

(** [n] awaits of the call settle one after the other: where the call
    stands then, and the state it has written. *)
Fixpoint uploadRun (sid : string) (source : list DemoFile) (n : nat)
         (u : Upload) (s : State) : Upload * State :=
  match n with
  | O => (u, s)
  | S n' =>
      uploadRun sid source n' (fst (uploadResume sid source u))
                (snd (uploadResume sid source u) s)
  end.

(** Panels are rendered in demo mode once the build has started. *)
Definition inStep (st : Step.t) (s : State) : bool :=
  match mode s with
  | demo => started s && Step.eqb (step s) st
  | landing => false
  end.

Definition pricingShown (s : State) : bool :=
  inStep Step.pricing s && match product s with Some _ => true | None => false end.

(** One event.  The handler of a user action runs when its control is on
    screen and enabled, and nothing happens otherwise; it runs up to its
    first [await] and leaves the rest in flight.  When what a handler in
    flight awaits settles, the rest of it runs up to its next [await], in the
    state of that moment, whatever the step then is. *)
Definition handle (ev : Event) (s : State) : State :=
  match ev with
  | GoHome => setMode landing s
  | BuildAVault => setStarted true (setMode demo s)
  | StartVaultBuild =>
      match mode s with
      | demo => if started s then s else setStarted true s
      | landing => s
      end
  | PickProduct p =>
      if inStep Step.selectProduct s
      then setStep Step.upload (setProduct (Some p) s) else s
  | PickEscrowYears y =>
      if inStep Step.selectProduct s
      then match product s with
           | Some PermanencePlus => setEscrowYears y s
           | _ => s
           end
      else s
  | DragOver => if inStep Step.upload s then setDragActive true s else s
  | DragLeave => if inStep Step.upload s then setDragActive false s else s
  | Drop picked =>
      if inStep Step.upload s
      then setPending (pending s ++ [CollectTask picked]) (setDragActive false s)
      else s
  | FilePick picked =>
      if inStep Step.upload s
      then match picked with [] => s | _ :: _ => setFiles picked s end
      else s
  | TypeVaultName v => if inStep Step.upload s then setVaultName v s else s
  | ContinueToPricing =>
      if inStep Step.upload s
         && negb (match files s with [] => true | _ :: _ => false end)
         && negb (isBlank (vaultName s))
      then setStep Step.pricing s else s
  | Reset =>
      if inStep Step.upload s || inStep Step.vault s then resetFlow s else s
  | TickAccept checked => if pricingShown s then setAcceptedPrice checked s else s
  | TypeEndowmentUsd v =>
      if pricingShown s then setEndowmentError None (setEndowmentUsd v s) else s
  | TypeDemoEthPrice v =>
      if pricingShown s then setDemoEthPrice (orZero (parseFloat v)) s else s
  | ContinueToManifest =>
      if pricingShown s && acceptedPrice s && negb (isBlank (vaultName s))
      then match proceedStart s with
           | (s1, Some fs) => setPending (pending s1 ++ [HashTask fs]) s1
           | (s1, None) => s1
           end
      else s
  | PricingBack => if pricingShown s then setStep Step.upload s else s
  | TypeManifest v => if inStep Step.manifest s then setManifest v s else s
  | PickVisibility v =>
      if inStep Step.manifest s then setVisibility (Some v) s else s
  | SubmitAndMint =>
      if inStep Step.manifest s && negb (isBlank (manifest s))
         && match visibility s with Some _ => true | None => false end
      then setPending (pending s ++ [TokenTask (vaultName s)])
                      (setStep Step.minting s)
      else s
  | ManifestBack => if inStep Step.manifest s then setStep Step.pricing s else s
  | ViewToken => if inStep Step.vault s then setShowTokenModal true s else s
  | CloseTokenModal =>
      if showTokenModal s
      then match tokenData s with
           | Some _ => setShowTokenModal false s
           | None => s
           end
      else s
  | HashSettled i =>
      match nth_error (pending s) i with
      | Some (HashTask fs) =>
          proceedSettle fs (setPending (dropNth i (pending s)) s)
      | _ => s
      end
  | DropCollected i =>
      match nth_error (pending s) i with
      | Some (CollectTask picked) =>
          let s1 := setPending (dropNth i (pending s)) s in
          match picked with
          | [] => s1
          | _ :: _ => uploadBegin picked (setFiles picked s1)
          end
      | _ => s
      end
  | UploadSettled i =>
      match nth_error (uploads s) i with
      | Some (source, k) =>
          setUploads (setNth i (source, S k) (uploads s))
            (snd (uploadResume (sessionId s) source (uploadAt (sessionId s) source k))
                 s)
      | None => s
      end
  | MintSlept i contract tokenId owner imageDataUrl tokenUriJson =>
      match nth_error (pending s) i with
      | Some (TokenTask vault) =>
          setPending (setNth i RevealTask (pending s))
            (setTokenData
               (Some (TokenData.mk contract tokenId owner
                        (vault ++ " " ++ emDash ++ " FAWV Vault")%string
                        imageDataUrl tokenUriJson))
               s)
      | _ => s
      end
  | MintSettled i =>
      match nth_error (pending s) i with
      | Some RevealTask =>
          setShowTokenModal true
            (setStep Step.vault (setPending (dropNth i (pending s)) s))
      | _ => s
      end
  | Abandoned i =>
      match nth_error (pending s) i with
      | Some RevealTask | None => s
      | Some _ => setPending (dropNth i (pending s)) s
      end
  end.

Definition run (evs : list Event) (s : State) : State :=
  fold_left (fun st ev => handle ev st) evs s.

(** The events that are actions of the user; the others are settlements. *)
Definition userAction (ev : Event) : bool :=
  match ev with
  | HashSettled _ | DropCollected _ | UploadSettled _ | MintSlept _ _ _ _ _ _
  | MintSettled _ | Abandoned _ => false
  | _ => true
  end.

(** A run in which the user acts only when no handler is in flight:
    every handler has run to its end, or was given up, before the next
    action. *)
Fixpoint patient (evs : list Event) (s : State) : bool :=
  match evs with
  | [] => true
  | ev :: rest =>
      (negb (userAction ev) || match pending s with [] => true | _ :: _ => false end)
      && patient rest (handle ev s)
  end.
End Client.

(** ** Notions the properties are stated with *)

(** What the digest reads of a file: its path and its bytes. *)
Definition entry (x : DemoFile) : string * list byte := (fullPath x, bytes (file x)).

(** The hash input for entries already in order. *)
Definition streamOf (es : list (string * list byte)) : list byte :=
  flat_map (fun e => utf8 (fst e) ++ utf8 LF ++ snd e) es.

Definition plainFile (path content : string) : DemoFile :=
  mkDemoFile (mkFile path "" (utf8 content)) path.

(** A file of [n] zero bytes. *)
Definition zeroFile (path : string) (n : Z) : DemoFile :=
  mkDemoFile (mkFile path "" (repeat x00 (Z.to_nat n))) path.

(** The segments of a slash-separated path. *)
Fixpoint segmentsFrom (cur : string) (s : string) : list string :=
  match s with
  | EmptyString => [stringRev EmptyString cur]
  | String c rest =>
      if (c =? "/")%char
      then stringRev EmptyString cur :: segmentsFrom EmptyString rest
      else segmentsFrom (String c cur) rest
  end.

Definition segments (s : string) : list string := segmentsFrom EmptyString s.

Definition hasDotDotSegment (s : string) : bool :=
  existsb (fun seg => (seg =? "..")%string) (segments s).

(** Resolution of a slash-separated name the way a file system or a URL
    resolver reads it: [.] and empty segments vanish, [..] drops the
    segment before it. *)
Fixpoint resolveSegments (stack : list string) (segs : list string) : list string :=
  match segs with
  | [] => rev stack
  | seg :: rest =>
      if (seg =? "..")%string then resolveSegments (tl stack) rest
      else if (seg =? ".")%string || (seg =? "")%string then resolveSegments stack rest
      else resolveSegments (seg :: stack) rest
  end.

Definition resolve (s : string) : list string := resolveSegments [] (segments s).

Fixpoint isPrefixOf (p l : list string) : bool :=
  match p, l with
  | [], _ => true
  | a :: p', b :: l' => (a =? b)%string && isPrefixOf p' l'
  | _ :: _, [] => false
  end.

(** A key stays in the session's namespace when it resolves to a name
    below [demo/<sid>/]. *)
Definition inSessionNamespace (sid key : string) : bool :=
  isPrefixOf ["demo"; sid] (resolve key).

(** An issuer that grants every request, and one that grants none. *)
Definition grantAll (cmd : PutObjectCommand) (expiresIn : Z) : option string :=
  Some ("https://" ++ Bucket cmd ++ ".s3.amazonaws.com/" ++ Key cmd
        ++ "?X-Amz-Expires=" ++ decimal expiresIn)%string.

Definition grantNone (cmd : PutObjectCommand) (expiresIn : Z) : option string :=
  None.

(** ** A deployment to run the client against *)

(** The route behind the API, with an issuer that grants. *)
Definition demoApi (body : StartBody.t) : option Reply :=
  Some (Route.reply (Route.uploadStart "vault-bucket" grantAll "00112233aabbccdd" body)).

(** A backend that accepts every PUT. *)
Definition acceptAll (history : list (string * File)) (url : string) (f : File)
  : FetchResult := Response 200 "OK" (Some "").

(** A backend that accepts two PUTs and denies the third. *)
Definition denyThird (history : list (string * File)) (url : string) (f : File)
  : FetchResult :=
  if (List.length history =? 2)%nat
  then Response 403 "Forbidden" (Some "<Error><Code>AccessDenied</Code></Error>")
  else Response 200 "OK" (Some "").

Definition fiveFiles : list DemoFile :=
  [ plainFile "album/1.jpg" "one"; plainFile "album/2.jpg" "two";
    plainFile "album/3.jpg" "three"; plainFile "album/4.jpg" "four";
    plainFile "album/5.jpg" "five" ].

Definition demoSession : State := initialState "0a1b2c3d4e5f6071".

(** The flow taken up to the pricing step with one file and a name. *)
Definition toPricing : list Event :=
  [ BuildAVault; PickProduct Heirloom; FilePick [plainFile "will.pdf" "last will"];
    TypeVaultName "Family archive"; ContinueToPricing ].

(** The pricing step with the terms accepted, 100.00 USD entered and the
    demo rate set to 2500. *)
Definition toAcceptance : list Event :=
  toPricing ++ [ TickAccept true; TypeEndowmentUsd "100.00"; TypeDemoEthPrice "2500.00" ].

Definition atAcceptance : State :=
  run codeUnitCompare demoApi acceptAll toAcceptance demoSession.

(** The same with an amount no double can hold. *)
Definition atHugeAmount : State :=
  run codeUnitCompare demoApi acceptAll
      (toPricing ++ [ TickAccept true; TypeEndowmentUsd "1e999" ]) demoSession.

(** Two local files whose paths the route maps to one: a dot file and
    its namesake without the dot. *)
Definition dotAndPlain : list DemoFile :=
  [ plainFile ".env" "SECRET=1"; plainFile "env" "public" ].

(** A folder whose notes carry a leading [./]. *)
Definition dottedNotes : list DemoFile :=
  [ plainFile "./notes.txt" "notes"; plainFile "a.txt" "a" ].

(** [a] comes no later than [b] for a comparator. *)
Definition noLater {A : Type} (cmp : A -> A -> Z) (a b : A) : Prop := cmp a b <= 0.

(** A buffer of at most [cs] bytes. *)
Definition within (cs : Z) (b : list byte) : Prop := Z.of_nat (List.length b) <= cs.

(** Two states that agree on what the build has fixed; the uploader only
    writes [uploading], [uploadPct] and [uploadedItems]. *)
Definition sameBuild (s s' : State) : Prop :=
  step s' = step s /\ lockedEndowment s' = lockedEndowment s
  /\ demoEthPrice s' = demoEthPrice s /\ files s' = files s.

(** ** The file collector, [web/src/App.tsx] *)

(** A [FileSystemEntry]: a file, a directory with the batches its reader
    hands out, or something that is neither. *)
#[warnings="-register-all"]
Inductive Entry : Type :=
| FileEntry (f : File)
| DirectoryEntry (dirName : string) (batches : list (list Entry))
| OtherEntry.

(** [traverseEntry]: [readBatch] reads until a batch comes back empty and
    the files of the entries are gathered in the order they were read. *)
Fixpoint traverseEntry (entry : Entry) (pathPrefix : string) : list DemoFile :=
  match entry with
  | FileEntry f => [mkDemoFile f (pathPrefix ++ name f)%string]
  | DirectoryEntry dirName batches =>
      let below := (pathPrefix ++ dirName ++ "/")%string in
      (fix readBatch (bs : list (list Entry)) : list DemoFile :=
         match bs with
         | [] => []
         | [] :: _ => []
         | (e :: es) :: rest =>
             (fix each (l : list Entry) : list DemoFile :=
                match l with
                | [] => []
                | x :: t => traverseEntry x below ++ each t
                end) (e :: es)
             ++ readBatch rest
         end) batches
  | OtherEntry => []
  end.

(** A [DataTransferItem]: what [webkitGetAsEntry] and [getAsFile] return. *)
Record DataTransferItem : Type := mkItem
  { webkitGetAsEntry : option Entry; getAsFile : option File }.

(** The [for] loop of [fromDataTransfer], with its two arrays. *)
Fixpoint collectItems (items : list DataTransferItem)
         (results : list DemoFile) (tasks : list (list DemoFile))
  : list DemoFile * list (list DemoFile) :=
  match items with
  | [] => (results, tasks)
  | it :: rest =>
      match webkitGetAsEntry it with
      | Some entry => collectItems rest results (tasks ++ [traverseEntry entry ""])
      | None =>
          match getAsFile it with
          | Some f => collectItems rest (results ++ [mkDemoFile f (name f)]) tasks
          | None => collectItems rest results tasks
          end
      end
  end.

Definition fromDataTransfer (items : list DataTransferItem) : list DemoFile :=
  let (results, nested) := collectItems items [] [] in
  results ++ List.concat nested.

(** A file of an [<input>], with its vendor property. *)
Record InputFile : Type := mkInputFile
  { inputFile : File; webkitRelativePath : string }.

Definition fromInputFileList (files : list InputFile) : list DemoFile :=
  map (fun f =>
         mkDemoFile (inputFile f)
           (if (webkitRelativePath f =? "")%string
            then name (inputFile f) else webkitRelativePath f))
      files.

(** The same file under a longer path. *)
Definition under (p : string) (x : DemoFile) : DemoFile :=
  mkDemoFile (file x) (p ++ fullPath x)%string.

(** A small tree: [trip/] holding a file and [trip/day1/] holding two,
    the second read in a later batch. *)
Definition tripFolder : Entry :=
  DirectoryEntry "trip"
    [ [ FileEntry (mkFile "plan.txt" "text/plain" (utf8 "plan"));
        DirectoryEntry "day1"
          [ [ FileEntry (mkFile "a.jpg" "image/jpeg" (utf8 "aa")) ];
            [ FileEntry (mkFile "b.jpg" "image/jpeg" (utf8 "bb")) ] ] ] ].

(** The entries a directory reader hands out before its first empty
    batch. *)
Fixpoint readUntilEmpty (bs : list (list Entry)) : list Entry :=
  match bs with
  | [] => []
  | [] :: _ => []
  | (e :: es) :: rest => (e :: es) ++ readUntilEmpty rest
  end.

(** A drop of the folder and of a loose file. *)
Definition tripDrop : list DataTransferItem :=
  [ mkItem (Some tripFolder) None;
    mkItem None (Some (mkFile "cover.png" "image/png" (utf8 "png"))) ].

(** The backend takes a PUT, given the PUTs it has received: it answers
    with a 2xx status. *)
Definition accepts (backend : list (string * File) -> string -> File -> FetchResult)
           (history : list (string * File)) (p : string * File) : bool :=
  match backend history (fst p) (snd p) with
  | Response st _ _ => ok st
  | NetworkError => false
  end.

(** Every PUT of [new], sent one after the other after [history], is
    taken. *)
Fixpoint acceptedRun (backend : list (string * File) -> string -> File -> FetchResult)
         (history new : list (string * File)) : bool :=
  match new with
  | [] => true
  | p :: rest => accepts backend history p && acceptedRun backend (history ++ [p]) rest
  end.

(** The API when the route above serves it. *)
Definition routeApi (BUCKET : string)
           (getSignedUrl : PutObjectCommand -> Z -> option string)
           (randomHex : string) (body : StartBody.t) : option Reply :=
  Some (Route.reply (Route.uploadStart BUCKET getSignedUrl randomHex body)).

(** The URL the issuer grants for a local file in a session. *)
Definition grantedUrl (BUCKET : string)
           (getSignedUrl : PutObjectCommand -> Z -> option string)
           (sid : string) (x : DemoFile) : string :=
  match getSignedUrl
          (mkPutObjectCommand BUCKET (Route.keyOf sid (Route.safePathOf (fullPath x))))
          3600 with
  | Some url => url
  | None => ""
  end.

(** An issuer that grants every key but one. *)
Definition grantExcept (refused : string) (cmd : PutObjectCommand) (expiresIn : Z)
  : option string :=
  if (Key cmd =? refused)%string then None else grantAll cmd expiresIn.

(** The descriptor [getPresignedPlan] sends for a local file. *)
Definition fileReqOf (f : DemoFile) : FileReq.t :=
  FileReq.mk (fullPath f) (size (file f))
    (Some (if (type (file f) =? "")%string
           then "application/octet-stream" else type (file f))).

(** The plan item of a local file whose path the route leaves as it is. *)
Definition itemOf (BUCKET : string)
           (getSignedUrl : PutObjectCommand -> Z -> option string)
           (sid : string) (x : DemoFile) : PresignItem.t :=
  PresignItem.mk (fullPath x) (Route.keyOf sid (fullPath x))
    ("s3://" ++ BUCKET ++ "/" ++ Route.keyOf sid (fullPath x))%string
    (grantedUrl BUCKET getSignedUrl sid x)
    (if (type (file x) =? "")%string then "application/octet-stream" else type (file x)).

(** A lock as the pricing step stores it: an amount that is a number and
    not negative, a positive rate, and their quotient. *)
Definition lockWellFormed (l : EndowmentLock) : Prop :=
  is_nan (usd l) = false /\ ltb (usd l) 0 = false
  /\ ltb 0 (usdPerEth l) = true /\ eth l = div (usd l) (usdPerEth l).

(** The lock the pricing step stores for an amount as typed and a rate,
    once the amount has passed the check. *)
Definition lockOf (usdText : string) (rate : float) : option EndowmentLock :=
  if (trim usdText =? "")%string then None
  else
    let usdPerEth := if ltb 0 rate then rate else 1%float in
    Some (mkLock (parseFloat (trim usdText))
                 (div (parseFloat (trim usdText)) usdPerEth) usdPerEth).

(** What holds of the component's state at each stage of the flow. *)
Definition stagesHold (localeCompare : string -> string -> Z) (s : State) : Prop :=
  (forall l, lockedEndowment s = Some l -> lockWellFormed l)
  /\ (1 <= Step.rank (step s) -> product s <> None)
  /\ (2 <= Step.rank (step s) -> files s <> [] /\ isBlank (vaultName s) = false)
  /\ (3 <= Step.rank (step s) ->
      acceptedPrice s = true /\ endowmentError s = None
      /\ archiveHash s = hashFilesSHA256 localeCompare (files s)
      /\ lockedEndowment s = lockOf (endowmentUsd s) (demoEthPrice s))
  /\ (4 <= Step.rank (step s) ->
      visibility s <> None /\ isBlank (manifest s) = false)
  /\ (Step.rank (step s) = 5 ->
      exists t, tokenData s = Some t
                /\ TokenData.name t = (vaultName s ++ " " ++ emDash ++ " FAWV Vault")%string).

(** A handler in flight that was started in the state as it still is:
    the step is the one of its control and what its closure holds is what
    the state holds. *)
Definition taskFits (s : State) (t : Task) : Prop :=
  match t with
  | HashTask fs =>
      step s = Step.pricing /\ fs = files s /\ acceptedPrice s = true
      /\ endowmentError s = None
      /\ lockedEndowment s = lockOf (endowmentUsd s) (demoEthPrice s)
  | CollectTask _ => step s = Step.upload
  | TokenTask vault => step s = Step.minting /\ vault = vaultName s
  | RevealTask =>
      step s = Step.minting
      /\ exists t, tokenData s = Some t
                   /\ TokenData.name t
                      = (vaultName s ++ " " ++ emDash ++ " FAWV Vault")%string
  end.

(** What holds of the state along a run in which the user waits for
    each handler: the stages hold, and at most one handler is in flight, in
    the state it was started in. *)
Definition flowInvariant (localeCompare : string -> string -> Z) (s : State) : Prop :=
  stagesHold localeCompare s
  /\ (pending s = [] \/ exists t, pending s = [t] /\ taskFits s t).

(** The flow taken to the vault: acceptance with 100.00 USD at 2500, a
    manifest, a visibility, the mint. *)
Definition toVault : list Event :=
  toAcceptance
    ++ [ ContinueToManifest; HashSettled 0;
         TypeManifest "Family papers, 1950-2020"; PickVisibility PRIVATE;
         SubmitAndMint;
         MintSlept 0 "0xc0ffee" "0x01" "0xbeef" "data:image/svg+xml;base64," "{}";
         MintSettled 0 ].

(** The pricing step with a negative amount entered. *)
Definition atNegativeAmount : State :=
  run codeUnitCompare demoApi acceptAll
      (toPricing ++ [ TickAccept true; TypeEndowmentUsd " -5 " ]) demoSession.

(** A path that starts with a dot or a slash, and a path that holds
    [../] somewhere. *)
Definition startsDotOrSlash (s : string) : bool :=
  match s with
  | String c _ => (c =? ".")%char || (c =? "/")%char
  | EmptyString => false
  end.

Fixpoint hasDotDotSlash (s : string) : bool :=
  match startsWith "../" s with
  | Some _ => true
  | None =>
      match s with
      | String _ rest => hasDotDotSlash rest
      | EmptyString => false
      end
  end.

(** A state with the three pieces the uploader writes put back to their
    initial values. *)
Definition withoutUpload (s : State) : State :=
  setUploading false (setUploadPct 0 (setUploadedItems None s)).

(** * Properties *)

(** ** The primitives *)

(** Known answers of SHA-256 (FIPS 180-4, the one-block message and the
    empty message). *)
Example sha256_abc :
  sha256Hex (utf8 "abc")
  = "ba7816bf8f01cfea414140de5dae2223b00361a396177a9cb410ff61f20015ad".
Proof. vm_compute. reflexivity. Qed.

Example sha256_empty :
  sha256Hex []
  = "e3b0c44298fc1c149afbf4c8996fb92427ae41e4649b934ca495991b7852b855".
Proof. vm_compute. reflexivity. Qed.

(** Known answers of [parseFloat] and [Math.round]. *)
Example parseFloat_known :
  parseFloat "100.00" = 100%float
  /\ parseFloat " 0.1" = 0.1%float
  /\ parseFloat "-7.25E-2x" = (-0.0725)%float
  /\ parseFloat "12abc" = 12%float
  /\ parseFloat "9007199254740993" = 9007199254740992%float
  /\ parseFloat "1.7976931348623159e308" = infinity
  /\ parseFloat "Infinity" = infinity
  /\ is_nan (parseFloat "abc") = true
  /\ is_nan (parseFloat ".") = true.
Proof. vm_compute. repeat split. Qed.

Example mathRound_known :
  mathRound 12.5 = 13 /\ mathRound (-2.5) = -2
  /\ mathRound (mul (div 29 200) 100) = 14
  /\ mathRound (mul (div 2 5) 100) = 40.
Proof. vm_compute. repeat split. Qed.

(** The fuel of [Sha256.blocks] is never what stops it: from the number
    of words on, more fuel changes nothing. *)
Lemma blocks_fuel (fuel : nat) :
  forall (h ws : list Z),
    (List.length ws <= fuel)%nat ->
    Sha256.blocks (S fuel) h ws = Sha256.blocks fuel h ws.
Proof.
  induction fuel as [|fuel IH]; intros h ws Hlen.
  - destruct ws; [reflexivity|simpl in Hlen; lia].
  - destruct ws as [|w ws']; [reflexivity|].
    change (Sha256.blocks (S (S fuel)) h (w :: ws'))
      with (Sha256.blocks (S fuel) (Sha256.compress h (firstn 16 (w :: ws')))
                          (skipn 16 (w :: ws'))).
    change (Sha256.blocks (S fuel) h (w :: ws'))
      with (Sha256.blocks fuel (Sha256.compress h (firstn 16 (w :: ws')))
                          (skipn 16 (w :: ws'))).
    apply IH. rewrite length_skipn. simpl in *. lia.
Qed.

Lemma startsWith_length (p : string) :
  forall s rest,
    startsWith p s = Some rest ->
    String.length s = (String.length p + String.length rest)%nat.
Proof.
  induction p as [|a p IH]; intros s rest H; simpl in *.
  - now inversion H.
  - destruct s as [|b s]; [discriminate|].
    destruct (a =? b)%char; [|discriminate].
    simpl. now rewrite (IH _ _ H).
Qed.

Lemma stripOne_shorter (ws : list string) (s rest : string) :
  Forall (fun w => w <> "") ws ->
  stripOne ws s = Some rest ->
  (String.length rest < String.length s)%nat.
Proof.
  induction 1 as [|w ws Hw Hws IH]; simpl; [discriminate|].
  destruct (startsWith w s) as [r|] eqn:E; [|exact IH].
  intros H. inversion H; subst.
  apply startsWith_length in E. destruct w; [congruence|simpl in E; lia].
Qed.

(** The fuel of the trimming loop suffices: nothing is left to strip. *)
Lemma trimStartFuel_done (ws : list string) :
  Forall (fun w => w <> "") ws ->
  forall (fuel : nat) (s : string),
    (String.length s <= fuel)%nat ->
    stripOne ws (trimStartFuel ws fuel s) = None.
Proof.
  intros Hws. induction fuel as [|fuel IH]; intros s Hlen; simpl.
  - destruct s; [|simpl in Hlen; lia].
    clear - Hws. induction Hws as [|w ws Hw _ IH]; [reflexivity|].
    simpl. destruct w; [congruence|exact IH].
  - destruct (stripOne ws s) as [rest|] eqn:E; [|exact E].
    apply IH. apply (stripOne_shorter ws s rest Hws) in E. lia.
Qed.

Lemma trimStart_done (s : string) : stripOne whiteSpace (trimStart s) = None.
Proof.
  apply trimStartFuel_done; [|apply Nat.le_refl].
  unfold whiteSpace. simpl. repeat constructor; discriminate.
Qed.

(** ** Sorting *)

Section SortFacts.
Context {A : Type}.
Variable cmp : A -> A -> Z.

Lemma insertSorted_perm (x : A) (l : list A) :
  Permutation (insertSorted cmp x l) (x :: l).
Proof.
  induction l as [|y t IH]; simpl.
  - apply Permutation_refl.
  - destruct (cmp x y <=? 0).
    + apply Permutation_refl.
    + apply perm_trans with (y :: x :: t).
      * now apply perm_skip.
      * apply perm_swap.
Qed.

Lemma sort_perm (l : list A) : Permutation (sort cmp l) l.
Proof.
  induction l as [|x t IH]; simpl.
  - apply perm_nil.
  - eapply perm_trans; [apply insertSorted_perm|now apply perm_skip].
Qed.

(** A consistent comparator, as ECMAScript asks of [compareFn]. *)
Hypothesis cmp_sym : forall a b, Z.sgn (cmp b a) = - Z.sgn (cmp a b).
Hypothesis cmp_trans : forall a b c, cmp a b <= 0 -> cmp b c <= 0 -> cmp a c <= 0.

Lemma cmp_total (a b : A) : cmp a b <= 0 \/ cmp b a <= 0.
Proof. specialize (cmp_sym a b). lia. Qed.

Lemma cmp_tie (a b : A) : cmp a b <= 0 -> cmp b a <= 0 -> cmp a b = 0.
Proof. specialize (cmp_sym a b). lia. Qed.

Lemma insertSorted_sorted (x : A) (l : list A) :
  StronglySorted (noLater cmp) l -> StronglySorted (noLater cmp) (insertSorted cmp x l).
Proof.
  induction 1 as [|y t Ht IH Hy]; simpl.
  - repeat constructor.
  - destruct (Z.leb_spec (cmp x y) 0) as [Hxy|Hxy].
    + constructor; [now constructor|].
      constructor; [exact Hxy|].
      eapply Forall_impl; [|exact Hy].
      intros z Hz. unfold noLater in *. now apply cmp_trans with y.
    + constructor; [exact IH|].
      apply (Permutation_Forall (Permutation_sym (insertSorted_perm x t))).
      constructor; [|exact Hy].
      unfold noLater. destruct (cmp_total y x); lia.
Qed.

Lemma sort_sorted (l : list A) : StronglySorted (noLater cmp) (sort cmp l).
Proof.
  induction l as [|x t IH]; simpl.
  - constructor.
  - now apply insertSorted_sorted.
Qed.

(** Two sorted arrangements of the same elements coincide as soon as
    elements that tie are equal. *)
Lemma sorted_perm_unique (l1 : list A) :
  forall l2,
    StronglySorted (noLater cmp) l1 -> StronglySorted (noLater cmp) l2 -> Permutation l1 l2 ->
    (forall x y, In x l1 -> In y l1 -> cmp x y = 0 -> x = y) ->
    l1 = l2.
Proof.
  induction l1 as [|a t1 IH]; intros l2 S1 S2 P Htie.
  - now apply Permutation_nil in P.
  - destruct l2 as [|b t2].
    + apply Permutation_sym, Permutation_nil in P. discriminate.
    + inversion S1 as [|? ? St1 Fa]; subst.
      inversion S2 as [|? ? St2 Fb]; subst.
      assert (Hab : a = b).
      { assert (Hb : In b (a :: t1))
          by (apply (Permutation_in _ (Permutation_sym P)); now left).
        assert (Ha : In a (b :: t2))
          by (apply (Permutation_in _ P); now left).
        destruct Hb as [Hb|Hb]; [exact Hb|].
        destruct Ha as [Ha|Ha]; [now symmetry|].
        rewrite Forall_forall in Fa, Fb.
        apply Htie; [now left|now right|].
        apply cmp_tie; [now apply Fa|now apply Fb]. }
      subst b. f_equal.
      apply IH; auto.
      * now apply Permutation_cons_inv in P.
      * intros x y Hx Hy. apply Htie; now right.
Qed.

Lemma sort_unique (l l' : list A) :
  Permutation l l' ->
  (forall x y, In x l -> In y l -> cmp x y = 0 -> x = y) ->
  sort cmp l = sort cmp l'.
Proof.
  intros P Htie.
  apply sorted_perm_unique; try apply sort_sorted.
  - eapply perm_trans; [apply sort_perm|].
    eapply perm_trans; [exact P|apply Permutation_sym, sort_perm].
  - intros x y Hx Hy. apply Htie; eapply Permutation_in; eauto using sort_perm.
Qed.
End SortFacts.

Lemma map_insertSorted {A B : Type} (f : A -> B) (c : B -> B -> Z) (x : A) (l : list A) :
  map f (insertSorted (fun a b => c (f a) (f b)) x l)
  = insertSorted c (f x) (map f l).
Proof.
  induction l as [|y t IH]; simpl; [reflexivity|].
  destruct (c (f x) (f y) <=? 0); simpl; [reflexivity|now rewrite IH].
Qed.

Lemma map_sort {A B : Type} (f : A -> B) (c : B -> B -> Z) (l : list A) :
  map f (sort (fun a b => c (f a) (f b)) l) = sort c (map f l).
Proof.
  induction l as [|x t IH]; simpl; [reflexivity|].
  now rewrite map_insertSorted, IH.
Qed.

(** ** The archive digest *)

Lemma archiveBuffer_stream (cmp : string -> string -> Z) (l : list DemoFile) :
  archiveBuffer cmp l
  = streamOf (sort (fun a b => cmp (fst a) (fst b)) (map entry l)).
Proof.
  unfold archiveBuffer.
  rewrite <- (map_sort entry (fun a b => cmp (fst a) (fst b))).
  change (fun a b : DemoFile => cmp (fst (entry a)) (fst (entry b))) with (byPath cmp).
  induction (sort (byPath cmp) l) as [|x t IH]; [reflexivity|].
  unfold blobArrayBuffer, streamOf in *. simpl.
  rewrite IH. now rewrite <- !app_assoc.
Qed.

Lemma codeUnitCompare_sym (a b : string) :
  Z.sgn (codeUnitCompare b a) = - Z.sgn (codeUnitCompare a b).
Proof.
  unfold codeUnitCompare. rewrite (String.compare_antisym b a).
  now destruct (String.compare a b).
Qed.

Lemma ascii_compare_refl (a : ascii) : Ascii.compare a a = Eq.
Proof. unfold Ascii.compare. apply N.compare_refl. Qed.

Lemma string_compare_trans (a : string) :
  forall b c, String.compare a b <> Gt -> String.compare b c <> Gt ->
              String.compare a c <> Gt.
Proof.
  induction a as [|x a IH]; intros [|y b] [|z c]; simpl; try congruence.
  destruct (Ascii.compare x y) eqn:Exy; try congruence;
    destruct (Ascii.compare y z) eqn:Eyz; try congruence; intros H1 H2.
  - apply Ascii.compare_eq_iff in Exy, Eyz. subst.
    rewrite ascii_compare_refl. now apply IH with b.
  - apply Ascii.compare_eq_iff in Exy. subst. now rewrite Eyz.
  - apply Ascii.compare_eq_iff in Eyz. subst. now rewrite Exy.
  - assert (H : Ascii.compare x z = Lt).
    { unfold Ascii.compare in *. rewrite N.compare_lt_iff in *. lia. }
    now rewrite H.
Qed.

Lemma codeUnitCompare_trans (a b c : string) :
  codeUnitCompare a b <= 0 -> codeUnitCompare b c <= 0 -> codeUnitCompare a c <= 0.
Proof.
  unfold codeUnitCompare. intros H1 H2.
  assert (H : String.compare a c <> Gt).
  { apply string_compare_trans with b.
    - destruct (String.compare a b); [congruence|congruence|lia].
    - destruct (String.compare b c); [congruence|congruence|lia]. }
  destruct (String.compare a c); [lia|lia|congruence].
Qed.

Section DigestOrder.
Variable localeCompare : string -> string -> Z.
Hypothesis localeCompare_sym :
  forall a b, Z.sgn (localeCompare b a) = - Z.sgn (localeCompare a b).
Hypothesis localeCompare_trans :
  forall a b c, localeCompare a b <= 0 -> localeCompare b c <= 0 ->
                localeCompare a c <= 0.

(** C1, as amended.  With a consistent collation, the archive digest of
    a list of files is the same for every permutation of the list, provided
    any two files of the list whose paths tie in the collation have the same
    path and the same bytes. *)
Theorem hashFilesSHA256_permutation (l l' : list DemoFile) :
  Permutation l l' ->
  (forall x y, In x l -> In y l ->
               localeCompare (fullPath x) (fullPath y) = 0 ->
               fullPath x = fullPath y /\ bytes (file x) = bytes (file y)) ->
  hashFilesSHA256 localeCompare l = hashFilesSHA256 localeCompare l'.
Proof.
  intros P Htie. unfold hashFilesSHA256.
  rewrite !archiveBuffer_stream. do 2 f_equal.
  apply sort_unique.
  - intros a b. apply localeCompare_sym.
  - intros a b c. apply localeCompare_trans.
  - now apply Permutation_map.
  - intros x y Hx Hy Hxy.
    apply in_map_iff in Hx, Hy.
    destruct Hx as [x0 [<- Hx]], Hy as [y0 [<- Hy]].
    destruct (Htie x0 y0 Hx Hy Hxy) as [Hp Hb].
    unfold entry. now rewrite Hp, Hb.
Qed.
End DigestOrder.

(** The amended C1 at three files given in two orders, under the
    code-unit collation. *)
Lemma hashFilesSHA256_permutation_witness :
  hashFilesSHA256 codeUnitCompare
    [plainFile "b/2.txt" "two"; plainFile "a/1.txt" "one"; plainFile "c.txt" "one"]
  = hashFilesSHA256 codeUnitCompare
    [plainFile "c.txt" "one"; plainFile "b/2.txt" "two"; plainFile "a/1.txt" "one"].
Proof.
  apply (hashFilesSHA256_permutation codeUnitCompare
           codeUnitCompare_sym codeUnitCompare_trans).
  - apply Permutation_sym.
    apply (Permutation_cons_app [_; _] []). apply Permutation_refl.
  - intros x y Hx Hy.
    simpl in Hx, Hy.
    destruct Hx as [<-|[<-|[<-|[]]]]; destruct Hy as [<-|[<-|[<-|[]]]];
      vm_compute; intros H; first [discriminate H | split; reflexivity].
Defined.

(** Against C1 as the specification words it: two files that share a path and
    differ in their bytes are hashed in the order they are given, whatever the
    collation, so the two orders of the list have different digests. *)
Lemma hashFilesSHA256_order_with_shared_path :
  exists l l' : list DemoFile,
    Permutation l l' /\
    forall localeCompare : string -> string -> Z,
      hashFilesSHA256 localeCompare l <> hashFilesSHA256 localeCompare l'.
Proof.
  exists [plainFile "a" "1"; plainFile "a" "2"],
         [plainFile "a" "2"; plainFile "a" "1"].
  split; [apply perm_swap|].
  intros cmp. unfold hashFilesSHA256, archiveBuffer, sort, fold_right, insertSorted, byPath.
  cbn [fullPath plainFile].
  destruct (cmp "a" "a" <=? 0); vm_compute; discriminate.
Qed.

(** C2, the code at the failing input.  In a collation that puts [a]
    before [x], a vault whose file [a] is empty and whose file [x] holds
    [x], line feed, has the digest of the vault whose file [a] holds those
    bytes and whose file [x] is empty: the same contents under the same two
    paths, assigned the other way round. *)
Theorem hashFilesSHA256_path_assignment_collision
        (localeCompare : string -> string -> Z) :
  localeCompare "a" "x" < 0 ->
  let F1 := [plainFile "a" ""; plainFile "x" ("x" ++ LF)%string] in
  let F2 := [plainFile "a" ("x" ++ LF)%string; plainFile "x" ""] in
  Permutation (map (fun f => bytes (file f)) F1) (map (fun f => bytes (file f)) F2)
  /\ map fullPath F1 = map fullPath F2
  /\ ~ Permutation (map entry F1) (map entry F2)
  /\ archiveBuffer localeCompare F1 = archiveBuffer localeCompare F2
  /\ hashFilesSHA256 localeCompare F1 = hashFilesSHA256 localeCompare F2.
Proof.
  intros Hlt F1 F2.
  assert (Hbuf : archiveBuffer localeCompare F1 = archiveBuffer localeCompare F2).
  { unfold archiveBuffer, sort, fold_right, insertSorted, byPath, F1, F2.
    cbn [fullPath plainFile].
    destruct (Z.leb_spec (localeCompare "a" "x") 0); [reflexivity|lia]. }
  repeat split.
  - apply perm_swap.
  - intros P.
    assert (H : In (entry (plainFile "a" "")) (map entry F2))
      by (apply (Permutation_in _ P); now left).
    simpl in H. destruct H as [H|[H|[]]]; discriminate H.
  - exact Hbuf.
  - unfold hashFilesSHA256. now rewrite Hbuf.
Qed.

Lemma hashFilesSHA256_path_assignment_collision_witness :
  hashFilesSHA256 codeUnitCompare
    [plainFile "a" ""; plainFile "x" ("x" ++ LF)%string]
  = hashFilesSHA256 codeUnitCompare
    [plainFile "a" ("x" ++ LF)%string; plainFile "x" ""].
Proof.
  apply (hashFilesSHA256_path_assignment_collision codeUnitCompare).
  reflexivity.
Defined.

(** ** The upload-session route *)

Lemma stripLeading_head (s : string) :
  match Route.stripLeading s with
  | String c _ => (c =? ".")%char || (c =? "/")%char = false
  | EmptyString => True
  end.
Proof.
  induction s as [|c s IH]; simpl; [exact I|].
  destruct ((c =? ".")%char || (c =? "/")%char) eqn:E; [exact IH|].
  simpl. exact E.
Qed.

(** The sanitised path never starts with a separator or a dot: the first
    replacement leaves a first character that is neither, and the second
    only removes text that starts with a dot. *)
Lemma safePathOf_head (relPath : string) :
  match Route.safePathOf relPath with
  | String c _ => (c =? ".")%char || (c =? "/")%char = false
  | EmptyString => True
  end.
Proof.
  unfold Route.safePathOf.
  pose proof (stripLeading_head relPath) as H.
  destruct (Route.stripLeading relPath) as [|c rest]; [exact I|].
  assert (Hc : (c =? ".")%char = false)
    by (destruct (c =? ".")%char; [discriminate H|reflexivity]).
  assert (Hstep : Route.removeDotDotSlash (String c rest)
                  = String c (Route.removeDotDotSlash rest)).
  { simpl. destruct c as [[] [] [] [] [] [] [] []]; try reflexivity.
    discriminate Hc. }
  rewrite Hstep. exact H.
Qed.

(** The path the specification names is made harmless. *)
Lemma safePathOf_spec_example :
  Route.safePathOf "../../etc/passwd" = "etc/passwd".
Proof. reflexivity. Qed.

(** C3, the code at a failing input.  For the relative path
    [x/....//....//etc/passwd] the single pass that removes [../] leaves
    [x/../../etc/passwd]: the route requests a grant for the key
    [demo/<sid>/x/../../etc/passwd], which has [..] segments and resolves to
    [demo/etc/passwd], outside the session's namespace. *)
Theorem uploadStart_key_keeps_traversal
        (BUCKET : string) (getSignedUrl : PutObjectCommand -> Z -> option string)
        (randomHex : string) :
  let body := StartBody.mk (Some "session01")
                (Some [FileReq.mk "x/....//....//etc/passwd" 4 None]) in
  let key := "demo/session01/x/../../etc/passwd" in
  Route.safePathOf "x/....//....//etc/passwd" = "x/../../etc/passwd"
  /\ Route.requested (Route.uploadStart BUCKET getSignedUrl randomHex body)
     = [mkPutObjectCommand BUCKET key]
  /\ hasDotDotSegment (Route.safePathOf "x/....//....//etc/passwd") = true
  /\ resolve key = ["demo"; "etc"; "passwd"]
  /\ inSessionNamespace "session01" key = false.
Proof. repeat split. Qed.

Lemma allSome_length_map {A B : Type} (g : A -> option B) (l : list A) :
  (forall a, In a l -> g a <> None) ->
  exists r, Route.allSome (map g l) = Some r /\ List.length r = List.length l
            /\ Forall2 (fun a b => g a = Some b) l r.
Proof.
  induction l as [|a t IH]; intros H; simpl.
  - exists []. repeat split. constructor.
  - destruct (g a) as [b|] eqn:E; [|exfalso; apply (H a); [now left|exact E]].
    destruct IH as [r [Hr [Hl HF]]]; [intros x Hx; apply H; now right|].
    rewrite Hr. exists (b :: r). repeat split; [simpl; now rewrite Hl|].
    now constructor.
Qed.

Lemma allSome_refused {A B : Type} (g : A -> option B) (l : list A) :
  (exists a, In a l /\ g a = None) -> Route.allSome (map g l) = None.
Proof.
  induction l as [|a t IH]; intros [x [Hin Hx]]; [destruct Hin|].
  simpl. destruct Hin as [<-|Hin].
  - now rewrite Hx.
  - destruct (g a); [|reflexivity].
    rewrite IH; [reflexivity|]. now exists x.
Qed.

(** C4, as amended.  A request whose [files] is missing or empty is
    answered 400 [no_files] and asks the issuer for nothing; a request with
    a non-empty list, every grant of which the issuer gives, is answered 200
    with one item per file, in order, each carrying the sanitised path of its
    file, and the issuer was asked once per file; when the issuer refuses
    one of the grants the answer is 500 [presign_failed]. *)
Theorem uploadStart_empty_or_granted
        (BUCKET : string) (getSignedUrl : PutObjectCommand -> Z -> option string)
        (randomHex : string) (body : StartBody.t) :
  let out := Route.uploadStart BUCKET getSignedUrl randomHex body in
  let sid := Route.sidOf randomHex (StartBody.sessionId body) in
  ((StartBody.files body = None \/ StartBody.files body = Some []) ->
   out = Route.mkOutcome (mkReply 400 (ErrorBody "no_files")) []
   /\ ok (status (Route.reply out)) = false
   /\ 400 <= status (Route.reply out) < 500)
  /\ (forall files,
        StartBody.files body = Some files -> files <> [] ->
        (forall f, In f files ->
                   getSignedUrl (Route.commandOf BUCKET sid f) 3600 <> None) ->
        exists items,
          Route.reply out = mkReply 200 (PlanBody (PresignResponse.mk sid items))
          /\ List.length items = List.length files
          /\ map PresignItem.relPath items
             = map (fun f => Route.safePathOf (FileReq.relPath f)) files
          /\ map PresignItem.objectKey items
             = map (fun f => Route.keyOf sid (Route.safePathOf (FileReq.relPath f))) files
          /\ Route.requested out = map (Route.commandOf BUCKET sid) files)
  /\ (forall files,
        StartBody.files body = Some files ->
        (exists f, In f files
                   /\ getSignedUrl (Route.commandOf BUCKET sid f) 3600 = None) ->
        Route.reply out = mkReply 500 (ErrorBody "presign_failed")
        /\ Route.requested out = map (Route.commandOf BUCKET sid) files).
Proof.
  intros out sid. split; [|split].
  - intros [H|H]; unfold out, Route.uploadStart; rewrite H; simpl;
      repeat split; try lia; discriminate.
  - intros files Hf Hne Hgrant.
    unfold out, Route.uploadStart. rewrite Hf.
    destruct files as [|f0 fs]; [congruence|].
    fold sid.
    destruct (allSome_length_map (Route.presign BUCKET getSignedUrl sid) (f0 :: fs))
      as [items [Ha [Hl HF]]].
    { intros f Hin. unfold Route.presign.
      specialize (Hgrant f Hin). unfold Route.commandOf in Hgrant.
      destruct (getSignedUrl _ 3600); [discriminate|congruence]. }
    exists items. cbn [Route.reply Route.requested]. rewrite Ha.
    repeat split; try assumption.
    + clear - HF. induction HF as [|f b l r Hfb HF IH]; [reflexivity|].
      simpl. rewrite IH. f_equal.
      unfold Route.presign in Hfb.
      destruct (getSignedUrl _ 3600); inversion Hfb; reflexivity.
    + clear - HF. induction HF as [|f b l r Hfb HF IH]; [reflexivity|].
      simpl. rewrite IH. f_equal.
      unfold Route.presign in Hfb.
      destruct (getSignedUrl _ 3600); inversion Hfb; reflexivity.
  - intros files Hf [f [Hin Hnone]].
    unfold out, Route.uploadStart. rewrite Hf.
    destruct files as [|f0 fs]; [destruct Hin|].
    fold sid. cbn [Route.reply Route.requested].
    rewrite (allSome_refused (Route.presign BUCKET getSignedUrl sid) (f0 :: fs)).
    + split; reflexivity.
    + exists f. split; [exact Hin|].
      unfold Route.presign. unfold Route.commandOf in Hnone. now rewrite Hnone.
Qed.

(** The amended C4 at a request for two files, with an issuer that grants. *)
Lemma uploadStart_empty_or_granted_witness :
  exists items,
    Route.reply
      (Route.uploadStart "vault-bucket" grantAll "00112233aabbccdd"
         (StartBody.mk (Some "session01")
            (Some [FileReq.mk "photos/a.jpg" 10 (Some "image/jpeg");
                   FileReq.mk "./notes.txt" 3 None])))
    = mkReply 200 (PlanBody (PresignResponse.mk "session01" items))
    /\ List.length items = 2%nat.
Proof.
  destruct (uploadStart_empty_or_granted "vault-bucket" grantAll "00112233aabbccdd"
              (StartBody.mk (Some "session01")
                 (Some [FileReq.mk "photos/a.jpg" 10 (Some "image/jpeg");
                        FileReq.mk "./notes.txt" 3 None]))) as [_ [H _]].
  destruct (H _ eq_refl) as [items [Hr [Hl _]]].
  - discriminate.
  - intros f _. discriminate.
  - exists items. split; [exact Hr|exact Hl].
Defined.

(** Against C4 as the specification words it: a non-empty list does not get
    its items when the issuer refuses; the route answers 500 [presign_failed]. *)
Lemma uploadStart_issuer_refuses :
  Route.reply
    (Route.uploadStart "vault-bucket" grantNone "00112233aabbccdd"
       (StartBody.mk None (Some [FileReq.mk "a.txt" 1 None])))
  = mkReply 500 (ErrorBody "presign_failed").
Proof. reflexivity. Qed.

(** ** Buffers held while hashing *)

Lemma firstn_app_skipn {A : Type} (a b : nat) :
  forall l : list A, firstn a l ++ firstn b (skipn a l) = firstn (a + b) l.
Proof.
  induction a as [|a IH]; intros l; simpl; [reflexivity|].
  destruct l as [|x t]; simpl.
  - now rewrite firstn_nil.
  - now rewrite IH.
Qed.

Section HashLoopFacts.
Variable cs : Z.
Variable f : File.
Hypothesis cs_pos : 0 < cs.

(** The loop leaves through its test, never by want of fuel, having read
    the file slice after slice. *)
Lemma hashLoop_spec (fuel : nat) :
  forall (n : nat) (hasher : UploadModule.Hasher) (bufs : list (list byte))
         (prog : list (Z * Z)),
    (n <= List.length (bytes f))%nat ->
    (List.length (bytes f) - n <= fuel)%nat ->
    UploadModule.absorbed hasher = firstn n (bytes f) ->
    List.concat bufs = firstn n (bytes f) ->
    Forall (within cs) bufs ->
    exists run,
      UploadModule.hashLoop cs f fuel (Z.of_nat n) hasher bufs prog = Some run
      /\ UploadModule.hex run = hexOfBytes (Sha256.digest (bytes f))
      /\ List.concat (UploadModule.buffers run) = (bytes f)
      /\ Forall (within cs) (UploadModule.buffers run).
Proof.
  assert (Hexit : forall n hasher bufs prog,
             (n <= List.length (bytes f))%nat ->
             (Z.of_nat n <? size f) = false ->
             UploadModule.absorbed hasher = firstn n (bytes f) ->
             List.concat bufs = firstn n (bytes f) -> Forall (within cs) bufs ->
             exists run,
               Some (UploadModule.mkHashRun (UploadModule.digestHex hasher) bufs prog)
               = Some run
               /\ UploadModule.hex run = hexOfBytes (Sha256.digest (bytes f))
               /\ List.concat (UploadModule.buffers run) = (bytes f)
               /\ Forall (within cs) (UploadModule.buffers run)).
  { intros n hasher bufs prog Hn Ht Ha Hc HF.
    apply Z.ltb_ge in Ht. unfold size in Ht.
    assert (n = List.length (bytes f)) by lia. subst n.
    rewrite firstn_all in Ha, Hc.
    eexists; split; [reflexivity|]. simpl.
    unfold UploadModule.digestHex. rewrite Ha. auto. }
  induction fuel as [|fuel IH]; intros n hasher bufs prog Hn Hfuel Ha Hc HF.
  - simpl. destruct (Z.of_nat n <? size f) eqn:Ht.
    + apply Z.ltb_lt in Ht. unfold size in Ht. lia.
    + now apply (Hexit n).
  - simpl. destruct (Z.of_nat n <? size f) eqn:Ht; [|now apply (Hexit n)].
    apply Z.ltb_lt in Ht. unfold size in Ht.
    set (k := Z.to_nat (Z.min (Z.of_nat n + cs) (size f) - Z.of_nat n)).
    assert (Hk : (1 <= k <= List.length (bytes f) - n)%nat /\ Z.of_nat k <= cs).
    { unfold k, size. lia. }
    assert (Hbuf : UploadModule.slice f (Z.of_nat n)
                     (Z.min (Z.of_nat n + cs) (size f))
                   = firstn k (skipn n (bytes f))).
    { unfold UploadModule.slice. fold k. now rewrite Nat2Z.id. }
    rewrite Hbuf.
    assert (Hlen : List.length (firstn k (skipn n (bytes f))) = k).
    { rewrite length_firstn, length_skipn. lia. }
    rewrite Hlen, <- Nat2Z.inj_add.
    apply IH.
    + lia.
    + lia.
    + simpl. rewrite Ha. apply firstn_app_skipn.
    + rewrite concat_app. simpl. rewrite app_nil_r, Hc. apply firstn_app_skipn.
    + apply Forall_app. split; [exact HF|].
      constructor; [|constructor]. unfold within. rewrite Hlen. lia.
Qed.

Lemma sha256HexWith_chunks :
  exists run,
    UploadModule.sha256HexWith cs f = Some run
    /\ UploadModule.hex run = hexOfBytes (Sha256.digest (bytes f))
    /\ List.concat (UploadModule.buffers run) = (bytes f)
    /\ Forall (within cs) (UploadModule.buffers run).
Proof.
  unfold UploadModule.sha256HexWith.
  apply (hashLoop_spec (List.length (bytes f)) 0); simpl; auto; lia.
Qed.
End HashLoopFacts.

Lemma utf8_length (s : string) : List.length (utf8 s) = String.length s.
Proof.
  unfold utf8, list_byte_of_string.
  rewrite length_map. induction s as [|c s IH]; simpl; [reflexivity|now rewrite IH].
Qed.

Lemma streamOf_length (es : list (string * list byte)) :
  List.length (streamOf es)
  = list_sum (map (fun e => (String.length (fst e) + 1 + List.length (snd e))%nat) es).
Proof.
  induction es as [|e t IH]; [reflexivity|].
  change (streamOf (e :: t)) with ((utf8 (fst e) ++ utf8 LF ++ snd e) ++ streamOf t).
  rewrite !length_app, IH, !utf8_length.
  cbn [map list_sum fold_right String.length LF]. unfold list_sum. lia.
Qed.

Lemma list_sum_perm (l l' : list nat) :
  Permutation l l' -> list_sum l = list_sum l'.
Proof.
  induction 1; simpl; lia.
Qed.

(** The one buffer of the archive digest holds every path, a line feed
    per file and every byte of every file. *)
Lemma archiveBuffer_length (cmp : string -> string -> Z) (l : list DemoFile) :
  List.length (archiveBuffer cmp l)
  = list_sum (map (fun x => (String.length (fullPath x) + 1
                             + List.length (bytes (file x)))%nat) l).
Proof.
  rewrite archiveBuffer_stream, streamOf_length.
  rewrite (list_sum_perm _ (map (fun e => (String.length (fst e) + 1
                                           + List.length (snd e))%nat)
                                (map entry l))).
  - now rewrite map_map.
  - apply Permutation_map, sort_perm.
Qed.

(** C5, as amended.  The single-file hasher of the upload module reads
    its file in slices of at most 8 MiB, whatever the size of the file: the
    run ends, every buffer it held has at most [chunkSize] bytes, the buffers
    make up the file in order and the result is the SHA-256 of the file.  The
    archive digest works on one buffer instead, as long as all paths and all
    files together. *)
Theorem hashing_buffers :
  (forall f : File,
      exists run,
        UploadModule.sha256Hex f = Some run
        /\ UploadModule.hex run = hexOfBytes (Sha256.digest (bytes f))
        /\ List.concat (UploadModule.buffers run) = bytes f
        /\ Forall (within (8 * 1024 * 1024)) (UploadModule.buffers run))
  /\ (forall (localeCompare : string -> string -> Z) (l : list DemoFile),
         hashFilesSHA256 localeCompare l = sha256Hex (archiveBuffer localeCompare l)
         /\ List.length (archiveBuffer localeCompare l)
            = list_sum (map (fun x => (String.length (fullPath x) + 1
                                       + List.length (bytes (file x)))%nat) l)).
Proof.
  split.
  - intros f. apply (sha256HexWith_chunks UploadModule.chunkSize f).
    unfold UploadModule.chunkSize. lia.
  - intros cmp l. split; [reflexivity|apply archiveBuffer_length].
Qed.

(** Against C5 as the specification words it, on the archive digest: for a
    vault of one file of 16 MiB the buffer handed to the hash is longer than
    16 MiB, whatever the collation. *)
Lemma archiveBuffer_exceeds_chunk :
  exists l : list DemoFile,
    forall localeCompare : string -> string -> Z,
      16 * 1024 * 1024 < Z.of_nat (List.length (archiveBuffer localeCompare l)).
Proof.
  exists [zeroFile "a" (16 * 1024 * 1024)].
  intros cmp. rewrite archiveBuffer_length.
  unfold zeroFile. cbn [map fullPath file bytes list_sum fold_right].
  rewrite repeat_length. cbn [String.length]. lia.
Qed.

(** ** The build flow *)

Lemma inStep_step (st : Step.t) (s : State) : inStep st s = true -> step s = st.
Proof.
  unfold inStep. destruct (mode s); [discriminate|].
  destruct (started s); [|discriminate]. simpl.
  unfold Step.eqb. now destruct (step s), st.
Qed.

Lemma pricingShown_step (s : State) : pricingShown s = true -> step s = Step.pricing.
Proof.
  unfold pricingShown. intros H. apply andb_prop in H. now apply inStep_step.
Qed.

Lemma sameBuild_refl (s : State) : sameBuild s s.
Proof. repeat split. Qed.

Lemma sameBuild_trans (a b c : State) : sameBuild a b -> sameBuild b c -> sameBuild a c.
Proof. unfold sameBuild. intuition congruence. Qed.

Section UploaderFrame.
Variable api : StartBody.t -> option Reply.
Variable backend : list (string * File) -> string -> File -> FetchResult.

Lemma uploadItems_sameBuild (source : list DemoFile) (total : Z)
      (items : list PresignItem.t) :
  forall done s fx,
    sameBuild s (fst (fst (uploadItems backend source total items done s fx))).
Proof.
  induction items as [|item rest IH]; intros done s fx; simpl.
  - apply sameBuild_refl.
  - destruct (find _ source) as [m|]; [|apply IH].
    destruct (backend _ _ _) as [|st stText text]; [apply sameBuild_refl|].
    destruct (ok st); [|apply sameBuild_refl].
    eapply sameBuild_trans; [|apply IH]. repeat split.
Qed.

Lemma uploadToS3_sameBuild (source : list DemoFile) (s : State) :
  sameBuild s (fst (uploadToS3 api backend source s)).
Proof.
  unfold uploadToS3. destruct source as [|x t]; [apply sameBuild_refl|].
  destruct (getPresignedPlan _ _ _) as [message|plan]; [repeat split|].
  pose proof (uploadItems_sameBuild (x :: t)
                (Z.of_nat (List.length (PresignResponse.items plan)))
                (PresignResponse.items plan) 0
                (setUploadPct 0 (setUploading true s)) noEffects) as H.
  destruct (uploadItems _ _ _ _ _ _ _) as [[s2 fx] [message|]]; simpl in *;
    unfold sameBuild in *; simpl in *; intuition.
Qed.
End UploaderFrame.

Section Flow.
Variable localeCompare : string -> string -> Z.
Variable api : StartBody.t -> option Reply.
Variable backend : list (string * File) -> string -> File -> FetchResult.

(** What pricing acceptance does to the step and to the lock. *)
Lemma proceedAfterPricing_cases (s : State) :
  let s1 := proceedAfterPricing localeCompare s in
  let trimmed := trim (endowmentUsd s) in
  let num := parseFloat trimmed in
  acceptedPrice s = true -> isBlank (vaultName s) = false ->
  (trimmed = "" ->
   step s1 = Step.manifest /\ lockedEndowment s1 = None /\ endowmentError s1 = None)
  /\ (trimmed <> "" -> is_nan num || ltb num 0 = true ->
      step s1 = step s /\ lockedEndowment s1 = lockedEndowment s
      /\ endowmentError s1 <> None)
  /\ (trimmed <> "" -> is_nan num || ltb num 0 = false ->
      step s1 = Step.manifest /\ endowmentError s1 = None
      /\ lockedEndowment s1
         = Some (let rate := if ltb 0 (demoEthPrice s) then demoEthPrice s else 1%float in
                 mkLock num (div num rate) rate)).
Proof.
  intros s1 trimmed num Hacc Hname.
  unfold s1, proceedAfterPricing. rewrite Hacc, Hname. simpl negb. simpl orb. cbv iota.
  fold trimmed. fold num.
  repeat split.
  - rewrite H. reflexivity.
  - rewrite H. reflexivity.
  - rewrite H. reflexivity.
  - apply String.eqb_neq in H. rewrite H. simpl negb. cbv iota. rewrite H0. reflexivity.
  - apply String.eqb_neq in H. rewrite H. simpl negb. cbv iota. rewrite H0. reflexivity.
  - apply String.eqb_neq in H. rewrite H. simpl negb. cbv iota. rewrite H0.
    simpl. discriminate.
  - apply String.eqb_neq in H. rewrite H. simpl negb. cbv iota. rewrite H0. reflexivity.
  - apply String.eqb_neq in H. rewrite H. simpl negb. cbv iota. rewrite H0. reflexivity.
  - apply String.eqb_neq in H. rewrite H. simpl negb. cbv iota. rewrite H0. reflexivity.
Qed.

Lemma proceedAfterPricing_step (s : State) :
  step (proceedAfterPricing localeCompare s) = step s
  \/ step (proceedAfterPricing localeCompare s) = Step.manifest.
Proof.
  unfold proceedAfterPricing.
  destruct (negb (acceptedPrice s) || isBlank (vaultName s)); [now left|].
  destruct (negb (trim (endowmentUsd s) =? "")%string).
  - destruct (is_nan _ || ltb _ 0); [now left|now right].
  - now right.
Qed.

(** A call of [uploadToS3] that is resumed writes [uploading],
    [uploadPct] and [uploadedItems] and nothing else. *)
Lemma uploadNext_writes (source : list DemoFile) (items rest : list PresignItem.t) :
  forall (done : Z) (sent : list (string * File)) (s : State),
  exists u p i,
    snd (uploadNext source items rest done sent) s
    = setUploading u (setUploadPct p (setUploadedItems i s)).
Proof.
  induction rest as [|item rest IH]; intros done sent s; cbn [uploadNext].
  - exists false, (uploadPct s), (Some items). now destruct s.
  - destruct (find _ source) as [m|]; [|apply IH].
    exists (uploading s), (uploadPct s), (uploadedItems s). now destruct s.
Qed.

Lemma uploadResume_writes (sid : string) (source : list DemoFile) (u : Upload)
      (s : State) :
  exists b p i,
    snd (uploadResume api backend sid source u) s
    = setUploading b (setUploadPct p (setUploadedItems i s)).
Proof.
  assert (Hup : exists b p i,
             uploadGiveUp s = setUploading b (setUploadPct p (setUploadedItems i s))).
  { exists false, (uploadPct s), None. now destruct s. }
  assert (Hid : exists b p i, s = setUploading b (setUploadPct p (setUploadedItems i s))).
  { exists (uploading s), (uploadPct s), (uploadedItems s). now destruct s. }
  destruct u as [|items item m rest done sent|]; cbn [uploadResume].
  - destruct (getPresignedPlan _ _ _) as [message|plan]; [exact Hup|].
    apply uploadNext_writes.
  - destruct (backend _ _ _) as [|st stText text]; [exact Hup|].
    destruct (ok st); [|exact Hup]. cbn [snd].
    match goal with
    | |- context [uploadNext ?a ?b ?c ?d ?e] =>
        destruct (uploadNext_writes a b c d e (setUploadPct
          (mathRound (mul (div (floatOfZ (done + 1))
                               (floatOfZ (Z.of_nat (List.length items)))) 100)) s))
          as (b0 & p & i & H)
    end.
    rewrite H. exists b0, p, i. now destruct s.
  - exact Hid.
Qed.

(** Every event but pricing acceptance and the reset leaves the lock:
    the lock is written before the handler's await, never after it. *)
Lemma handle_keeps_lock (ev : Event) (s : State) :
  ev <> ContinueToManifest -> ev <> Reset ->
  lockedEndowment (handle localeCompare api backend ev s) = lockedEndowment s.
Proof.
  intros H1 H2. unfold handle.
  destruct ev; try congruence;
    try (repeat match goal with
                | |- context [if ?c then _ else _] => destruct c
                | |- context [match ?x with _ => _ end] => destruct x
                end;
         reflexivity).
  destruct (nth_error (uploads s) i) as [[source k]|]; [|reflexivity].
  destruct (uploadResume_writes (sessionId s) source
              (uploadAt api backend (sessionId s) source k) s) as (b & p & it & H).
  cbn [lockedEndowment setUploads]. rewrite H. reflexivity.
Qed.

Lemma run_keeps_lock (evs : list Event) :
  forall s,
    (forall ev, In ev evs -> ev <> ContinueToManifest /\ ev <> Reset) ->
    lockedEndowment (run localeCompare api backend evs s) = lockedEndowment s.
Proof.
  induction evs as [|ev evs IH]; intros s H; [reflexivity|].
  unfold run in *. simpl. rewrite IH.
  - apply handle_keeps_lock; apply (H ev); now left.
  - intros e He. apply H. now right.
Qed.
End Flow.

(** C6.  Accepting the pricing with 100.00 USD entered and the rate at
    2500 stores the lock (usd 100, eth 0.04, usdPerEth 2500).  From then on a
    change of the demo rate leaves the stored lock as it is, in whatever state
    holds it, and so does every sequence of user actions and settlements
    that neither accepts the pricing again nor resets the build. *)
Theorem endowment_lock_fixed
        (localeCompare : string -> string -> Z)
        (api : StartBody.t -> option Reply)
        (backend : list (string * File) -> string -> File -> FetchResult)
        (s : State) :
  acceptedPrice s = true -> isBlank (vaultName s) = false ->
  endowmentUsd s = "100.00" -> demoEthPrice s = 2500%float ->
  let s1 := proceedAfterPricing localeCompare s in
  lockedEndowment s1 = Some (mkLock 100 0.04 2500)
  /\ (forall (v : string) (s' : State),
         lockedEndowment s' = lockedEndowment s1 ->
         lockedEndowment (handle localeCompare api backend (TypeDemoEthPrice v) s')
         = lockedEndowment s1)
  /\ (forall evs : list Event,
         (forall ev, In ev evs -> ev <> ContinueToManifest /\ ev <> Reset) ->
         lockedEndowment (run localeCompare api backend evs s1) = lockedEndowment s1).
Proof.
  intros Hacc Hname Husd Hrate s1.
  split; [|split].
  - destruct (proceedAfterPricing_cases localeCompare s Hacc Hname) as [_ [_ H]].
    rewrite Husd, Hrate in H.
    assert (Ht : trim "100.00" = "100.00") by (vm_compute; reflexivity).
    assert (Hn : parseFloat "100.00" = 100%float) by (vm_compute; reflexivity).
    rewrite Ht, Hn in H.
    destruct H as [_ [_ H]]; [discriminate|reflexivity|].
    unfold s1. rewrite H. reflexivity.
  - intros v s' Hs'. rewrite <- Hs'.
    apply (handle_keeps_lock localeCompare api backend); discriminate.
  - intros evs Hevs. now apply run_keeps_lock.
Qed.

(** C6 on the demo: the lock taken at 100.00 USD and 2500 USD/ETH is
    still the same after going back to the pricing step and setting the rate
    to 4000 and then to 1. *)
Lemma endowment_lock_fixed_witness :
  let s1 := proceedAfterPricing codeUnitCompare atAcceptance in
  let later := run codeUnitCompare demoApi acceptAll
                   [ManifestBack; TypeDemoEthPrice "4000"; TypeDemoEthPrice "1"] s1 in
  lockedEndowment s1 = Some (mkLock 100 0.04 2500)
  /\ lockedEndowment later = Some (mkLock 100 0.04 2500)
  /\ demoEthPrice later = 1%float.
Proof.
  intros s1 later.
  destruct (endowment_lock_fixed codeUnitCompare demoApi acceptAll atAcceptance)
    as [H1 [_ H3]]; try (vm_compute; reflexivity).
  split; [exact H1|]. split.
  - unfold later. fold s1 in H1, H3. rewrite H3; [exact H1|].
    intros ev [<-|[<-|[<-|[]]]]; split; discriminate.
  - vm_compute. reflexivity.
Defined.

(** C7, the code at a failing input.  With the terms accepted, a vault
    name given and the amount [1e999] entered, [parseFloat] yields infinity,
    which is neither [NaN] nor below zero: no error is set, a lock with an
    infinite amount is stored and the flow moves on to the manifest step. *)
Theorem infinite_endowment_accepted
        (localeCompare : string -> string -> Z) (s : State) :
  acceptedPrice s = true -> isBlank (vaultName s) = false ->
  endowmentUsd s = "1e999" -> demoEthPrice s = 3200%float ->
  let s1 := proceedAfterPricing localeCompare s in
  parseFloat "1e999" = infinity
  /\ lockedEndowment s1 = Some (mkLock infinity infinity 3200)
  /\ endowmentError s1 = None
  /\ step s1 = Step.manifest.
Proof.
  intros Hacc Hname Husd Hrate s1.
  assert (Ht : trim "1e999" = "1e999") by (vm_compute; reflexivity).
  assert (Hn : parseFloat "1e999" = infinity) by (vm_compute; reflexivity).
  destruct (proceedAfterPricing_cases localeCompare s Hacc Hname) as [_ [_ H]].
  rewrite Husd, Hrate, Ht, Hn in H.
  destruct H as [Hs [He Hl]]; [discriminate|reflexivity|].
  fold s1 in Hs, He, Hl. repeat split; assumption.
Qed.

Lemma infinite_endowment_accepted_witness :
  lockedEndowment (proceedAfterPricing codeUnitCompare atHugeAmount)
  = Some (mkLock infinity infinity 3200)
  /\ step (proceedAfterPricing codeUnitCompare atHugeAmount) = Step.manifest.
Proof.
  destruct (infinite_endowment_accepted codeUnitCompare atHugeAmount)
    as [_ [Hl [_ Hs]]]; try (vm_compute; reflexivity).
  split; [exact Hl|exact Hs].
Defined.

Lemma eqb_step (a b : Step.t) : Step.eqb a b = true -> a = b.
Proof. unfold Step.eqb. now destruct a, b. Qed.





(** The exception the statement sets apart, on the demo.  Continue is
    clicked twice while the digest is computed; the first digest opens the
    manifest step and the mint is started; the second digest arrives during
    the mint and sets the step back to the manifest step, where the manifest
    text can be emptied before the mint ends at the vault. *)
Lemma late_digest_returns_to_manifest :
  let minting_ :=
    run codeUnitCompare demoApi acceptAll
        (toAcceptance
           ++ [ ContinueToManifest; ContinueToManifest; HashSettled 0;
                TypeManifest "Family papers"; PickVisibility PRIVATE;
                SubmitAndMint ])
        demoSession in
  let reopened := handle codeUnitCompare demoApi acceptAll (HashSettled 0) minting_ in
  let ended :=
    run codeUnitCompare demoApi acceptAll
        [ TypeManifest "";
          MintSlept 0 "0xc0ffee" "0x01" "0xbeef" "data:image/svg+xml;base64," "{}";
          MintSettled 0 ]
        reopened in
  step minting_ = Step.minting /\ step reopened = Step.manifest
  /\ step ended = Step.vault /\ manifest ended = "".
Proof. vm_compute. repeat split. Qed.

(** ** The upload executor *)

(** C8.  A plan of five items, each with its local file, whose first two
    PUTs succeed and whose third is answered 403: the executor has sent
    exactly these three PUTs, has logged the path, status and body of the
    third, has thrown and reported [upload failed: <path of item 3>], has
    alerted the user, and leaves the progress at 40 per cent (two items of
    five done), no uploaded items and [uploading] off; items 4 and 5 were
    never sent. *)
Theorem third_put_denied_aborts
        (api : StartBody.t -> option Reply)
        (backend : list (string * File) -> string -> File -> FetchResult)
        (source : list DemoFile) (s : State) (plan : PresignResponse.t)
        (i1 i2 i3 i4 i5 : PresignItem.t) (m1 m2 m3 : DemoFile)
        (st1 st2 : Z) (tx1 tx2 tx3 : string) (b1 b2 b3 : option string) :
  source <> [] ->
  getPresignedPlan api (sessionId s) source = inr plan ->
  PresignResponse.items plan = [i1; i2; i3; i4; i5] ->
  find (fun x => (fullPath x =? PresignItem.relPath i1)%string) source = Some m1 ->
  find (fun x => (fullPath x =? PresignItem.relPath i2)%string) source = Some m2 ->
  find (fun x => (fullPath x =? PresignItem.relPath i3)%string) source = Some m3 ->
  backend [] (PresignItem.uploadUrl i1) (file m1) = Response st1 tx1 b1 ->
  ok st1 = true ->
  backend [(PresignItem.uploadUrl i1, file m1)]
          (PresignItem.uploadUrl i2) (file m2) = Response st2 tx2 b2 ->
  ok st2 = true ->
  backend [(PresignItem.uploadUrl i1, file m1); (PresignItem.uploadUrl i2, file m2)]
          (PresignItem.uploadUrl i3) (file m3) = Response 403 tx3 b3 ->
  let out := uploadToS3 api backend source s in
  puts (snd out)
  = [ (PresignItem.uploadUrl i1, file m1); (PresignItem.uploadUrl i2, file m2);
      (PresignItem.uploadUrl i3, file m3) ]
  /\ console (snd out)
     = [ LogPutFailed (PresignItem.relPath i3) 403 tx3
                      (match b3 with Some t => t | None => "" end);
         LogUploadError ("upload failed: " ++ PresignItem.relPath i3)%string ]
  /\ alerts (snd out) = ["Upload failed. Check console."]
  /\ uploadPct (fst out) = 40
  /\ uploadedItems (fst out) = None
  /\ uploading (fst out) = false.
Proof.
  intros Hne Hplan Hitems Hm1 Hm2 Hm3 Hr1 Hok1 Hr2 Hok2 Hr3 out.
  unfold out, uploadToS3.
  destruct source as [|x0 rest]; [congruence|].
  rewrite Hplan, Hitems.
  cbn [uploadItems List.length Z.of_nat Pos.of_succ_nat Pos.succ].
  rewrite Hm1. cbn [puts noEffects app]. rewrite Hr1, Hok1.
  rewrite Hm2. cbn [puts console alerts app]. rewrite Hr2, Hok2.
  rewrite Hm3. cbn [puts console alerts app]. rewrite Hr3.
  change (ok 403) with false. cbv iota.
  unfold uploadFailed. cbn [fst snd puts console alerts app].
  repeat split.
Qed.

(** C8 on the demo: five files, the real route behind the API and a
    backend that denies the third PUT. *)
Lemma third_put_denied_aborts_witness :
  let out := uploadToS3 demoApi denyThird fiveFiles demoSession in
  map (fun p => name (snd p)) (puts (snd out))
  = ["album/1.jpg"; "album/2.jpg"; "album/3.jpg"]
  /\ uploadPct (fst out) = 40
  /\ uploadedItems (fst out) = None
  /\ In (LogUploadError "upload failed: album/3.jpg") (console (snd out)).
Proof.
  intros out.
  edestruct (third_put_denied_aborts demoApi denyThird fiveFiles demoSession)
    as [Hp [Hc [_ [Hpct [Hu _]]]]].
  - discriminate.
  - vm_compute. reflexivity.
  - vm_compute. reflexivity.
  - vm_compute. reflexivity.
  - vm_compute. reflexivity.
  - vm_compute. reflexivity.
  - vm_compute. reflexivity.
  - reflexivity.
  - vm_compute. reflexivity.
  - reflexivity.
  - vm_compute. reflexivity.
  - fold out in Hp, Hc, Hpct, Hu.
    rewrite Hp, Hc. repeat split; try assumption.
    right. left. reflexivity.
Defined.

(** C10, as amended.  For a local file whose path the route's
    sanitisation alters, the plan item carries the sanitised path; when no
    local file has that sanitised path, the executor's search by exact path
    finds nothing and the loop passes over the item: nothing is sent, logged
    or thrown for it, and the run goes on as if the item were not in the
    plan. *)
Theorem altered_path_item_skipped
        (BUCKET : string) (getSignedUrl : PutObjectCommand -> Z -> option string)
        (backend : list (string * File) -> string -> File -> FetchResult)
        (source : list DemoFile) (f : DemoFile) (req : FileReq.t) (sid : string)
        (item : PresignItem.t) (rest : list PresignItem.t)
        (total done : Z) (s : State) (fx : Effects) :
  In f source ->
  FileReq.relPath req = fullPath f ->
  Route.safePathOf (fullPath f) <> fullPath f ->
  Route.presign BUCKET getSignedUrl sid req = Some item ->
  (forall x, In x source -> fullPath x <> Route.safePathOf (fullPath f)) ->
  PresignItem.relPath item = Route.safePathOf (fullPath f)
  /\ PresignItem.relPath item <> fullPath f
  /\ find (fun x => (fullPath x =? PresignItem.relPath item)%string) source = None
  /\ uploadItems backend source total (item :: rest) done s fx
     = uploadItems backend source total rest done s fx.
Proof.
  intros Hin Hreq Halt Hitem Hnone.
  assert (Hrel : PresignItem.relPath item = Route.safePathOf (fullPath f)).
  { unfold Route.presign in Hitem. rewrite Hreq in Hitem.
    destruct (getSignedUrl _ 3600); inversion Hitem; reflexivity. }
  assert (Hfind : find (fun x => (fullPath x =? PresignItem.relPath item)%string) source
                  = None).
  { rewrite Hrel. clear - Hnone.
    induction source as [|x t IH]; [reflexivity|]. simpl.
    destruct (String.eqb_spec (fullPath x) (Route.safePathOf (fullPath f))) as [E|E].
    - exfalso. apply (Hnone x); [now left|exact E].
    - apply IH. intros y Hy. apply Hnone. now right. }
  repeat split; try assumption.
  - now rewrite Hrel.
  - simpl. now rewrite Hfind.
Qed.

(** The amended C10 on a folder whose notes are listed as [./notes.txt]:
    the plan names [notes.txt], no local file has that path, and the whole
    run sends the other file only. *)
Lemma altered_path_item_skipped_witness :
  Route.safePathOf "./notes.txt" = "notes.txt"
  /\ find (fun x => (fullPath x =? "notes.txt")%string) dottedNotes = None
  /\ map (fun p => name (snd p))
         (puts (snd (uploadToS3 demoApi acceptAll dottedNotes demoSession)))
     = ["a.txt"].
Proof.
  split; [reflexivity|]. split; [|vm_compute; reflexivity].
  set (req := FileReq.mk "./notes.txt" 5 (Some "application/octet-stream")).
  set (item := match Route.presign "vault-bucket" grantAll "0a1b2c3d4e5f6071" req with
               | Some it => it
               | None => PresignItem.mk "" "" "" "" ""
               end).
  destruct (altered_path_item_skipped "vault-bucket" grantAll acceptAll dottedNotes
              (plainFile "./notes.txt" "notes") req
              "0a1b2c3d4e5f6071" item [] 2 0 demoSession noEffects)
    as [Hrel [_ [Hfind _]]].
  - left. reflexivity.
  - reflexivity.
  - vm_compute. discriminate.
  - vm_compute. reflexivity.
  - intros x [<-|[<-|[]]]; vm_compute; discriminate.
  - rewrite Hrel in Hfind. exact Hfind.
Defined.

(** Against C10 as the specification words it: when another local file has the
    sanitised path, the search finds that file.  With [.env] and [env] picked
    together both plan items read [env] and share a key; the executor sends
    the bytes of [env] for each of them, and those of [.env] never. *)
Lemma altered_path_item_matches_namesake :
  let out := uploadToS3 demoApi acceptAll dotAndPlain demoSession in
  Route.safePathOf ".env" = "env"
  /\ find (fun x => (fullPath x =? Route.safePathOf ".env")%string) dotAndPlain
     = Some (plainFile "env" "public")
  /\ map (fun p => name (snd p)) (puts (snd out)) = ["env"; "env"]
  /\ option_map (map PresignItem.objectKey) (uploadedItems (fst out))
     = Some ["demo/0a1b2c3d4e5f6071/env"; "demo/0a1b2c3d4e5f6071/env"].
Proof. vm_compute. repeat split. Qed.

(** * Further properties of the code *)

(** ** The file collector *)

(** Induction over entries that reaches the entries of every batch. *)
Lemma Entry_nested_ind (P : Entry -> Prop)
      (Hfile : forall f, P (FileEntry f))
      (Hdir : forall d bs, Forall (Forall P) bs -> P (DirectoryEntry d bs))
      (Hother : P OtherEntry) :
  forall e, P e.
Proof.
  fix IH 1. intros [f|d bs|].
  - apply Hfile.
  - apply Hdir. induction bs as [|b rest IHbs]; constructor; [|exact IHbs].
    induction b as [|x t IHb]; constructor; [apply IH|exact IHb].
  - apply Hother.
Qed.

Lemma readUntilEmpty_Forall (P : Entry -> Prop) (bs : list (list Entry)) :
  Forall (Forall P) bs -> Forall P (readUntilEmpty bs).
Proof.
  induction 1 as [|b rest Hb _ IH]; simpl; [constructor|].
  destruct b as [|e es]; [constructor|].
  change (Forall P ((e :: es) ++ readUntilEmpty rest)).
  apply Forall_app. split; [exact Hb|exact IH].
Qed.

(** A directory gives the files of the entries read, one entry after the
    other, each looked up below the directory's own path. *)
Lemma traverseEntry_directory (d : string) (bs : list (list Entry)) (p : string) :
  traverseEntry (DirectoryEntry d bs) p
  = flat_map (fun e => traverseEntry e (p ++ d ++ "/")%string) (readUntilEmpty bs).
Proof.
  cbn [traverseEntry].
  induction bs as [|b rest IH]; [reflexivity|].
  destruct b as [|e es]; [reflexivity|].
  cbn [readUntilEmpty]. rewrite flat_map_app, <- IH.
  apply (f_equal (fun l => l ++ _)).
  cbn [flat_map]. apply (f_equal (fun l => _ ++ l)).
  induction es as [|x t IHl]; [reflexivity|]. cbn [flat_map]. now rewrite IHl.
Qed.

Lemma append_assoc (a b c : string) : ((a ++ b) ++ c = a ++ (b ++ c))%string.
Proof. induction a as [|x a IH]; simpl; [reflexivity|now rewrite IH]. Qed.

(** X1.  Collecting below a longer prefix gives the same files, each path
    with the extra prefix in front: the prefix is carried down unchanged
    through every level of the tree. *)
Theorem traverseEntry_prefix (e : Entry) :
  forall p q : string,
    traverseEntry e (p ++ q) = map (under p) (traverseEntry e q).
Proof.
  induction e as [f|d bs IH|] using Entry_nested_ind; intros p q.
  - cbn [traverseEntry map]. unfold under. cbn [file fullPath].
    now rewrite append_assoc.
  - rewrite !traverseEntry_directory.
    apply readUntilEmpty_Forall in IH.
    induction IH as [|x t Hx _ IHt]; [reflexivity|].
    cbn [flat_map]. rewrite map_app, <- IHt.
    now rewrite <- Hx, append_assoc.
  - reflexivity.
Qed.

Lemma traverseEntry_path_shape (e : Entry) :
  forall p : string,
    Forall (fun x => exists mid, fullPath x = (p ++ mid ++ name (file x))%string)
           (traverseEntry e p).
Proof.
  induction e as [f|d bs IH|] using Entry_nested_ind; intros p.
  - constructor; [|constructor]. now exists "".
  - rewrite traverseEntry_directory.
    apply readUntilEmpty_Forall in IH.
    induction IH as [|x t Hx _ IHt]; [constructor|].
    cbn [flat_map]. apply Forall_app. split; [|exact IHt].
    eapply Forall_impl; [|apply Hx].
    intros y [mid Hy]. exists (d ++ "/" ++ mid)%string.
    rewrite Hy. now rewrite !append_assoc.
  - constructor.
Qed.

(** X2.  Every file collected from a dropped directory has a path made
    of the prefix, the directory's name, a slash, what lies between, and the
    file's own name last: the folder structure is kept in the path. *)
Theorem traverseEntry_directory_paths
        (d : string) (bs : list (list Entry)) (p : string) :
  Forall (fun x => exists mid,
              fullPath x = (p ++ d ++ "/" ++ mid ++ name (file x))%string)
         (traverseEntry (DirectoryEntry d bs) p).
Proof.
  rewrite traverseEntry_directory.
  induction (readUntilEmpty bs) as [|e t IH]; [constructor|].
  cbn [flat_map]. apply Forall_app. split; [|exact IH].
  eapply Forall_impl; [|apply traverseEntry_path_shape].
  intros y [mid Hy]. exists mid. rewrite Hy. now rewrite !append_assoc.
Qed.

(** X3.  A directory reader is read until its first empty batch: what it
    would hand out after that is never collected, and a directory whose
    first batch is empty yields no file. *)
Theorem traverseEntry_stops_at_empty_batch
        (d : string) (bs rest : list (list Entry)) (p : string) :
  traverseEntry (DirectoryEntry d (bs ++ [] :: rest)) p
  = traverseEntry (DirectoryEntry d bs) p
  /\ traverseEntry (DirectoryEntry d ([] :: rest)) p = [].
Proof.
  split; [|reflexivity].
  rewrite !traverseEntry_directory. f_equal.
  induction bs as [|b t IH]; [reflexivity|].
  destruct b as [|e es]; [reflexivity|].
  cbn [app readUntilEmpty]. now rewrite IH.
Qed.

Lemma collectItems_spec (items : list DataTransferItem) :
  forall results tasks,
    collectItems items results tasks
    = (results
         ++ flat_map (fun it =>
                        match webkitGetAsEntry it, getAsFile it with
                        | None, Some f => [mkDemoFile f (name f)]
                        | _, _ => []
                        end) items,
       tasks
         ++ flat_map (fun it =>
                        match webkitGetAsEntry it with
                        | Some entry => [traverseEntry entry ""]
                        | None => []
                        end) items).
Proof.
  induction items as [|it rest IH]; intros results tasks; simpl.
  - now rewrite !app_nil_r.
  - destruct (webkitGetAsEntry it) as [entry|].
    + rewrite IH. simpl. now rewrite <- app_assoc.
    + destruct (getAsFile it) as [f|]; rewrite IH; simpl;
        [now rewrite <- app_assoc|reflexivity].
Qed.

(** The loose files come first, in drop order, then the files of the
    entries, entry after entry. *)
Lemma fromDataTransfer_spec (items : list DataTransferItem) :
  fromDataTransfer items
  = flat_map (fun it =>
                match webkitGetAsEntry it, getAsFile it with
                | None, Some f => [mkDemoFile f (name f)]
                | _, _ => []
                end) items
    ++ flat_map (fun it =>
                   match webkitGetAsEntry it with
                   | Some entry => traverseEntry entry ""
                   | None => []
                   end) items.
Proof.
  unfold fromDataTransfer. rewrite collectItems_spec. simpl. f_equal.
  induction items as [|it rest IH]; [reflexivity|]. simpl.
  destruct (webkitGetAsEntry it); simpl; now rewrite IH.
Qed.

Section DropOrder.
Variable localeCompare : string -> string -> Z.
Hypothesis localeCompare_sym :
  forall a b, Z.sgn (localeCompare b a) = - Z.sgn (localeCompare a b).
Hypothesis localeCompare_trans :
  forall a b c, localeCompare a b <= 0 -> localeCompare b c <= 0 ->
                localeCompare a c <= 0.

(** X4.  With a consistent collation, the archive digest of what a drop
    collects does not depend on the order of the dropped items, as long as no
    two collected files with different contents have paths that tie. *)
Theorem fromDataTransfer_digest_order (items items' : list DataTransferItem) :
  Permutation items items' ->
  (forall x y, In x (fromDataTransfer items) -> In y (fromDataTransfer items) ->
               localeCompare (fullPath x) (fullPath y) = 0 ->
               fullPath x = fullPath y /\ bytes (file x) = bytes (file y)) ->
  hashFilesSHA256 localeCompare (fromDataTransfer items)
  = hashFilesSHA256 localeCompare (fromDataTransfer items').
Proof.
  intros P Htie.
  assert (PP : Permutation (fromDataTransfer items) (fromDataTransfer items')).
  { rewrite !fromDataTransfer_spec.
    apply Permutation_app; now apply Permutation_flat_map. }
  unfold hashFilesSHA256. rewrite !archiveBuffer_stream. do 2 f_equal.
  apply sort_unique.
  - intros a b. apply localeCompare_sym.
  - intros a b c. apply localeCompare_trans.
  - now apply Permutation_map.
  - intros x y Hx Hy Hxy.
    apply in_map_iff in Hx, Hy.
    destruct Hx as [x0 [<- Hx]], Hy as [y0 [<- Hy]].
    destruct (Htie x0 y0 Hx Hy Hxy) as [Hp Hb].
    unfold entry. now rewrite Hp, Hb.
Qed.
End DropOrder.

(** X4 on a drop of a folder and a loose file, in both orders. *)
Lemma fromDataTransfer_digest_order_witness :
  hashFilesSHA256 codeUnitCompare (fromDataTransfer tripDrop)
  = hashFilesSHA256 codeUnitCompare (fromDataTransfer (rev tripDrop)).
Proof.
  apply (fromDataTransfer_digest_order codeUnitCompare
           codeUnitCompare_sym codeUnitCompare_trans).
  - apply perm_swap.
  - intros x y Hx Hy. vm_compute in Hx, Hy.
    destruct Hx as [<-|[<-|[<-|[<-|[]]]]]; destruct Hy as [<-|[<-|[<-|[<-|[]]]]];
      vm_compute; intros H; first [discriminate H | split; reflexivity].
Defined.

(** ** The upload executor *)

Lemma acceptedRun_app (backend : list (string * File) -> string -> File -> FetchResult)
      (new : list (string * File)) :
  forall history more,
    acceptedRun backend history (new ++ more)
    = acceptedRun backend history new && acceptedRun backend (history ++ new) more.
Proof.
  induction new as [|p t IH]; intros history more; simpl.
  - now rewrite app_nil_r.
  - rewrite IH, <- app_assoc. simpl. now rewrite andb_assoc.
Qed.

(** X5.  The loop stops at the first PUT that is not taken and never
    sends another one after it: when it ends without an error every PUT it
    sent was answered 2xx, and when it throws, the PUT sent last is the one
    that failed and every PUT before it was answered 2xx.  A failed PUT is
    not retried. *)
Theorem uploadItems_fails_fast
        (backend : list (string * File) -> string -> File -> FetchResult)
        (source : list DemoFile) (total : Z) (items : list PresignItem.t) :
  forall (done : Z) (s : State) (fx : Effects),
    let r := uploadItems backend source total items done s fx in
    exists new,
      puts (snd (fst r)) = puts fx ++ new
      /\ match snd r with
         | None => acceptedRun backend (puts fx) new = true
         | Some _ =>
             exists init last,
               new = init ++ [last]
               /\ acceptedRun backend (puts fx) init = true
               /\ accepts backend (puts fx ++ init) last = false
         end.
Proof.
  induction items as [|item rest IH]; intros done s fx; cbn [uploadItems].
  - exists []. cbn [fst snd]. now rewrite app_nil_r.
  - destruct (find _ source) as [m|]; [|apply IH].
    destruct (backend (puts fx) (PresignItem.uploadUrl item) (file m))
      as [|st stText text] eqn:Eb.
    + exists [(PresignItem.uploadUrl item, file m)]. cbn [fst snd puts].
      split; [reflexivity|]. exists [], (PresignItem.uploadUrl item, file m).
      rewrite app_nil_r. unfold accepts. cbn [fst snd]. now rewrite Eb.
    + destruct (ok st) eqn:Eok.
      * match goal with
        | |- context [uploadItems backend source total rest ?d ?s1 ?fx1] =>
            destruct (IH d s1 fx1) as [new [Hp Hr]]
        end.
        cbn [puts] in Hp, Hr.
        exists ((PresignItem.uploadUrl item, file m) :: new).
        split; [rewrite Hp, <- app_assoc; reflexivity|].
        assert (Hacc : accepts backend (puts fx) (PresignItem.uploadUrl item, file m)
                       = true).
        { unfold accepts. cbn [fst snd]. now rewrite Eb. }
        destruct (snd (uploadItems backend source total rest _ _ _)).
        -- destruct Hr as [init [last [Hn [Hi Hl]]]].
           exists ((PresignItem.uploadUrl item, file m) :: init), last.
           rewrite Hn. repeat split.
           ++ cbn [acceptedRun]. now rewrite Hacc, Hi.
           ++ now rewrite <- app_assoc in Hl.
        -- cbn [acceptedRun]. now rewrite Hacc, Hr.
      * exists [(PresignItem.uploadUrl item, file m)]. cbn [fst snd puts].
        split; [reflexivity|]. exists [], (PresignItem.uploadUrl item, file m).
        rewrite app_nil_r. unfold accepts. cbn [fst snd]. now rewrite Eb, Eok.
Qed.

(** X6.  A PUT goes to the URL of a plan item and carries a local file
    whose path is that item's path: no file is ever sent to a URL granted
    for another path, and nothing is sent that the plan does not name. *)
Theorem uploadItems_sends_own_path
        (backend : list (string * File) -> string -> File -> FetchResult)
        (source : list DemoFile) (total : Z) (items : list PresignItem.t) :
  forall (done : Z) (s : State) (fx : Effects),
    exists new,
      puts (snd (fst (uploadItems backend source total items done s fx)))
      = puts fx ++ new
      /\ Forall (fun p => exists item x,
                     In item items /\ In x source
                     /\ fst p = PresignItem.uploadUrl item
                     /\ snd p = file x
                     /\ fullPath x = PresignItem.relPath item) new.
Proof.
  induction items as [|item rest IH]; intros done s fx; cbn [uploadItems].
  - exists []. cbn [fst snd]. rewrite app_nil_r. split; [reflexivity|constructor].
  - assert (Hweak : forall new,
               Forall (fun p => exists item0 x,
                           In item0 rest /\ In x source
                           /\ fst p = PresignItem.uploadUrl item0
                           /\ snd p = file x
                           /\ fullPath x = PresignItem.relPath item0) new ->
               Forall (fun p => exists item0 x,
                           In item0 (item :: rest) /\ In x source
                           /\ fst p = PresignItem.uploadUrl item0
                           /\ snd p = file x
                           /\ fullPath x = PresignItem.relPath item0) new).
    { intros new H. eapply Forall_impl; [|exact H].
      intros p [i0 [x [Hi H']]]. exists i0, x. split; [now right|exact H']. }
    destruct (find _ source) as [m|] eqn:Ef.
    + assert (Hm : exists item0 x,
                 In item0 (item :: rest) /\ In x source
                 /\ fst (PresignItem.uploadUrl item, file m) = PresignItem.uploadUrl item0
                 /\ snd (PresignItem.uploadUrl item, file m) = file x
                 /\ fullPath x = PresignItem.relPath item0).
      { exists item, m. apply find_some in Ef. destruct Ef as [Hin He].
        apply String.eqb_eq in He. repeat split; auto. now left. }
      destruct (backend _ _ _) as [|st stText text].
      * exists [(PresignItem.uploadUrl item, file m)]. cbn [fst snd puts].
        split; [reflexivity|]. constructor; [exact Hm|constructor].
      * destruct (ok st).
        -- match goal with
           | |- context [uploadItems backend source total rest ?d ?s1 ?fx1] =>
               destruct (IH d s1 fx1) as [new [Hp HF]]
           end.
           cbn [puts] in Hp.
           exists ((PresignItem.uploadUrl item, file m) :: new).
           split; [rewrite Hp, <- app_assoc; reflexivity|].
           constructor; [exact Hm|now apply Hweak].
        -- exists [(PresignItem.uploadUrl item, file m)]. cbn [fst snd puts].
           split; [reflexivity|]. constructor; [exact Hm|constructor].
    + destruct (IH done s fx) as [new [Hp HF]].
      exists new. split; [exact Hp|now apply Hweak].
Qed.

Lemma setUploadPct_same (s : State) : setUploadPct (uploadPct s) s = s.
Proof. now destruct s. Qed.

(** The loop writes [uploadPct] and nothing else of the state, and shows
    no alert. *)
Lemma uploadItems_quiet
      (backend : list (string * File) -> string -> File -> FetchResult)
      (source : list DemoFile) (total : Z) (items : list PresignItem.t) :
  forall (done : Z) (s : State) (fx : Effects),
    let r := uploadItems backend source total items done s fx in
    (exists pct, fst (fst r) = setUploadPct pct s)
    /\ alerts (snd (fst r)) = alerts fx.
Proof.
  induction items as [|item rest IH]; intros done s fx; cbn [uploadItems].
  - cbn [fst snd]. split; [|reflexivity].
    exists (uploadPct s). now rewrite setUploadPct_same.
  - assert (Hs : exists pct, s = setUploadPct pct s)
      by (exists (uploadPct s); now rewrite setUploadPct_same).
    destruct (find _ source) as [m|]; [|apply IH].
    destruct (backend _ _ _) as [|st stText text]; [split; [exact Hs|reflexivity]|].
    destruct (ok st); [|split; [exact Hs|reflexivity]].
    match goal with
    | |- context [uploadItems backend source total rest ?d ?s1 ?fx1] =>
        destruct (IH d s1 fx1) as [[pct Hp] Ha]
    end.
    split; [|exact Ha]. exists pct. rewrite Hp. reflexivity.
Qed.

(** X7.  A run of the uploader on a non-empty selection ends with
    [uploading] off and in one of two ways only: the plan was obtained, the
    plan's items are stored as uploaded, no alert was shown and the console
    ends with the success entry; or nothing is stored as uploaded, exactly
    one alert was shown and the console ends with the error that was
    caught.  A failure is never silent and a success never alerts. *)
Theorem uploadToS3_outcome
        (api : StartBody.t -> option Reply)
        (backend : list (string * File) -> string -> File -> FetchResult)
        (x : DemoFile) (rest : list DemoFile) (s : State) :
  let out := uploadToS3 api backend (x :: rest) s in
  uploading (fst out) = false
  /\ ((exists plan,
          getPresignedPlan api (sessionId s) (x :: rest) = inr plan
          /\ uploadedItems (fst out) = Some (PresignResponse.items plan)
          /\ alerts (snd out) = []
          /\ exists pre,
               console (snd out)
               = pre ++ [LogUploaded (sessionId s)
                           (Z.of_nat (List.length (PresignResponse.items plan)))
                           (option_map PresignItem.objectKey
                                       (hd_error (PresignResponse.items plan)))])
      \/ (uploadedItems (fst out) = None
          /\ alerts (snd out) = ["Upload failed. Check console."]
          /\ exists pre message, console (snd out) = pre ++ [LogUploadError message])).
Proof.
  intros out. unfold out, uploadToS3.
  destruct (getPresignedPlan api (sessionId s) (x :: rest)) as [message|plan].
  - split; [reflexivity|]. right. repeat split. now exists [], message.
  - pose proof (uploadItems_quiet backend (x :: rest)
                  (Z.of_nat (List.length (PresignResponse.items plan)))
                  (PresignResponse.items plan) 0
                  (setUploadPct 0 (setUploading true s)) noEffects) as [[pct Hp] Ha].
    destruct (uploadItems _ _ _ _ _ _ _) as [[s2 fx] [message|]];
      cbn [fst snd] in Hp, Ha; subst s2.
    + split; [reflexivity|]. right. unfold uploadFailed. cbn [fst snd alerts console].
      rewrite Ha. repeat split. now exists (console fx), message.
    + split; [reflexivity|]. left. exists plan. cbn [fst snd alerts console].
      rewrite Ha. repeat split. now exists (console fx).
Qed.

Lemma getPresignedPlan_route
      (BUCKET : string) (getSignedUrl : PutObjectCommand -> Z -> option string)
      (randomHex sessionId : string) (x : DemoFile) (rest : list DemoFile) :
  let sid := Route.sidOf randomHex (Some sessionId) in
  getPresignedPlan (routeApi BUCKET getSignedUrl randomHex) sessionId (x :: rest)
  = match Route.allSome (map (Route.presign BUCKET getSignedUrl sid)
                             (map fileReqOf (x :: rest))) with
    | Some items => inr (PresignResponse.mk sid items)
    | None => inl "presign failed: 500"
    end.
Proof.
  intros sid. unfold getPresignedPlan, routeApi, Route.uploadStart.
  cbn [StartBody.files StartBody.sessionId map Route.reply]. fold sid.
  change (fun f : DemoFile =>
            FileReq.mk (fullPath f) (size (file f))
              (Some (if (type (file f) =? "")%string
                     then "application/octet-stream" else type (file f))))
    with fileReqOf.
  change (FileReq.mk (fullPath x) (size (file x))
            (Some (if (type (file x) =? "")%string
                   then "application/octet-stream" else type (file x))))
    with (fileReqOf x).
  destruct (Route.allSome _) as [items|]; reflexivity.
Qed.

(** X8.  When the issuer refuses the grant of a single file of the
    selection, the route answers 500 and the uploader sends no PUT at all,
    not even for the files whose grants were given: it stores nothing as
    uploaded, logs [presign failed: 500] and alerts. *)
Theorem refused_grant_sends_nothing
        (BUCKET : string) (getSignedUrl : PutObjectCommand -> Z -> option string)
        (randomHex : string)
        (backend : list (string * File) -> string -> File -> FetchResult)
        (x : DemoFile) (rest : list DemoFile) (s : State) :
  let sid := Route.sidOf randomHex (Some (sessionId s)) in
  let out := uploadToS3 (routeApi BUCKET getSignedUrl randomHex) backend (x :: rest) s in
  (exists f, In f (x :: rest)
             /\ getSignedUrl
                  (mkPutObjectCommand BUCKET
                     (Route.keyOf sid (Route.safePathOf (fullPath f)))) 3600 = None) ->
  puts (snd out) = []
  /\ console (snd out) = [LogUploadError "presign failed: 500"]
  /\ alerts (snd out) = ["Upload failed. Check console."]
  /\ uploadedItems (fst out) = None
  /\ uploading (fst out) = false.
Proof.
  intros sid out [f [Hin Hnone]].
  unfold out, uploadToS3. rewrite getPresignedPlan_route. fold sid.
  rewrite (allSome_refused (Route.presign BUCKET getSignedUrl sid)).
  - repeat split.
  - exists (fileReqOf f). split; [now apply in_map|].
    unfold Route.presign, fileReqOf. cbn [FileReq.relPath]. now rewrite Hnone.
Qed.

(** X8 on the demo: five files, the grant of the fourth refused. *)
Lemma refused_grant_sends_nothing_witness :
  puts (snd (uploadToS3
               (routeApi "vault-bucket"
                  (grantExcept "demo/0a1b2c3d4e5f6071/album/4.jpg") "00112233aabbccdd")
               acceptAll fiveFiles demoSession)) = [].
Proof.
  apply (refused_grant_sends_nothing "vault-bucket"
           (grantExcept "demo/0a1b2c3d4e5f6071/album/4.jpg") "00112233aabbccdd"
           acceptAll (plainFile "album/1.jpg" "one")).
  exists (plainFile "album/4.jpg" "four"). split.
  - right. right. right. left. reflexivity.
  - vm_compute. reflexivity.
Defined.

Lemma find_by_path (source : list DemoFile) (x : DemoFile) :
  NoDup (map fullPath source) -> In x source ->
  find (fun y => (fullPath y =? fullPath x)%string) source = Some x.
Proof.
  induction source as [|y t IH]; intros Hnd Hin; [destruct Hin|].
  simpl in *. inversion Hnd as [|? ? Hnotin Hnd']; subst.
  destruct Hin as [->|Hin].
  - now rewrite String.eqb_refl.
  - destruct (String.eqb_spec (fullPath y) (fullPath x)) as [E|E].
    + exfalso. apply Hnotin. rewrite E. now apply in_map.
    + now apply IH.
Qed.

Section CleanUpload.
Variable BUCKET : string.
Variable getSignedUrl : PutObjectCommand -> Z -> option string.
Variable backend : list (string * File) -> string -> File -> FetchResult.
Variable source : list DemoFile.
Variable sid : string.

Hypothesis clean : forall y, In y source -> Route.safePathOf (fullPath y) = fullPath y.
Hypothesis distinct : NoDup (map fullPath source).
Hypothesis granted :
  forall y, In y source ->
            getSignedUrl (mkPutObjectCommand BUCKET (Route.keyOf sid (fullPath y))) 3600
            <> None.
Hypothesis taken : forall history p, accepts backend history p = true.

Lemma presign_clean (y : DemoFile) :
  In y source ->
  Route.presign BUCKET getSignedUrl sid (fileReqOf y)
  = Some (itemOf BUCKET getSignedUrl sid y).
Proof.
  intros Hin. unfold Route.presign, itemOf, grantedUrl, fileReqOf.
  cbn [FileReq.relPath FileReq.contentType].
  rewrite (clean y Hin). pose proof (granted y Hin) as Hg.
  destruct (getSignedUrl _ 3600) as [url|]; [|congruence].
  destruct (type (file y) =? "")%string eqn:E; [reflexivity|].
  now rewrite E.
Qed.

Lemma allSome_clean (l : list DemoFile) :
  (forall y, In y l -> In y source) ->
  Route.allSome (map (Route.presign BUCKET getSignedUrl sid) (map fileReqOf l))
  = Some (map (itemOf BUCKET getSignedUrl sid) l).
Proof.
  induction l as [|y t IH]; intros Hsub; [reflexivity|].
  cbn [map Route.allSome]. rewrite presign_clean by (apply Hsub; now left).
  rewrite IH; [reflexivity|]. intros z Hz. apply Hsub. now right.
Qed.

Lemma uploadItems_clean (total : Z) (l : list DemoFile) :
  (forall y, In y l -> In y source) ->
  forall (done : Z) (s : State) (fx : Effects),
    let r := uploadItems backend source total
                         (map (itemOf BUCKET getSignedUrl sid) l) done s fx in
    snd r = None
    /\ puts (snd (fst r))
       = puts fx ++ map (fun y => (grantedUrl BUCKET getSignedUrl sid y, file y)) l
    /\ console (snd (fst r)) = console fx.
Proof.
  induction l as [|y t IH]; intros Hsub done s fx; cbn [map uploadItems].
  - cbn [fst snd]. now rewrite app_nil_r.
  - change (PresignItem.relPath (itemOf BUCKET getSignedUrl sid y)) with (fullPath y).
    rewrite find_by_path by (auto; apply Hsub; now left).
    change (PresignItem.uploadUrl (itemOf BUCKET getSignedUrl sid y))
      with (grantedUrl BUCKET getSignedUrl sid y).
    pose proof (taken (puts fx) (grantedUrl BUCKET getSignedUrl sid y, file y)) as Hacc.
    unfold accepts in Hacc. cbn [fst snd] in Hacc.
    destruct (backend _ _ _) as [|st stText text]; [discriminate|].
    rewrite Hacc.
    match goal with
    | |- context [uploadItems backend source total _ ?d ?s1 ?fx1] =>
        destruct (IH (fun z Hz => Hsub z (or_intror Hz)) d s1 fx1) as [He [Hp Hc]]
    end.
    cbn [puts console] in Hp, Hc.
    repeat split; [exact He| |exact Hc].
    rewrite Hp, <- app_assoc. reflexivity.
Qed.
End CleanUpload.

(** X9.  The whole way from the selection to the storage, when nothing
    goes wrong: if the route leaves every selected path as it is, the paths
    are pairwise different, the issuer grants every key and the backend takes
    every PUT, then each selected file is sent exactly once, in selection
    order, with its own bytes, to the URL granted for the key
    [demo/<sid>/<its path>]; the plan is stored as uploaded, item for file,
    and no alert is shown. *)
Theorem uploadToS3_clean_selection
        (BUCKET : string) (getSignedUrl : PutObjectCommand -> Z -> option string)
        (randomHex : string)
        (backend : list (string * File) -> string -> File -> FetchResult)
        (x : DemoFile) (rest : list DemoFile) (s : State) :
  let sid := Route.sidOf randomHex (Some (sessionId s)) in
  let out := uploadToS3 (routeApi BUCKET getSignedUrl randomHex) backend (x :: rest) s in
  (forall y, In y (x :: rest) -> Route.safePathOf (fullPath y) = fullPath y) ->
  NoDup (map fullPath (x :: rest)) ->
  (forall y, In y (x :: rest) ->
             getSignedUrl (mkPutObjectCommand BUCKET (Route.keyOf sid (fullPath y))) 3600
             <> None) ->
  (forall history p, accepts backend history p = true) ->
  puts (snd out)
  = map (fun y => (grantedUrl BUCKET getSignedUrl sid y, file y)) (x :: rest)
  /\ uploadedItems (fst out) = Some (map (itemOf BUCKET getSignedUrl sid) (x :: rest))
  /\ alerts (snd out) = []
  /\ console (snd out)
     = [LogUploaded (sessionId s) (Z.of_nat (List.length (x :: rest)))
                    (Some (Route.keyOf sid (fullPath x)))]
  /\ uploading (fst out) = false.
Proof.
  intros sid out Hclean Hdistinct Hgranted Htaken.
  unfold out, uploadToS3. rewrite getPresignedPlan_route. fold sid.
  rewrite (allSome_clean BUCKET getSignedUrl (x :: rest) sid Hclean Hgranted (x :: rest))
    by auto.
  cbn [PresignResponse.items].
  pose proof (uploadItems_clean BUCKET getSignedUrl backend (x :: rest) sid
                Hdistinct Htaken
                (Z.of_nat (List.length (map (itemOf BUCKET getSignedUrl sid) (x :: rest))))
                (x :: rest) (fun y H => H) 0
                (setUploadPct 0 (setUploading true s)) noEffects) as [He [Hp Hc]].
  pose proof (uploadItems_quiet backend (x :: rest)
                (Z.of_nat (List.length (map (itemOf BUCKET getSignedUrl sid) (x :: rest))))
                (map (itemOf BUCKET getSignedUrl sid) (x :: rest)) 0
                (setUploadPct 0 (setUploading true s)) noEffects) as [_ Ha].
  destruct (uploadItems _ _ _ _ _ _ _) as [[s2 fx] err].
  cbn [fst snd] in He, Hp, Hc, Ha. subst err.
  cbn [fst snd puts console alerts uploadedItems uploading setUploading
       setUploadedItems].
  rewrite Hp, Hc, Ha. cbn [noEffects puts console alerts app].
  rewrite length_map. repeat split.
Qed.

(** X9 on the demo: the five files of the album all arrive. *)
Lemma uploadToS3_clean_selection_witness :
  map (fun p => name (snd p))
      (puts (snd (uploadToS3 demoApi acceptAll fiveFiles demoSession)))
  = map fullPath fiveFiles.
Proof.
  destruct (uploadToS3_clean_selection "vault-bucket" grantAll "00112233aabbccdd"
              acceptAll (plainFile "album/1.jpg" "one") (tl fiveFiles) demoSession)
    as [Hp _].
  - intros y Hy. repeat (destruct Hy as [<-|Hy]; [reflexivity|]). destruct Hy.
  - vm_compute. repeat constructor; simpl; intuition discriminate.
  - intros y Hy. discriminate.
  - intros history p. reflexivity.
  - change (uploadToS3 demoApi acceptAll fiveFiles demoSession)
      with (uploadToS3 (routeApi "vault-bucket" grantAll "00112233aabbccdd") acceptAll
                       (plainFile "album/1.jpg" "one" :: tl fiveFiles) demoSession).
    rewrite Hp. reflexivity.
Defined.

(** ** The handlers, part by part *)

Lemma uploadToS3_writes
      (api : StartBody.t -> option Reply)
      (backend : list (string * File) -> string -> File -> FetchResult)
      (source : list DemoFile) (s : State) :
  exists u p i,
    fst (uploadToS3 api backend source s)
    = setUploading u (setUploadPct p (setUploadedItems i s)).
Proof.
  unfold uploadToS3. destruct source as [|x t].
  - exists (uploading s), (uploadPct s), (uploadedItems s). now destruct s.
  - destruct (getPresignedPlan _ _ _) as [message|plan].
    + exists false, 0, None. reflexivity.
    + pose proof (uploadItems_quiet backend (x :: t)
                    (Z.of_nat (List.length (PresignResponse.items plan)))
                    (PresignResponse.items plan) 0
                    (setUploadPct 0 (setUploading true s)) noEffects) as [[pct Hp] _].
      destruct (uploadItems _ _ _ _ _ _ _) as [[s2 fx] [message|]];
        cbn [fst snd] in Hp; subst s2.
      * exists false, pct, None. reflexivity.
      * exists false, pct, (Some (PresignResponse.items plan)). reflexivity.
Qed.

(** The three ways [proceedAfterPricing] can go, up to its await. *)
Lemma proceedStart_shape (s : State) :
  proceedStart s = (s, None)
  \/ (acceptedPrice s = true /\ isBlank (vaultName s) = false
      /\ (trim (endowmentUsd s) =? "")%string = false
      /\ is_nan (parseFloat (trim (endowmentUsd s)))
         || ltb (parseFloat (trim (endowmentUsd s))) 0 = true
      /\ proceedStart s
         = (setEndowmentError
              (Some "Please enter a valid non-negative USD amount for Endowment, or leave blank.")
              s,
            None))
  \/ (acceptedPrice s = true /\ isBlank (vaultName s) = false
      /\ (forall l, lockOf (endowmentUsd s) (demoEthPrice s) = Some l -> lockWellFormed l)
      /\ proceedStart s
         = match files s with
           | [] =>
               (setStep Step.manifest
                  (setArchiveHash ""
                     (setEndowmentError None
                        (setLockedEndowment (lockOf (endowmentUsd s) (demoEthPrice s)) s))),
                None)
           | _ :: _ =>
               (setEndowmentError None
                  (setLockedEndowment (lockOf (endowmentUsd s) (demoEthPrice s)) s),
                Some (files s))
           end).
Proof.
  unfold proceedStart, lockOf.
  destruct (acceptedPrice s); [|now left].
  destruct (isBlank (vaultName s)); [now left|]. cbn [negb orb].
  destruct (trim (endowmentUsd s) =? "")%string eqn:Et; cbn [negb].
  - right. right. split; [reflexivity|]. split; [reflexivity|].
    split; [intros l H; discriminate H|reflexivity].
  - destruct (is_nan _ || ltb _ 0) eqn:En.
    + right. left. repeat split.
    + right. right. split; [reflexivity|]. split; [reflexivity|].
      split; [|reflexivity].
      intros l H. injection H as <-.
      apply orb_false_elim in En. destruct En as [En1 En2].
      unfold lockWellFormed. cbn [usd eth usdPerEth].
      split; [exact En1|]. split; [exact En2|]. split; [|reflexivity].
      destruct (ltb 0 (demoEthPrice s)) eqn:Er; [exact Er|reflexivity].
Qed.

(** A handler that runs without a break does what its parts do one
    after the other: [proceedAfterPricing] is its start followed at once by
    its rest. *)
Lemma proceedAfterPricing_split (localeCompare : string -> string -> Z) (s : State) :
  proceedAfterPricing localeCompare s
  = match proceedStart s with
    | (s1, Some fs) => proceedSettle localeCompare fs s1
    | (s1, None) => s1
    end.
Proof.
  unfold proceedAfterPricing, proceedStart, proceedSettle.
  destruct (negb (acceptedPrice s) || isBlank (vaultName s)); [reflexivity|].
  destruct (negb (trim (endowmentUsd s) =? "")%string).
  - destruct (is_nan _ || ltb _ 0); [reflexivity|].
    cbn [files setLockedEndowment]. destruct (files s); reflexivity.
  - cbn [files setLockedEndowment]. destruct (files s); reflexivity.
Qed.

(** Projections of a state built by setters. *)
Ltac flow_simpl :=
  cbn [mode started product escrowYears files sessionId uploading uploadPct uploadedItems dragActive vaultName acceptedPrice manifest visibility endowmentUsd endowmentError demoEthPrice lockedEndowment archiveHash step showTokenModal tokenData pending uploads setMode setStarted setProduct setEscrowYears setFiles setSessionId setUploading setUploadPct setUploadedItems setDragActive setVaultName setAcceptedPrice setManifest setVisibility setEndowmentUsd setEndowmentError setDemoEthPrice setLockedEndowment setArchiveHash setStep setShowTokenModal setTokenData setPending setUploads
       Step.rank TokenData.name] in *.

(** Premises on the rank that the known step settles are discharged or
    dropped. *)
Ltac flow_use :=
  repeat match goal with
         | H : ?a <= ?b -> _ |- _ =>
             first [ let P := fresh in
                     assert (P : a <= b) by lia; specialize (H P); clear P
                   | clear H ]
         | H : @eq Z ?a ?b -> _ |- _ =>
             first [ let P := fresh in
                     assert (P : a = b) by lia; specialize (H P); clear P
                   | clear H ]
         | H : _ /\ _ |- _ => destruct H
         end.

Ltac flow_finish :=
  repeat match goal with |- _ /\ _ => split end;
  intros; flow_use;
  repeat match goal with |- _ /\ _ => split end;
  try lia; try discriminate; try congruence; eauto; try tauto.

(** ** The lock, in every state the flow reaches *)

Lemma lock_handle
      (localeCompare : string -> string -> Z)
      (api : StartBody.t -> option Reply)
      (backend : list (string * File) -> string -> File -> FetchResult)
      (ev : Event) (s : State) :
  (forall l, lockedEndowment s = Some l -> lockWellFormed l) ->
  forall l, lockedEndowment (handle localeCompare api backend ev s) = Some l ->
            lockWellFormed l.
Proof.
  intros H l.
  destruct ev;
    try (rewrite (handle_keeps_lock localeCompare api backend) by discriminate;
         apply H).
  - (* Reset *)
    unfold handle. destruct (inStep Step.upload s || inStep Step.vault s);
      [discriminate|apply H].
  - (* ContinueToManifest *)
    unfold handle.
    destruct (pricingShown s && acceptedPrice s && negb (isBlank (vaultName s)));
      [|apply H].
    destruct (proceedStart_shape s) as [E|[(_ & _ & _ & _ & E)|(_ & _ & Hl & E)]];
      rewrite E.
    + apply H.
    + apply H.
    + destruct (files s); flow_simpl; apply Hl.
Qed.

Lemma lock_run
      (localeCompare : string -> string -> Z)
      (api : StartBody.t -> option Reply)
      (backend : list (string * File) -> string -> File -> FetchResult)
      (evs : list Event) :
  forall s,
    (forall l, lockedEndowment s = Some l -> lockWellFormed l) ->
    forall l, lockedEndowment (run localeCompare api backend evs s) = Some l ->
              lockWellFormed l.
Proof.
  induction evs as [|ev evs IH]; intros s H; [exact H|].
  unfold run in *. cbn [fold_left]. apply IH. now apply lock_handle.
Qed.

(** X10.  In every state the flow reaches from the start, a stored lock
    has an amount that is a number and not negative, a positive rate (the
    demo rate when it is positive, 1 otherwise) and [eth] equal to the amount
    divided by the rate. *)
Theorem reachable_lock_well_formed
        (localeCompare : string -> string -> Z)
        (api : StartBody.t -> option Reply)
        (backend : list (string * File) -> string -> File -> FetchResult)
        (sid : string) (evs : list Event) :
  match lockedEndowment (run localeCompare api backend evs (initialState sid)) with
  | Some l =>
      is_nan (usd l) = false /\ ltb (usd l) 0 = false
      /\ ltb 0 (usdPerEth l) = true /\ eth l = div (usd l) (usdPerEth l)
  | None => True
  end.
Proof.
  pose proof (lock_run localeCompare api backend evs (initialState sid)) as H.
  destruct (lockedEndowment (run localeCompare api backend evs (initialState sid)))
    as [l|]; [|exact I].
  apply H; [discriminate|reflexivity].
Qed.

(** ** The build flow, when the user waits for each handler *)

Lemma flowInvariant_initial (localeCompare : string -> string -> Z) (sid : string) :
  flowInvariant localeCompare (initialState sid).
Proof.
  split; [|now left].
  unfold stagesHold, initialState. flow_simpl. flow_finish.
Qed.

(** No handler in flight but the first. *)
Lemma nth_error_single {A : Type} (t : A) (i : nat) :
  nth_error [t] (S i) = None.
Proof. now destruct i. Qed.

Lemma flowInvariant_handle
      (localeCompare : string -> string -> Z)
      (api : StartBody.t -> option Reply)
      (backend : list (string * File) -> string -> File -> FetchResult)
      (ev : Event) (s : State) :
  flowInvariant localeCompare s ->
  (userAction ev = true -> pending s = []) ->
  flowInvariant localeCompare (handle localeCompare api backend ev s).
Proof.
  intros Hinv Hpat. pose proof Hinv as [Hst Hfl].
  pose proof Hst as (Hl & H1 & H2 & H3 & H4 & H5).
  unfold handle. destruct ev; cbn [userAction] in Hpat;
    try specialize (Hpat eq_refl).
  - (* GoHome *) exact Hinv.
  - (* BuildAVault *) exact Hinv.
  - (* StartVaultBuild *)
    destruct (mode s); [exact Hinv|]. destruct (started s); exact Hinv.
  - (* PickProduct *)
    destruct (inStep Step.selectProduct s) eqn:E; [|exact Hinv].
    apply inStep_step in E. split; [|left; exact Hpat].
    unfold stagesHold. flow_simpl. rewrite E in *. flow_simpl. flow_finish.
  - (* PickEscrowYears *)
    destruct (inStep Step.selectProduct s) eqn:E; [|exact Hinv].
    destruct (product s) as [[]|]; exact Hinv.
  - (* DragOver *) destruct (inStep Step.upload s); exact Hinv.
  - (* DragLeave *) destruct (inStep Step.upload s); exact Hinv.
  - (* Drop *)
    destruct (inStep Step.upload s) eqn:E; [|exact Hinv].
    apply inStep_step in E. split; [exact Hst|].
    right. exists (CollectTask picked). flow_simpl. rewrite Hpat.
    split; [reflexivity|exact E].
  - (* FilePick *)
    destruct (inStep Step.upload s) eqn:E; [|exact Hinv].
    apply inStep_step in E. destruct picked; [exact Hinv|].
    split; [|left; exact Hpat].
    unfold stagesHold. flow_simpl. rewrite E in *. flow_simpl. flow_finish.
  - (* TypeVaultName *)
    destruct (inStep Step.upload s) eqn:E; [|exact Hinv].
    apply inStep_step in E. split; [|left; exact Hpat].
    unfold stagesHold. flow_simpl. rewrite E in *. flow_simpl. flow_finish.
  - (* ContinueToPricing *)
    match goal with |- context [if ?c then _ else _] => destruct c eqn:E end;
      [|exact Hinv].
    apply andb_prop in E. destruct E as [E Eb].
    apply andb_prop in E. destruct E as [E Ef].
    apply inStep_step in E. apply negb_true_iff in Eb.
    split; [|left; exact Hpat].
    unfold stagesHold. flow_simpl. rewrite E in *. flow_simpl.
    destruct (files s); [discriminate Ef|]. flow_finish.
  - (* Reset *)
    match goal with |- context [if ?c then _ else _] => destruct c eqn:E end;
      [|exact Hinv].
    split; [|left; exact Hpat].
    unfold stagesHold, resetFlow. flow_simpl. flow_finish.
  - (* TickAccept *)
    destruct (pricingShown s) eqn:E; [|exact Hinv].
    apply pricingShown_step in E. split; [|left; exact Hpat].
    unfold stagesHold. flow_simpl. rewrite E in *. flow_simpl. flow_finish.
  - (* TypeEndowmentUsd *)
    destruct (pricingShown s) eqn:E; [|exact Hinv].
    apply pricingShown_step in E. split; [|left; exact Hpat].
    unfold stagesHold. flow_simpl. rewrite E in *. flow_simpl. flow_finish.
  - (* TypeDemoEthPrice *)
    destruct (pricingShown s) eqn:E; [|exact Hinv].
    apply pricingShown_step in E. split; [|left; exact Hpat].
    unfold stagesHold. flow_simpl. rewrite E in *. flow_simpl. flow_finish.
  - (* ContinueToManifest *)
    match goal with |- context [if ?c then _ else _] => destruct c eqn:E end;
      [|exact Hinv].
    apply andb_prop in E. destruct E as [E _].
    apply andb_prop in E. destruct E as [E _].
    apply pricingShown_step in E.
    destruct (proceedStart_shape s)
      as [Eq|[(_ & _ & _ & _ & Eq)|(Ha & Hn & Hlk & Eq)]]; rewrite Eq.
    + exact Hinv.
    + split; [|left; exact Hpat].
      unfold stagesHold. flow_simpl. rewrite E in *. flow_simpl. flow_finish.
    + destruct (files s) as [|x rest] eqn:Ef.
      * exfalso. rewrite E in H2. destruct H2 as [H2 _]; [simpl; lia|].
        now apply H2.
      * split.
        -- unfold stagesHold. flow_simpl. rewrite E in *. flow_simpl.
           rewrite Ef. flow_finish.
        -- right. exists (HashTask (x :: rest)). flow_simpl. rewrite Hpat.
           split; [reflexivity|]. cbn [taskFits]. flow_simpl.
           repeat split; first [assumption | reflexivity | now symmetry].
  - (* PricingBack *)
    destruct (pricingShown s) eqn:E; [|exact Hinv].
    apply pricingShown_step in E. split; [|left; exact Hpat].
    unfold stagesHold. flow_simpl. rewrite E in *. flow_simpl. flow_finish.
  - (* TypeManifest *)
    destruct (inStep Step.manifest s) eqn:E; [|exact Hinv].
    apply inStep_step in E. split; [|left; exact Hpat].
    unfold stagesHold. flow_simpl. rewrite E in *. flow_simpl. flow_finish.
  - (* PickVisibility *)
    destruct (inStep Step.manifest s) eqn:E; [|exact Hinv].
    apply inStep_step in E. split; [|left; exact Hpat].
    unfold stagesHold. flow_simpl. rewrite E in *. flow_simpl. flow_finish.
  - (* SubmitAndMint *)
    match goal with |- context [if ?c then _ else _] => destruct c eqn:E end;
      [|exact Hinv].
    apply andb_prop in E. destruct E as [E Ev].
    apply andb_prop in E. destruct E as [E Em].
    apply inStep_step in E. apply negb_true_iff in Em.
    split.
    + unfold stagesHold. flow_simpl. rewrite E in *. flow_simpl.
      destruct (visibility s); [|discriminate Ev]. flow_finish.
    + right. exists (TokenTask (vaultName s)). flow_simpl. rewrite Hpat.
      split; [reflexivity|]. split; reflexivity.
  - (* ManifestBack *)
    destruct (inStep Step.manifest s) eqn:E; [|exact Hinv].
    apply inStep_step in E. split; [|left; exact Hpat].
    unfold stagesHold. flow_simpl. rewrite E in *. flow_simpl. flow_finish.
  - (* ViewToken *)
    destruct (inStep Step.vault s); exact Hinv.
  - (* CloseTokenModal *)
    destruct (showTokenModal s); [|exact Hinv].
    destruct (tokenData s); exact Hinv.
  - (* HashSettled *)
    destruct Hfl as [Hp|(t & Hp & Hfit)]; rewrite Hp.
    + destruct i; exact Hinv.
    + destruct i as [|i]; [|rewrite nth_error_single; exact Hinv].
      cbn [nth_error]. destruct t; try exact Hinv.
      destruct Hfit as (Es & Efs & Ha & He & Hlk). subst fs.
      split; [|now left].
      unfold stagesHold, proceedSettle. flow_simpl. rewrite Es in *. flow_simpl.
      flow_finish.
  - (* DropCollected *)
    destruct Hfl as [Hp|(t & Hp & Hfit)]; rewrite Hp.
    + destruct i; exact Hinv.
    + destruct i as [|i]; [|rewrite nth_error_single; exact Hinv].
      cbn [nth_error]. destruct t; try exact Hinv.
      cbn [taskFits] in Hfit.
      destruct picked as [|x rest].
      * split; [exact Hst|now left].
      * split; [|now left].
        unfold stagesHold, uploadBegin. flow_simpl. rewrite Hfit in *.
        flow_simpl. flow_finish.
  - (* UploadSettled *)
    destruct (nth_error (uploads s) i) as [[source k]|]; [|exact Hinv].
    destruct (uploadResume_writes api backend (sessionId s) source
                (uploadAt api backend (sessionId s) source k) s) as (b & p & it & H).
    rewrite H. exact Hinv.
  - (* MintSlept *)
    destruct Hfl as [Hp|(t & Hp & Hfit)]; rewrite Hp.
    + destruct i; exact Hinv.
    + destruct i as [|i]; [|rewrite nth_error_single; exact Hinv].
      cbn [nth_error]. destruct t; try exact Hinv.
      destruct Hfit as [Es Ev]. subst vault. split.
      * unfold stagesHold. flow_simpl. rewrite Es in *. flow_simpl. flow_finish.
      * right. exists RevealTask. split; [reflexivity|].
        split; [exact Es|]. eexists. split; reflexivity.
  - (* MintSettled *)
    destruct Hfl as [Hp|(t & Hp & Hfit)]; rewrite Hp.
    + destruct i; exact Hinv.
    + destruct i as [|i]; [|rewrite nth_error_single; exact Hinv].
      cbn [nth_error]. destruct t; try exact Hinv.
      destruct Hfit as (Es & tok & Ht & Hn). split; [|now left].
      unfold stagesHold. flow_simpl. rewrite Es in *. flow_simpl. flow_finish.
  - (* Abandoned *)
    destruct Hfl as [Hp|(t & Hp & Hfit)]; rewrite Hp.
    + destruct i; exact Hinv.
    + destruct i as [|i]; [|rewrite nth_error_single; exact Hinv].
      cbn [nth_error]. destruct t; try exact Hinv; (split; [exact Hst|now left]).
Qed.

Lemma flowInvariant_run
      (localeCompare : string -> string -> Z)
      (api : StartBody.t -> option Reply)
      (backend : list (string * File) -> string -> File -> FetchResult)
      (evs : list Event) :
  forall s,
    flowInvariant localeCompare s ->
    patient localeCompare api backend evs s = true ->
    flowInvariant localeCompare (run localeCompare api backend evs s).
Proof.
  induction evs as [|ev evs IH]; intros s H Hp; [exact H|].
  cbn [patient] in Hp. apply andb_prop in Hp. destruct Hp as [Hev Hrest].
  unfold run in *. cbn [fold_left]. apply IH; [|exact Hrest].
  apply flowInvariant_handle; [exact H|].
  intros Hu. rewrite Hu in Hev. cbn [negb orb] in Hev.
  destruct (pending s); [reflexivity|discriminate Hev].
Qed.

(** X11.  Along a run in which the user acts only when no handler is in
    flight (each handler has run to its end, or was given up, before the next
    action), whenever the flow stands at the manifest step or beyond, the
    pricing is accepted, a product is chosen, there are files and a vault
    name that is not blank, no endowment error is shown, the stored archive
    hash is the digest of the files listed, and the stored lock is the one of
    the amount and rate on display (none for a blank amount). *)
Theorem patient_manifest_stage
        (localeCompare : string -> string -> Z)
        (api : StartBody.t -> option Reply)
        (backend : list (string * File) -> string -> File -> FetchResult)
        (sid : string) (evs : list Event) :
  let s := run localeCompare api backend evs (initialState sid) in
  patient localeCompare api backend evs (initialState sid) = true ->
  3 <= Step.rank (step s) ->
  acceptedPrice s = true /\ product s <> None /\ files s <> []
  /\ isBlank (vaultName s) = false /\ endowmentError s = None
  /\ archiveHash s = hashFilesSHA256 localeCompare (files s)
  /\ lockedEndowment s = lockOf (endowmentUsd s) (demoEthPrice s).
Proof.
  intros s Hpat Hrank.
  destruct (flowInvariant_run localeCompare api backend evs (initialState sid)
              (flowInvariant_initial localeCompare sid) Hpat)
    as [(_ & H1 & H2 & H3 & _) _].
  fold s in H1, H2, H3.
  destruct H2 as [Hf Hn]; [lia|]. destruct H3 as (Ha & He & Hh & Hl); [lia|].
  repeat split; try assumption. apply H1. lia.
Qed.

(** X11 on the demo, once the pricing is accepted with 100.00 USD at
    2500 and the digest has arrived: the hash shown is the digest of the one
    file picked. *)
Lemma patient_manifest_stage_witness :
  let s := run codeUnitCompare demoApi acceptAll
               (toAcceptance ++ [ContinueToManifest; HashSettled 0]) demoSession in
  step s = Step.manifest
  /\ archiveHash s = hashFilesSHA256 codeUnitCompare [plainFile "will.pdf" "last will"]
  /\ lockedEndowment s = Some (mkLock 100 0.04 2500).
Proof.
  intros s.
  destruct (patient_manifest_stage codeUnitCompare demoApi acceptAll
              "0a1b2c3d4e5f6071"
              (toAcceptance ++ [ContinueToManifest; HashSettled 0]))
    as (_ & _ & _ & _ & _ & Hh & Hl).
  - vm_compute. reflexivity.
  - vm_compute. discriminate.
  - fold demoSession in Hh, Hl. fold s in Hh, Hl. split; [|split].
    + vm_compute. reflexivity.
    + rewrite Hh. vm_compute. reflexivity.
    + rewrite Hl. vm_compute. reflexivity.
Defined.

(** X12.  Along a run in which the user acts only when no handler is in
    flight, whenever the flow stands at the minting step or at the vault, a
    visibility is chosen and the manifest text is not blank; at the vault
    there is a token, and it is named after the vault: the vault's name, a
    dash, [FAWV Vault]. *)
Theorem patient_mint_stage
        (localeCompare : string -> string -> Z)
        (api : StartBody.t -> option Reply)
        (backend : list (string * File) -> string -> File -> FetchResult)
        (sid : string) (evs : list Event) :
  let s := run localeCompare api backend evs (initialState sid) in
  patient localeCompare api backend evs (initialState sid) = true ->
  4 <= Step.rank (step s) ->
  visibility s <> None /\ isBlank (manifest s) = false
  /\ (step s = Step.vault ->
      exists t, tokenData s = Some t
                /\ TokenData.name t
                   = (vaultName s ++ " " ++ emDash ++ " FAWV Vault")%string).
Proof.
  intros s Hpat Hrank.
  destruct (flowInvariant_run localeCompare api backend evs (initialState sid)
              (flowInvariant_initial localeCompare sid) Hpat)
    as [(_ & _ & _ & _ & H4 & H5) _].
  fold s in H4, H5. destruct (H4 Hrank) as [Hv Hm].
  repeat split; try assumption.
  intros Hs. apply H5. now rewrite Hs.
Qed.

(** X12 on the demo, taken to the vault. *)
Lemma patient_mint_stage_witness :
  let s := run codeUnitCompare demoApi acceptAll toVault demoSession in
  step s = Step.vault /\ visibility s = Some PRIVATE
  /\ option_map TokenData.name (tokenData s)
     = Some ("Family archive " ++ emDash ++ " FAWV Vault")%string.
Proof.
  intros s.
  destruct (patient_mint_stage codeUnitCompare demoApi acceptAll
              "0a1b2c3d4e5f6071" toVault) as (_ & _ & Ht).
  - vm_compute. reflexivity.
  - vm_compute. discriminate.
  - fold demoSession in Ht. fold s in Ht.
    assert (Hs : step s = Step.vault) by (vm_compute; reflexivity).
    destruct (Ht Hs) as [t [Hd Hn]].
    split; [exact Hs|]. split; [vm_compute; reflexivity|].
    rewrite Hd. cbn [option_map]. rewrite Hn. vm_compute. reflexivity.
Defined.

(** X13.  An amount that is given and parses to [NaN] or to a negative
    number is rejected and nothing but the error message changes: the step,
    the stored lock, the archive hash and every other piece of state are as
    before. *)
Theorem rejected_amount_changes_only_the_error
        (localeCompare : string -> string -> Z) (s : State) :
  acceptedPrice s = true -> isBlank (vaultName s) = false ->
  trim (endowmentUsd s) <> "" ->
  is_nan (parseFloat (trim (endowmentUsd s)))
  || ltb (parseFloat (trim (endowmentUsd s))) 0 = true ->
  proceedAfterPricing localeCompare s
  = setEndowmentError
      (Some "Please enter a valid non-negative USD amount for Endowment, or leave blank.")
      s.
Proof.
  intros Ha Hn Ht Hbad.
  unfold proceedAfterPricing. rewrite Ha, Hn. cbn [negb orb].
  apply String.eqb_neq in Ht. rewrite Ht. cbn [negb]. now rewrite Hbad.
Qed.

(** X13 on the demo, with [-5] entered between blanks. *)
Lemma rejected_amount_changes_only_the_error_witness :
  step (proceedAfterPricing codeUnitCompare atNegativeAmount) = Step.pricing
  /\ lockedEndowment (proceedAfterPricing codeUnitCompare atNegativeAmount) = None
  /\ endowmentError (proceedAfterPricing codeUnitCompare atNegativeAmount) <> None.
Proof.
  rewrite (rejected_amount_changes_only_the_error codeUnitCompare atNegativeAmount);
    try (vm_compute; first [reflexivity | discriminate]).
  repeat split. vm_compute. discriminate.
Defined.

(** ** The route's sanitisation and keys *)

Lemma removeDotDotSlash_unfold (s : string) :
  Route.removeDotDotSlash s
  = match startsWith "../" s with
    | Some rest => Route.removeDotDotSlash rest
    | None =>
        match s with
        | String c r => String c (Route.removeDotDotSlash r)
        | EmptyString => EmptyString
        end
    end.
Proof.
  destruct s as [|c1 s1]; [reflexivity|].
  destruct c1 as [[] [] [] [] [] [] [] []]; try reflexivity.
  destruct s1 as [|c2 s2]; [reflexivity|].
  destruct c2 as [[] [] [] [] [] [] [] []]; try reflexivity.
  destruct s2 as [|c3 s3]; [reflexivity|].
  destruct c3 as [[] [] [] [] [] [] [] []]; reflexivity.
Qed.

Lemma removeDotDotSlash_length (n : nat) :
  forall s : string,
    (String.length s <= n)%nat ->
    (String.length (Route.removeDotDotSlash s) <= String.length s)%nat
    /\ (hasDotDotSlash s = true ->
        (String.length (Route.removeDotDotSlash s) < String.length s)%nat)
    /\ (hasDotDotSlash s = false -> Route.removeDotDotSlash s = s).
Proof.
  induction n as [|n IH]; intros s Hn.
  - destruct s; [|simpl in Hn; lia].
    simpl. split; [lia|]. split; [discriminate|reflexivity].
  - rewrite removeDotDotSlash_unfold.
    destruct s as [|c r];
      [simpl; split; [lia|]; split; [discriminate|reflexivity]|].
    cbn [hasDotDotSlash].
    destruct (startsWith "../" (String c r)) as [rest|] eqn:E.
    + apply startsWith_length in E. cbn [String.length] in E, Hn.
      destruct (IH rest) as [Hle _]; [simpl in E; lia|].
      simpl in E. cbn [String.length].
      split; [lia|]. split; [intros _; lia|discriminate].
    + cbn [String.length] in *.
      destruct (IH r) as (Hle & Hlt & Heq); [lia|].
      split; [lia|]. split.
      * intros H. specialize (Hlt H). lia.
      * intros H. now rewrite (Heq H).
Qed.

Lemma stripLeading_length (s : string) :
  (String.length (Route.stripLeading s) <= String.length s)%nat
  /\ (startsDotOrSlash s = true ->
      (String.length (Route.stripLeading s) < String.length s)%nat)
  /\ (startsDotOrSlash s = false -> Route.stripLeading s = s).
Proof.
  assert (Hle : forall t, (String.length (Route.stripLeading t) <= String.length t)%nat).
  { induction t as [|c t IH]; simpl; [lia|].
    destruct ((c =? ".")%char || (c =? "/")%char); simpl; lia. }
  split; [apply Hle|].
  destruct s as [|c s]; simpl; [split; [discriminate|reflexivity]|].
  destruct ((c =? ".")%char || (c =? "/")%char); split; intros H;
    try discriminate; try reflexivity.
  specialize (Hle s). lia.
Qed.

(** X14.  The sanitisation leaves a path as it is exactly when the path
    neither starts with a dot or a slash nor holds [../] anywhere; every
    other path comes out shorter.  These are the paths for which the plan
    item and the local file agree. *)
Theorem safePathOf_fixed_iff (relPath : string) :
  (Route.safePathOf relPath = relPath
   <-> startsDotOrSlash relPath = false /\ hasDotDotSlash relPath = false)
  /\ (Route.safePathOf relPath <> relPath ->
      (String.length (Route.safePathOf relPath) < String.length relPath)%nat).
Proof.
  unfold Route.safePathOf.
  destruct (stripLeading_length relPath) as (Hsle & Hslt & Hseq).
  destruct (removeDotDotSlash_length (String.length (Route.stripLeading relPath))
              (Route.stripLeading relPath) (Nat.le_refl _)) as (Hrle & Hrlt & Hreq).
  assert (Hfix : startsDotOrSlash relPath = false -> hasDotDotSlash relPath = false ->
                 Route.removeDotDotSlash (Route.stripLeading relPath) = relPath).
  { intros H1 H2. rewrite (Hseq H1) in *. now apply Hreq. }
  assert (Hshort : startsDotOrSlash relPath = true \/ hasDotDotSlash relPath = true ->
                   (String.length (Route.removeDotDotSlash (Route.stripLeading relPath))
                    < String.length relPath)%nat).
  { intros [H|H].
    - specialize (Hslt H). lia.
    - destruct (startsDotOrSlash relPath) eqn:Es; [specialize (Hslt eq_refl); lia|].
      rewrite (Hseq eq_refl) in *. now apply Hrlt. }
  split; [split|].
  - intros Heq.
    destruct (startsDotOrSlash relPath) eqn:Es;
      [exfalso; specialize (Hshort (or_introl eq_refl)); rewrite Heq in Hshort; lia|].
    destruct (hasDotDotSlash relPath) eqn:Eh;
      [exfalso; specialize (Hshort (or_intror eq_refl)); rewrite Heq in Hshort; lia|].
    now split.
  - intros [H1 H2]. now apply Hfix.
  - intros Hne.
    destruct (startsDotOrSlash relPath) eqn:Es; [apply Hshort; now left|].
    destruct (hasDotDotSlash relPath) eqn:Eh; [apply Hshort; now right|].
    exfalso. apply Hne. now apply Hfix.
Qed.

Lemma isSidChar_plain (c : ascii) :
  Route.isSidChar c = true -> (c =? "/")%char = false /\ (c =? ".")%char = false.
Proof.
  destruct c as [[] [] [] [] [] [] [] []]; vm_compute; intros H;
    try discriminate H; split; reflexivity.
Qed.

Lemma validSid_sidOf (randomHex : string) (sessionId : option string) :
  Route.validSid randomHex = true ->
  Route.validSid (Route.sidOf randomHex sessionId) = true.
Proof.
  intros Hr. unfold Route.sidOf. destruct sessionId as [s|]; [|exact Hr].
  destruct (s =? "")%string; [exact Hr|].
  cbn [negb andb]. destruct (Route.validSid s) eqn:E; [exact E|exact Hr].
Qed.

Lemma stringRev_stringRev (s : string) :
  forall a b : string, stringRev a (stringRev b s) = stringRev (s ++ a)%string b.
Proof.
  induction s as [|c s IH]; intros a b; [reflexivity|].
  cbn [stringRev]. rewrite IH. reflexivity.
Qed.

Lemma append_empty_r (s : string) : (s ++ "")%string = s.
Proof. induction s as [|c s IH]; [reflexivity|]. simpl. now rewrite IH. Qed.

Lemma segmentsFrom_app_slash (s : string) :
  forall cur t : string,
    Route.allChars Route.isSidChar s = true ->
    segmentsFrom cur (s ++ String "/" t)
    = stringRev "" (stringRev cur s) :: segmentsFrom "" t.
Proof.
  induction s as [|c s IH]; intros cur t Hs.
  - reflexivity.
  - cbn [Route.allChars] in Hs. apply andb_prop in Hs as [Hc Hs].
    destruct (isSidChar_plain c Hc) as [Hslash _].
    cbn [append segmentsFrom stringRev]. rewrite Hslash. now apply IH.
Qed.

Lemma segments_keyOf (sid safePath : string) :
  Route.allChars Route.isSidChar sid = true ->
  segments (Route.keyOf sid safePath) = "demo" :: sid :: segments safePath.
Proof.
  intros Hs. unfold segments, Route.keyOf.
  change (segmentsFrom "" ("demo/" ++ sid ++ "/" ++ safePath)%string)
    with ("demo" :: segmentsFrom "" (sid ++ String "/" safePath)%string).
  rewrite (segmentsFrom_app_slash sid "" safePath Hs).
  rewrite stringRev_stringRev. cbn [stringRev]. now rewrite append_empty_r.
Qed.

Lemma validSid_plain (sid : string) :
  Route.validSid sid = true ->
  Route.allChars Route.isSidChar sid = true
  /\ (sid =? "..")%string = false
  /\ (sid =? ".")%string = false
  /\ (sid =? "")%string = false.
Proof.
  unfold Route.validSid. intros H. apply andb_prop in H as [Hs Hlen].
  split; [exact Hs|].
  destruct sid as [|c r]; [discriminate Hlen|].
  cbn [Route.allChars] in Hs. apply andb_prop in Hs as [Hc _].
  destruct (isSidChar_plain c Hc) as [_ Hdot].
  cbn [String.eqb]. rewrite Hdot. repeat split; reflexivity.
Qed.

Lemma resolveSegments_keeps (segs : list string) :
  forall stack : list string,
    existsb (fun seg => (seg =? "..")%string) segs = false ->
    exists ext, resolveSegments stack segs = rev stack ++ ext.
Proof.
  induction segs as [|seg rest IH]; intros stack H.
  - exists []. cbn [resolveSegments]. now rewrite app_nil_r.
  - cbn [existsb] in H. apply orb_false_elim in H as [Hseg Hrest].
    cbn [resolveSegments]. rewrite Hseg.
    destruct ((seg =? ".")%string || (seg =? "")%string).
    + now apply IH.
    + destruct (IH (seg :: stack) Hrest) as [ext Hext].
      exists (seg :: ext). rewrite Hext. cbn [rev]. now rewrite <- app_assoc.
Qed.

Lemma inSessionNamespace_keyOf (sid safePath : string) :
  Route.validSid sid = true ->
  hasDotDotSegment safePath = false ->
  inSessionNamespace sid (Route.keyOf sid safePath) = true.
Proof.
  intros Hsid Hsafe.
  destruct (validSid_plain sid Hsid) as (Hchars & H2 & H1 & H0).
  unfold inSessionNamespace, resolve. rewrite (segments_keyOf sid safePath Hchars).
  cbn [resolveSegments]. change ("demo" =? "..")%string with false.
  change (("demo" =? ".")%string || ("demo" =? "")%string) with false.
  cbv iota. rewrite H2, H1, H0. cbn [orb].
  destruct (resolveSegments_keeps (segments safePath) [sid; "demo"] Hsafe) as [ext ->].
  cbn [rev app isPrefixOf]. now rewrite !String.eqb_refl.
Qed.

(** X15.  When the draw of random bytes is a well-formed session id, every
    grant the route asks the issuer for is for the configured bucket, and
    its key resolves below [demo/<sid>/] for each file whose sanitised path
    has no [..] segment left; the session id used is well-formed whatever
    the request carried. *)
Theorem uploadStart_keys_in_namespace
  (BUCKET : string) (getSignedUrl : PutObjectCommand -> Z -> option string)
  (randomHex : string) (body : StartBody.t) :
  Route.validSid randomHex = true ->
  let sid := Route.sidOf randomHex (StartBody.sessionId body) in
  Route.validSid sid = true
  /\ Forall2
       (fun f cmd =>
          Bucket cmd = BUCKET
          /\ Key cmd = Route.keyOf sid (Route.safePathOf (FileReq.relPath f))
          /\ (hasDotDotSegment (Route.safePathOf (FileReq.relPath f)) = false ->
              inSessionNamespace sid (Key cmd) = true))
       (match StartBody.files body with Some files => files | None => [] end)
       (Route.requested (Route.uploadStart BUCKET getSignedUrl randomHex body)).
Proof.
  intros Hr sid.
  assert (Hsid : Route.validSid sid = true) by now apply validSid_sidOf.
  split; [exact Hsid|].
  unfold Route.uploadStart. fold sid.
  destruct (StartBody.files body) as [[|f files]|]; cbn [Route.requested];
    try constructor.
  - cbn [Route.commandOf Bucket Key]. repeat split.
    now apply inSessionNamespace_keyOf.
  - induction files as [|g files IH]; cbn [map]; constructor; [|exact IH].
    cbn [Route.commandOf Bucket Key]. repeat split.
    now apply inSessionNamespace_keyOf.
Qed.

Lemma uploadStart_keys_in_namespace_witness :
  Route.validSid "00112233aabbccdd" = true
  /\ Forall2
       (fun f cmd =>
          Bucket cmd = "vault-bucket"
          /\ Key cmd = Route.keyOf "session-42" (Route.safePathOf (FileReq.relPath f))
          /\ (hasDotDotSegment (Route.safePathOf (FileReq.relPath f)) = false ->
              inSessionNamespace "session-42" (Key cmd) = true))
       [FileReq.mk "../../etc/passwd" 4 None; FileReq.mk "./trip/a.jpg" 9 (Some "image/jpeg")]
       (Route.requested
          (Route.uploadStart "vault-bucket" grantAll "00112233aabbccdd"
             (StartBody.mk (Some "session-42")
                (Some [FileReq.mk "../../etc/passwd" 4 None;
                       FileReq.mk "./trip/a.jpg" 9 (Some "image/jpeg")])))).
Proof.
  split; [reflexivity|].
  apply (uploadStart_keys_in_namespace "vault-bucket" grantAll "00112233aabbccdd"
           (StartBody.mk (Some "session-42")
              (Some [FileReq.mk "../../etc/passwd" 4 None;
                     FileReq.mk "./trip/a.jpg" 9 (Some "image/jpeg")]))).
  reflexivity.
Defined.

(** ** The slices and progress reports of the upload module's hasher *)

Section LoopShape.
Variable cs : Z.
Hypothesis cs_pos : 0 < cs.
Variable f : File.

Lemma slice_length (n : nat) :
  (n <= List.length (bytes f))%nat ->
  Z.of_nat (List.length (UploadModule.slice f (Z.of_nat n)
                           (Z.min (Z.of_nat n + cs) (size f))))
  = Z.min cs (size f - Z.of_nat n).
Proof.
  intros Hn. unfold UploadModule.slice, size.
  rewrite length_firstn, length_skipn. lia.
Qed.

Lemma hashLoop_closed_form (fuel : nat) :
  forall (n : nat) (hasher : UploadModule.Hasher) (bufs : list (list byte))
         (prog : list (Z * Z)),
    (n <= List.length (bytes f))%nat ->
    (List.length (bytes f) - n <= fuel)%nat ->
    exists run m,
      UploadModule.hashLoop cs f fuel (Z.of_nat n) hasher bufs prog = Some run
      /\ (Z.of_nat m - 1) * cs < size f - Z.of_nat n <= Z.of_nat m * cs
      /\ UploadModule.buffers run
         = bufs ++ map (fun i => UploadModule.slice f
                                   (Z.of_nat n + Z.of_nat i * cs)
                                   (Z.min (Z.of_nat n + (Z.of_nat i + 1) * cs) (size f)))
                       (seq 0 m)
      /\ UploadModule.progress run
         = prog ++ map (fun i => (Z.min (Z.of_nat n + (Z.of_nat i + 1) * cs) (size f),
                                  size f))
                       (seq 0 m).
Proof.
  induction fuel as [|fuel IH]; intros n hasher bufs prog Hn Hfuel.
  - cbn [UploadModule.hashLoop].
    assert (Ht : (Z.of_nat n <? size f) = false)
      by (apply Z.ltb_ge; unfold size; lia).
    rewrite Ht. eexists. exists 0%nat. split; [reflexivity|].
    cbn [UploadModule.buffers UploadModule.progress seq map].
    rewrite !app_nil_r. unfold size. repeat split; lia.
  - cbn [UploadModule.hashLoop].
    destruct (Z.of_nat n <? size f) eqn:Ht.
    + apply Z.ltb_lt in Ht.
      pose proof (slice_length n Hn) as Hlen.
      set (buf := UploadModule.slice f (Z.of_nat n)
                    (Z.min (Z.of_nat n + cs) (size f))) in *.
      set (k := List.length buf) in *.
      assert (Hoff : Z.of_nat n + Z.of_nat k = Z.of_nat (n + k)) by lia.
      rewrite Hoff.
      destruct (IH (n + k)%nat (UploadModule.update hasher buf) (bufs ++ [buf])
                   (prog ++ [(Z.of_nat (n + k), size f)]))
        as (run & m & Hrun & Hm & Hb & Hp).
      { unfold size in *. lia. }
      { unfold size in *. lia. }
      exists run, (S m). split; [exact Hrun|].
      rewrite Hb, Hp, <- !app_assoc. cbn [app].
      cbn [seq map]. rewrite <- seq_shift, !map_map.
      assert (Hhead : buf = UploadModule.slice f (Z.of_nat n + Z.of_nat 0 * cs)
                              (Z.min (Z.of_nat n + (Z.of_nat 0 + 1) * cs) (size f)))
        by (unfold buf; f_equal; lia).
      assert (Hfirst : Z.of_nat (n + k)
                       = Z.min (Z.of_nat n + (Z.of_nat 0 + 1) * cs) (size f)) by lia.
      rewrite <- Hhead, <- Hfirst.
      destruct (Z.eq_dec (Z.of_nat k) cs) as [Hfull|Hshort].
      * split; [nia|]. split.
        -- do 2 f_equal. apply map_ext. intros i.
           f_equal; [lia|f_equal; lia].
        -- do 2 f_equal. apply map_ext. intros i.
           f_equal. f_equal. lia.
      * assert (m = 0%nat) by nia. subst m. split; [lia|].
        split; reflexivity.
    + apply Z.ltb_ge in Ht. eexists. exists 0%nat. split; [reflexivity|].
      cbn [UploadModule.buffers UploadModule.progress seq map].
      rewrite !app_nil_r. unfold size in *. repeat split; lia.
Qed.
End LoopShape.

(** X16.  The upload module's hasher always finishes, and it reads the file
    in consecutive 8 MiB slices: slice [i] is the bytes from [i * 8 MiB] up
    to [(i + 1) * 8 MiB] or the end of the file, and there are as many
    slices as 8 MiB blocks are needed to cover the file (none for an empty
    file). *)
Theorem sha256Hex_slices (f : File) :
  exists run m,
    UploadModule.sha256Hex f = Some run
    /\ (Z.of_nat m - 1) * UploadModule.chunkSize < size f
       <= Z.of_nat m * UploadModule.chunkSize
    /\ UploadModule.buffers run
       = map (fun i => UploadModule.slice f
                         (Z.of_nat i * UploadModule.chunkSize)
                         (Z.min ((Z.of_nat i + 1) * UploadModule.chunkSize) (size f)))
             (seq 0 m).
Proof.
  destruct (hashLoop_closed_form UploadModule.chunkSize eq_refl f
              (List.length (bytes f)) 0%nat UploadModule.createSHA256 [] [])
    as (run & m & Hrun & Hm & Hb & _); [lia|lia|].
  exists run, m. split; [exact Hrun|].
  split; [change (Z.of_nat 0) with 0 in Hm; lia|].
  rewrite Hb. cbn [app]. apply map_ext. intros i.
  change (Z.of_nat 0) with 0. f_equal.
Qed.

(** X17.  The hasher reports progress once per slice, never for an empty
    file: report [i] carries the bytes hashed so far, [(i + 1) * 8 MiB]
    capped at the file's size, with the file's size as total; the last
    report of a file with content is the size itself. *)
Theorem sha256Hex_progress (f : File) :
  exists run m,
    UploadModule.sha256Hex f = Some run
    /\ (Z.of_nat m - 1) * UploadModule.chunkSize < size f
       <= Z.of_nat m * UploadModule.chunkSize
    /\ UploadModule.progress run
       = map (fun i => (Z.min ((Z.of_nat i + 1) * UploadModule.chunkSize) (size f),
                        size f))
             (seq 0 m)
    /\ (bytes f <> [] ->
        last (UploadModule.progress run) (0, 0) = (size f, size f)).
Proof.
  destruct (hashLoop_closed_form UploadModule.chunkSize eq_refl f
              (List.length (bytes f)) 0%nat UploadModule.createSHA256 [] [])
    as (run & m & Hrun & Hm & _ & Hp); [lia|lia|].
  change (Z.of_nat 0) with 0 in Hm, Hp. cbn [app] in Hp.
  assert (Hp' : UploadModule.progress run
                = map (fun i => (Z.min ((Z.of_nat i + 1) * UploadModule.chunkSize) (size f),
                                 size f)) (seq 0 m)).
  { rewrite Hp. apply map_ext. intros i. reflexivity. }
  exists run, m. split; [exact Hrun|]. split; [lia|]. split; [exact Hp'|].
  intros Hne. rewrite Hp'.
  assert (Hsize : 0 < size f).
  { unfold size. destruct (bytes f); [congruence|simpl; lia]. }
  destruct m as [|m']; [simpl in Hm; lia|].
  rewrite seq_S, map_app. cbn [map Nat.add]. rewrite last_last. f_equal. lia.
Qed.

(** ** The build flow and the storage service *)

Ltac flow_cases :=
  repeat (flow_simpl;
          match goal with
          | |- context [if ?c then _ else _] => destruct c
          | |- context [match ?x with _ => _ end] => destruct x
          end);
  flow_simpl.

Lemma withoutUpload_handle
      (localeCompare : string -> string -> Z)
      (api api' : StartBody.t -> option Reply)
      (backend backend' : list (string * File) -> string -> File -> FetchResult)
      (ev : Event) (s : State) :
  withoutUpload (handle localeCompare api backend ev s)
  = withoutUpload (handle localeCompare api' backend' ev (withoutUpload s)).
Proof.
  destruct ev; unfold handle;
    try (destruct s; unfold withoutUpload, pricingShown, inStep, resetFlow,
           proceedStart, proceedSettle, uploadBegin;
         flow_cases; reflexivity).
  change (uploads (withoutUpload s)) with (uploads s).
  change (sessionId (withoutUpload s)) with (sessionId s).
  destruct (nth_error (uploads s) i) as [[source k]|]; [|now destruct s].
  destruct (uploadResume_writes api backend (sessionId s) source
              (uploadAt api backend (sessionId s) source k) s) as (b & p & it & H).
  destruct (uploadResume_writes api' backend' (sessionId s) source
              (uploadAt api' backend' (sessionId s) source k) (withoutUpload s))
    as (b' & p' & it' & H').
  rewrite H, H'. now destruct s.
Qed.

Lemma withoutUpload_run
      (localeCompare : string -> string -> Z)
      (api api' : StartBody.t -> option Reply)
      (backend backend' : list (string * File) -> string -> File -> FetchResult)
      (evs : list Event) :
  forall s s' : State,
    withoutUpload s = withoutUpload s' ->
    withoutUpload (run localeCompare api backend evs s)
    = withoutUpload (run localeCompare api' backend' evs s').
Proof.
  induction evs as [|ev evs IH]; intros s s' H; [exact H|].
  unfold run in *. cbn [fold_left]. apply IH.
  rewrite (withoutUpload_handle localeCompare api api' backend backend' ev s).
  rewrite H.
  symmetry. apply withoutUpload_handle.
Qed.

(** X18.  The storage service never steers the build.  Whatever the API
    and the storage answer, refusals and failed PUTs included, the same
    actions from the start leave the same state but for the three pieces the
    uploader writes ([uploading], [uploadPct], [uploadedItems]): the same
    step, files, acceptance, hash, lock and token. *)
Theorem storage_never_steers_the_build
        (localeCompare : string -> string -> Z)
        (api api' : StartBody.t -> option Reply)
        (backend backend' : list (string * File) -> string -> File -> FetchResult)
        (sid : string) (evs : list Event) :
  withoutUpload (run localeCompare api backend evs (initialState sid))
  = withoutUpload (run localeCompare api' backend' evs (initialState sid)).
Proof. now apply withoutUpload_run. Qed.

(** ** The upload, await by await *)

Section UploadAwaits.
Variable localeCompare : string -> string -> Z.
Variable api : StartBody.t -> option Reply.
Variable backend : list (string * File) -> string -> File -> FetchResult.

Lemma uploadRun_over (sid : string) (source : list DemoFile) (n : nat) (s : State) :
  uploadRun api backend sid source n Over s = (Over, s).
Proof. induction n as [|n IH]; [reflexivity|]. cbn [uploadRun uploadResume fst snd]. exact IH. Qed.

(** The loop resumed await by await ends where [uploadItems] ends. *)
Lemma uploadNext_run (sid : string) (source : list DemoFile)
      (items rest : list PresignItem.t) :
  forall (done : Z) (s : State) (fx : Effects) (n : nat),
    (List.length rest <= n)%nat ->
    uploadRun api backend sid source n
              (fst (uploadNext source items rest done (puts fx)))
              (snd (uploadNext source items rest done (puts fx)) s)
    = (Over,
       match uploadItems backend source (Z.of_nat (List.length items)) rest done s fx with
       | (s2, _, None) => setUploading false (setUploadedItems (Some items) s2)
       | (s2, _, Some _) => setUploading false (setUploadedItems None s2)
       end).
Proof.
  induction rest as [|item rest IH]; intros done s fx n Hn.
  - cbn [uploadNext uploadItems fst snd]. apply uploadRun_over.
  - cbn [uploadNext uploadItems].
    destruct (find _ source) as [m|].
    + destruct n as [|n]; [cbn [List.length] in Hn; lia|].
      cbn [List.length] in Hn. cbn [fst snd uploadRun uploadResume].
      destruct (backend (puts fx) (PresignItem.uploadUrl item) (file m))
        as [|st stText text].
      * cbn [fst snd]. rewrite uploadRun_over. reflexivity.
      * destruct (ok st).
        -- cbn [fst snd].
           apply (IH (done + 1)
                    (setUploadPct
                       (mathRound (mul (div (floatOfZ (done + 1))
                                            (floatOfZ (Z.of_nat (List.length items))))
                                       100)) s)
                    (mkEffects (puts fx ++ [(PresignItem.uploadUrl item, file m)])
                               (console fx) (alerts fx)) n).
           lia.
        -- cbn [fst snd]. rewrite uploadRun_over. reflexivity.
    + apply IH. cbn [List.length] in Hn. lia.
Qed.

(** The whole call: once enough awaits have settled it is over, in the
    state [uploadToS3] ends in. *)
Lemma uploadRun_uploadToS3 (x : DemoFile) (rest : list DemoFile) (s : State) :
  exists n, forall m, (n <= m)%nat ->
    uploadRun api backend (sessionId s) (x :: rest) m AwaitingPlan
              (setUploadPct 0 (setUploading true s))
    = (Over, fst (uploadToS3 api backend (x :: rest) s)).
Proof.
  unfold uploadToS3.
  destruct (getPresignedPlan api (sessionId s) (x :: rest)) as [message|plan] eqn:Ep.
  - exists 1%nat. intros m Hm. destruct m as [|m]; [lia|].
    cbn [uploadRun uploadResume]. rewrite Ep. cbn [fst snd].
    rewrite uploadRun_over. reflexivity.
  - exists (S (List.length (PresignResponse.items plan))). intros m Hm.
    destruct m as [|m]; [lia|].
    cbn [uploadRun uploadResume]. rewrite Ep.
    pose proof (uploadNext_run (sessionId s) (x :: rest)
                  (PresignResponse.items plan) (PresignResponse.items plan) 0
                  (setUploadPct 0 (setUploading true s)) noEffects m) as H.
    cbn [puts noEffects] in H. rewrite H by lia.
    destruct (uploadItems _ _ _ _ _ _ _) as [[s2 fx] [message|]]; reflexivity.
Qed.

(** The uploader's writes do not depend on the uploads in flight. *)
Lemma uploadNext_setUploads (source : list DemoFile) (items rest : list PresignItem.t)
      (U : list (list DemoFile * nat)) :
  forall (done : Z) (sent : list (string * File)) (s : State),
    snd (uploadNext source items rest done sent) (setUploads U s)
    = setUploads U (snd (uploadNext source items rest done sent) s).
Proof.
  induction rest as [|item rest IH]; intros done sent s; cbn [uploadNext].
  - reflexivity.
  - destruct (find _ source); [reflexivity|apply IH].
Qed.

Lemma uploadResume_setUploads (sid : string) (source : list DemoFile) (u : Upload)
      (U : list (list DemoFile * nat)) (s : State) :
  snd (uploadResume api backend sid source u) (setUploads U s)
  = setUploads U (snd (uploadResume api backend sid source u) s).
Proof.
  destruct u as [|items item m rest done sent|]; cbn [uploadResume].
  - destruct (getPresignedPlan _ _ _); [reflexivity|apply uploadNext_setUploads].
  - destruct (backend _ _ _) as [|st stText text]; [reflexivity|].
    destruct (ok st); [|reflexivity]. cbn [snd].
    apply (uploadNext_setUploads source items rest U (done + 1)
             (sent ++ [(PresignItem.uploadUrl item, file m)])
             (setUploadPct _ s)).
  - reflexivity.
Qed.

Lemma uploadRun_setUploads (sid : string) (source : list DemoFile)
      (U : list (list DemoFile * nat)) (n : nat) :
  forall (u : Upload) (s : State),
    snd (uploadRun api backend sid source n u (setUploads U s))
    = setUploads U (snd (uploadRun api backend sid source n u s)).
Proof.
  induction n as [|n IH]; intros u s; [reflexivity|].
  cbn [uploadRun]. rewrite uploadResume_setUploads. apply IH.
Qed.

Lemma nth_error_setNth {A : Type} (i : nat) (x y : A) (l : list A) :
  nth_error l i = Some y ->
  nth_error (setNth i x l) i = Some x
  /\ (forall z, setNth i z (setNth i x l) = setNth i z l)
  /\ setNth i y l = l.
Proof.
  revert i. induction l as [|a l IH]; intros [|i] H; try discriminate H.
  - injection H as ->. repeat split.
  - cbn [nth_error] in H. destruct (IH i H) as (H1 & H2 & H3).
    unfold setNth in *. cbn [firstn skipn app nth_error]. split; [exact H1|].
    split; [intros z; f_equal; apply H2|f_equal; exact H3].
Qed.

(** Settlements of one upload, delivered one after the other, run the
    call from where it stands. *)
Lemma run_uploadSettled (i : nat) (source : list DemoFile) (m : nat) :
  forall (k : nat) (s : State),
    nth_error (uploads s) i = Some (source, k) ->
    run localeCompare api backend (repeat (UploadSettled i) m) s
    = setUploads (setNth i (source, (k + m)%nat) (uploads s))
        (snd (uploadRun api backend (sessionId s) source m
                        (uploadAt api backend (sessionId s) source k) s)).
Proof.
  induction m as [|m IH]; intros k s H.
  - cbn [repeat run fold_left uploadRun snd]. unfold run. cbn [fold_left].
    rewrite Nat.add_0_r.
    destruct (nth_error_setNth i (source, k) (source, k) (uploads s) H) as (_ & _ & ->).
    now destruct s.
  - unfold run in *. cbn [repeat fold_left].
    assert (Hh : handle localeCompare api backend (UploadSettled i) s
                 = setUploads (setNth i (source, S k) (uploads s))
                     (snd (uploadResume api backend (sessionId s) source
                             (uploadAt api backend (sessionId s) source k)) s)).
    { unfold handle. now rewrite H. }
    rewrite Hh.
    destruct (uploadResume_writes api backend (sessionId s) source
                (uploadAt api backend (sessionId s) source k) s) as (b & p & it & Hw).
    destruct (nth_error_setNth i (source, S k) (source, k) (uploads s) H)
      as (Hn & Hs & _).
    rewrite (IH (S k)); [|exact Hn].
    cbn [uploads setUploads sessionId]. rewrite Hs.
    replace (sessionId (snd (uploadResume api backend (sessionId s) source
                               (uploadAt api backend (sessionId s) source k)) s))
      with (sessionId s) by (rewrite Hw; reflexivity).
    rewrite uploadRun_setUploads.
    replace (k + S m)%nat with (S k + m)%nat by lia.
    cbn [uploadRun]. now destruct (snd (uploadRun _ _ _ _ _ _ _)).
Qed.

(** X19.  Resumed await by await with nothing else in between, an upload
    ends in the state the call computes in one go: once enough of its
    awaits have settled, the component's state is the one [uploadToS3]
    leaves, and further settlements change nothing. *)
Theorem upload_await_by_await (x : DemoFile) (rest : list DemoFile) (s : State) :
  exists n, forall m, (n <= m)%nat ->
    setUploads (uploads s)
      (run localeCompare api backend
           (repeat (UploadSettled (List.length (uploads s))) m)
           (uploadBegin (x :: rest) s))
    = fst (uploadToS3 api backend (x :: rest) s).
Proof.
  destruct (uploadRun_uploadToS3 x rest s) as [n Hn]. exists n. intros m Hm.
  rewrite (run_uploadSettled (List.length (uploads s)) (x :: rest) m 0).
  - cbn [uploadBegin sessionId setUploads setUploadPct setUploading uploads].
    change (uploadAt api backend (sessionId s) (x :: rest) 0) with AwaitingPlan.
    match goal with
    | |- context [uploadRun _ _ _ _ _ _ ?s0] =>
        change s0 with (setUploads (uploads s ++ [(x :: rest, 0%nat)])
                          (setUploadPct 0 (setUploading true s)))
    end.
    rewrite uploadRun_setUploads, (Hn m Hm). cbn [snd].
    destruct (uploadToS3_writes api backend (x :: rest) s) as (b & p & it & ->).
    now destruct s.
  - cbn [uploadBegin uploads setUploads].
    rewrite nth_error_app2 by lia. now rewrite Nat.sub_diag.
Qed.
End UploadAwaits.

(** ** The pricing acceptance, uninterrupted *)

Lemma proceedStart_pending (s : State) :
  pending (fst (proceedStart s)) = pending s.
Proof.
  unfold proceedStart.
  destruct (negb (acceptedPrice s) || isBlank (vaultName s)); [reflexivity|].
  destruct (negb (trim (endowmentUsd s) =? "")%string).
  - destruct (is_nan _ || ltb _ 0); [reflexivity|]. now destruct (files s).
  - now destruct (files s).
Qed.

Lemma dropNth_last {A : Type} (l : list A) (x : A) :
  nth_error (l ++ [x]) (List.length l) = Some x
  /\ dropNth (List.length l) (l ++ [x]) = l.
Proof.
  split.
  - rewrite nth_error_app2 by lia. now rewrite Nat.sub_diag.
  - unfold dropNth. rewrite firstn_app, firstn_all, Nat.sub_diag.
    rewrite skipn_all2 by (rewrite length_app; cbn [List.length]; lia).
    cbn [firstn]. now rewrite !app_nil_r.
Qed.

(** X20.  On the pricing panel, a click on Continue followed at once by
    the settling of the digest it awaits leaves the state that
    [proceedAfterPricing] computes when run in one go: the handler split at
    its await does, uninterrupted, what the whole handler does, also when it
    returns early or has no file to hash. *)
Theorem acceptance_uninterrupted
        (localeCompare : string -> string -> Z)
        (api : StartBody.t -> option Reply)
        (backend : list (string * File) -> string -> File -> FetchResult)
        (s : State) :
  pricingShown s = true ->
  run localeCompare api backend
      [ContinueToManifest; HashSettled (List.length (pending s))] s
  = proceedAfterPricing localeCompare s.
Proof.
  intros Hshown. unfold run. cbn [fold_left].
  rewrite proceedAfterPricing_split.
  assert (Hnone : forall s1 : State,
             pending s1 = pending s ->
             handle localeCompare api backend
                    (HashSettled (List.length (pending s))) s1 = s1).
  { intros s1 Hp. unfold handle. rewrite Hp.
    now rewrite (proj2 (nth_error_None (pending s) (List.length (pending s)))). }
  unfold handle at 2. rewrite Hshown. cbn [andb].
  destruct (acceptedPrice s && negb (isBlank (vaultName s))) eqn:Eg.
  - pose proof (proceedStart_pending s) as Hp.
    destruct (proceedStart s) as [s1 [fs|]]; cbn [fst] in Hp.
    + destruct (dropNth_last (pending s) (HashTask fs)) as [Hn Hd].
      unfold handle. cbn [pending setPending]. rewrite Hp, Hn, Hd.
      unfold proceedSettle. rewrite <- Hp. now destruct s1.
    + now apply Hnone.
  - rewrite (Hnone s eq_refl). unfold proceedStart.
    replace (negb (acceptedPrice s) || isBlank (vaultName s)) with true;
      [reflexivity|].
    destruct (acceptedPrice s); [|reflexivity].
    destruct (isBlank (vaultName s)); [reflexivity|discriminate Eg].
Qed.

(** X20 on the demo: the lock taken at 100.00 USD and 2500 USD/ETH and
    the manifest step, reached through the two events. *)
Lemma acceptance_uninterrupted_witness :
  let s := run codeUnitCompare demoApi acceptAll
               [ContinueToManifest; HashSettled 0] atAcceptance in
  pricingShown atAcceptance = true
  /\ s = proceedAfterPricing codeUnitCompare atAcceptance
  /\ step s = Step.manifest
  /\ lockedEndowment s = Some (mkLock 100 0.04 2500).
Proof.
  intros s.
  assert (Hshown : pricingShown atAcceptance = true) by (vm_compute; reflexivity).
  pose proof (acceptance_uninterrupted codeUnitCompare demoApi acceptAll
                atAcceptance Hshown) as H.
  change (List.length (pending atAcceptance)) with 0%nat in H. fold s in H.
  split; [exact Hshown|]. split; [exact H|].
  split; vm_compute; reflexivity.
Defined.
